(** * depdf: per-page analysis ([depdf/page.py])

    A shallow embedding of the [DePage] class: construction, the adaptive
    tolerances, the content frame, phrase normalisation, the page pipeline
    and the paragraph segmenter, together with the properties the
    specification states about them.

    Numbers.  The coordinates handed over by the PDF layer are decimal
    numbers; they are modelled as rationals ([Q]) and the arithmetic of the
    source ([+], [-], [*], [/], [abs], [max], comparisons) as exact rational
    arithmetic.  Comparisons are the boolean tests of the source, so every
    definition below evaluates.  A division whose divisor can be zero at run
    time raises, as it does in Python. *)

From Stdlib Require Import QArith Qabs ZArith List String Bool Lia Lqa.
From Stdlib Require Import Sorted Permutation.
Import ListNotations.
Open Scope Q_scope.

(** ** Exceptions and fallible computations *)

Inductive exn : Type :=
| ZeroDivisionError   (* division by zero *)
| StatisticsError     (* [statistics.median] / [mean] of no data *)
| KeyError            (* missing dictionary key *)
| TypeError           (* Python's built-in type error, e.g. iterating [None] *)
| ValueError          (* a geometry call of the PDF layer rejected its box *)
| PageTypeError       (* [depdf.error.PageTypeError] *)
| ConfigTypeError.    (* [depdf.error.ConfigTypeError] *)

Inductive result (A : Type) : Type :=
| Ok (a : A)
| Raise (e : exn).

Arguments Ok {A} a.
Arguments Raise {A} e.

Definition bind {A B : Type} (m : result A) (k : A -> result B) : result B :=
  match m with
  | Ok a => k a
  | Raise e => Raise e
  end.

Notation "x <- m ;; k" := (bind m (fun x => k))
  (at level 61, m at next level, right associativity).

(** [try: m except: pass] around a computation that updates a value. *)
Definition try_pass {A : Type} (m : result A) (unchanged : A) : A :=
  match m with
  | Ok a => a
  | Raise _ => unchanged
  end.

(** [for x in l: s = body s x], stopping at the first exception. *)
Fixpoint for_each {S A : Type} (body : S -> A -> result S) (l : list A) (s : S)
  : result S :=
  match l with
  | [] => Ok s
  | x :: xs =>
      match body s x with
      | Ok s' => for_each body xs s'
      | Raise e => Raise e
      end
  end.

Definition is_ok {A : Type} (m : result A) : bool :=
  match m with Ok _ => true | Raise _ => false end.

(** ** Numbers *)

Module Num.

Definition leb (a b : Q) : bool := Qle_bool a b.          (* a <= b *)
Definition geb (a b : Q) : bool := Qle_bool b a.          (* a >= b *)
Definition ltb (a b : Q) : bool := negb (Qle_bool b a).   (* a <  b *)
Definition gtb (a b : Q) : bool := negb (Qle_bool a b).   (* a >  b *)

(** Python's [max(a, b)]: the first argument wins a tie. *)
Definition max (a b : Q) : Q := if ltb a b then b else a.

(** Python's [min(a, b)]: the first argument wins a tie. *)
Definition min (a b : Q) : Q := if ltb b a then b else a.

(** [a / b] where [b] is a run-time value.  The model has one error for a
    zero divisor.  Python raises [ZeroDivisionError] for ints and floats; for
    [Decimal] operands it raises [decimal.DivisionByZero], which is a
    [ZeroDivisionError], unless the dividend is zero as well, when it raises
    [decimal.InvalidOperation].  Whether a division raises is the same in all
    cases; the class of the error is not told apart here. *)
Definition div (a b : Q) : result Q :=
  if Qeq_bool b 0 then Raise ZeroDivisionError else Ok (a / b).

Definition of_nat (n : nat) : Q := inject_Z (Z.of_nat n).

(** The literal [0.3] is a binary double; a comparison against it uses its
    exact value. *)
Definition float_0_3 : Q := 5404319552844595 # 18014398509481984.

(** [max(l)] / [min(l)] of a non-empty list, folding from the left. *)
Definition max_list (x : Q) (l : list Q) : Q := fold_left max l x.
Definition min_list (x : Q) (l : list Q) : Q := fold_left min l x.

End Num.

Notation "a <=? b" := (Num.leb a b) (at level 70, no associativity) : Q_scope.
Notation "a >=? b" := (Num.geb a b) (at level 70, no associativity) : Q_scope.
Notation "a <? b" := (Num.ltb a b) (at level 70, no associativity) : Q_scope.
Notation "a >? b" := (Num.gtb a b) (at level 70, no associativity) : Q_scope.

(** ** Data model *)

Definition BBox : Type := (Q * Q * Q * Q)%type.

(** The dictionaries the page works on.  A word returned by the PDF layer
    carries [x0], [top], [x1], [bottom] and [text]; a header/footer descriptor
    carries in addition the optional keys [mode] and [level].  One record
    serves both, so that the dictionary comparison [i in self.same_tmp] is
    the comparison of all keys. *)
Record Phrase : Type := mkPhrase {
  x0 : Q;
  top : Q;
  x1 : Q;
  bottom : Q;
  text : string;
  mode : option string;
  level : option string
}.

(** A plain word: no [mode], no [level]. *)
Definition word (l t r b : Q) (s : string) : Phrase :=
  mkPhrase l t r b s None None.

Definition opt_string_eqb (a b : option string) : bool :=
  match a, b with
  | None, None => true
  | Some s, Some t => String.eqb s t
  | _, _ => false
  end.

(** Dictionary equality [a == b]: same keys, equal values (numbers are
    compared by value). *)
Definition phrase_eqb (a b : Phrase) : bool :=
  Qeq_bool (x0 a) (x0 b) && Qeq_bool (top a) (top b) &&
  Qeq_bool (x1 a) (x1 b) && Qeq_bool (bottom a) (bottom b) &&
  String.eqb (text a) (text b) &&
  opt_string_eqb (mode a) (mode b) && opt_string_eqb (level a) (level b).

(** [i in l]. *)
Definition py_in (i : Phrase) (l : list Phrase) : bool :=
  existsb (phrase_eqb i) l.

Definition phrase_bbox (i : Phrase) : BBox := (x0 i, top i, x1 i, bottom i).

(** Paragraph style: the keys [font-size], [align] and [margin-left] of the
    style dictionary (the values are kept as numbers, not rendered). *)
Record Style : Type := mkStyle {
  font_size : option Q;
  align : option string;
  margin_left : option Q
}.

Definition empty_style : Style := mkStyle None None None.

(** [not para_style]: the dictionary has no key. *)
Definition style_is_empty (s : Style) : bool :=
  match font_size s, align s, margin_left s with
  | None, None, None => true
  | _, _, _ => false
  end.

(** Entries of a paragraph. *)
Inductive InnerObject : Type :=
| Text (bbox : BBox) (txt : string)
| Span (bbox : BBox) (span_text : string) (span_margin_left : Q).

Definition obj_bbox (o : InnerObject) : BBox :=
  match o with Text b _ => b | Span b _ _ => b end.

Definition obj_text (o : InnerObject) : string :=
  match o with Text _ s => s | Span _ s _ => s end.

Definition is_text (o : InnerObject) : bool :=
  match o with Text _ _ => true | Span _ _ _ => false end.

Record Paragraph : Type := mkParagraph {
  para_pid : Z;
  para_idx : nat;
  inner_objects : list InnerObject;
  style : Style
}.

(** ** The PDF access layer, as this file sees it *)

(** A glyph ([page.chars]); only its vertical bounds are read here. *)
Record Glyph : Type := mkGlyph {
  g_top : Q;
  g_bottom : Q
}.

(** A straight edge or line of the page. *)
Record Line : Type := mkLine {
  l_x0 : Q;
  l_x1 : Q;
  l_top : Q;
  l_bottom : Q;
  l_width : Q;
  l_height : Q
}.

(** A curve of the page: its points. *)
Record Curve : Type := mkCurve {
  c_points : list (Q * Q)
}.

Record HEdge : Type := mkHEdge { he_top : Q; he_x0 : Q; he_x1 : Q }.
Record VEdge : Type := mkVEdge { ve_x : Q; ve_top : Q; ve_bottom : Q }.

(** The parameters handed to [find_tables]. *)
Record TableSettings : Type := mkTableSettings {
  explicit_vertical_lines : list VEdge;
  explicit_horizontal_lines : list HEdge;
  edge_min_length : Q;
  join_tolerance : Q;
  intersection_tolerance : Q
}.

(** A table as found by the PDF layer, and as converted by [page_tools];
    this file reads only the bounding box. *)
Record RawTable : Type := mkRawTable { raw_bbox : BBox; raw_cells : list BBox }.
Record Table : Type := mkTable { table_bbox : BBox; table_tid : nat }.

(** A merged figure region. *)
Record Figure : Type := mkFigure {
  f_x0 : Q;
  f_top : Q;
  f_x1 : Q;
  f_bottom : Q;
  f_width : Q;
  f_height : Q;
  f_bbox : BBox
}.

Record Image : Type := mkImage {
  image_bbox : BBox;
  image_pid : Z;
  img_idx : nat;
  scan : bool
}.

(** A region of a page obtained by [within_bbox]. *)
Record Region : Type := mkRegion {
  region_edges : list Line;
  region_words : Q -> list Phrase      (* extract_words(x_tolerance=...) *)
}.

(** The page object of the PDF layer: the attributes and methods [DePage]
    uses.  A method that can reject its argument returns a [result]. *)
Record Page : Type := mkPage {
  page_width : Q;
  page_height : Q;
  page_chars : list Glyph;
  page_extract_words : Q -> Q -> list Phrase;   (* x_tolerance, y_tolerance *)
  page_crop : BBox -> result (list Glyph);      (* crop(bbox).chars *)
  page_edges : list Line;
  page_lines : list Line;
  page_curves : list Curve;
  page_within_bbox : BBox -> result Region;
  page_find_tables : TableSettings -> result (list RawTable)
}.

(** ** Configuration ([depdf.config.Config]), the fields read here *)

Record Config : Type := mkConfig {
  unique_prefix : string;
  temp_dir_prefix : string;
  verbose_flag : bool;
  debug_flag : bool;
  char_overlap_size : Q;
  default_char_size : Q;
  char_size_upper : Q;
  char_size_lower : Q;
  cfg_y_tolerance : option Q;
  cfg_x_tolerance : option Q;
  main_frame_tolerance : option Q;
  page_num_top_fraction : Q;
  page_num_left_fraction : Q;
  page_num_right_fraction : Q;
  table_flag : bool;
  image_flag : bool;
  paragraph_flag : bool;
  dotted_line_flag : bool;
  curved_line_flag : bool;
  vertical_double_line_tolerance : Q;
  max_double_line_tolerance : Q;
  min_double_line_tolerance : Q;
  min_image_size : Q
}.

(** ** The page under analysis: the attributes of a [DePage] instance *)

Record DePage : Type := mkDePage {
  _page : Page;   (* the PDF layer's page object *)
  _pid : Z;
  _config : Config;
  same : list Phrase;   (* header and footer descriptors *)
  same_tmp : list Phrase;   (* the same, without the key [mode] *)
  logo : list BBox;   (* watermark and logo regions *)
  new_para_start_flag : option bool;
  new_para_end_flag : option bool;
  orientation : string;
  ave_cs : Q;   (* average char size *)
  min_cs : Q;   (* minimum char size *)
  x_tolerance : Q;
  y_tolerance : Q;
  pagination_phrases : list Phrase;
  phrases : option (list Phrase);   (* [None] until [extract_phrases] has run *)
  frame_top : Q;
  frame_bottom : Q;
  ave_lh : Q;   (* average line height *)
  border : BBox;   (* (ll, tt, lr, tb) *)
  v_edges : list VEdge;
  h_edges : list HEdge;
  verbose : bool;
  debug : bool;
  temp_dir : string;
  prefix : string;
  _tables : list Table;
  _table_phrases : list Phrase;
  _tables_raw : list RawTable;
  _paragraphs : list Paragraph;
  _images : list Image;
  _images_raw : list Figure;
  _image_phrases : list Phrase;
  toc_flag : bool
}.

Definition set_page (v : Page) (self : DePage) : DePage :=
  mkDePage v (_pid self) (_config self) (same self) (same_tmp self)
    (logo self) (new_para_start_flag self) (new_para_end_flag self)
    (orientation self) (ave_cs self) (min_cs self) (x_tolerance self)
    (y_tolerance self) (pagination_phrases self) (phrases self)
    (frame_top self) (frame_bottom self) (ave_lh self) (border self)
    (v_edges self) (h_edges self) (verbose self) (debug self) (temp_dir self)
    (prefix self) (_tables self) (_table_phrases self) (_tables_raw self)
    (_paragraphs self) (_images self) (_images_raw self) (_image_phrases self)
    (toc_flag self).

Definition set_orientation (v : string) (self : DePage) : DePage :=
  mkDePage (_page self) (_pid self) (_config self) (same self) (same_tmp self)
    (logo self) (new_para_start_flag self) (new_para_end_flag self) v
    (ave_cs self) (min_cs self) (x_tolerance self) (y_tolerance self)
    (pagination_phrases self) (phrases self) (frame_top self)
    (frame_bottom self) (ave_lh self) (border self) (v_edges self)
    (h_edges self) (verbose self) (debug self) (temp_dir self) (prefix self)
    (_tables self) (_table_phrases self) (_tables_raw self) (_paragraphs self)
    (_images self) (_images_raw self) (_image_phrases self) (toc_flag self).

Definition set_ave_cs (v : Q) (self : DePage) : DePage :=
  mkDePage (_page self) (_pid self) (_config self) (same self) (same_tmp self)
    (logo self) (new_para_start_flag self) (new_para_end_flag self)
    (orientation self) v (min_cs self) (x_tolerance self) (y_tolerance self)
    (pagination_phrases self) (phrases self) (frame_top self)
    (frame_bottom self) (ave_lh self) (border self) (v_edges self)
    (h_edges self) (verbose self) (debug self) (temp_dir self) (prefix self)
    (_tables self) (_table_phrases self) (_tables_raw self) (_paragraphs self)
    (_images self) (_images_raw self) (_image_phrases self) (toc_flag self).

Definition set_min_cs (v : Q) (self : DePage) : DePage :=
  mkDePage (_page self) (_pid self) (_config self) (same self) (same_tmp self)
    (logo self) (new_para_start_flag self) (new_para_end_flag self)
    (orientation self) (ave_cs self) v (x_tolerance self) (y_tolerance self)
    (pagination_phrases self) (phrases self) (frame_top self)
    (frame_bottom self) (ave_lh self) (border self) (v_edges self)
    (h_edges self) (verbose self) (debug self) (temp_dir self) (prefix self)
    (_tables self) (_table_phrases self) (_tables_raw self) (_paragraphs self)
    (_images self) (_images_raw self) (_image_phrases self) (toc_flag self).

Definition set_x_tolerance (v : Q) (self : DePage) : DePage :=
  mkDePage (_page self) (_pid self) (_config self) (same self) (same_tmp self)
    (logo self) (new_para_start_flag self) (new_para_end_flag self)
    (orientation self) (ave_cs self) (min_cs self) v (y_tolerance self)
    (pagination_phrases self) (phrases self) (frame_top self)
    (frame_bottom self) (ave_lh self) (border self) (v_edges self)
    (h_edges self) (verbose self) (debug self) (temp_dir self) (prefix self)
    (_tables self) (_table_phrases self) (_tables_raw self) (_paragraphs self)
    (_images self) (_images_raw self) (_image_phrases self) (toc_flag self).

Definition set_y_tolerance (v : Q) (self : DePage) : DePage :=
  mkDePage (_page self) (_pid self) (_config self) (same self) (same_tmp self)
    (logo self) (new_para_start_flag self) (new_para_end_flag self)
    (orientation self) (ave_cs self) (min_cs self) (x_tolerance self) v
    (pagination_phrases self) (phrases self) (frame_top self)
    (frame_bottom self) (ave_lh self) (border self) (v_edges self)
    (h_edges self) (verbose self) (debug self) (temp_dir self) (prefix self)
    (_tables self) (_table_phrases self) (_tables_raw self) (_paragraphs self)
    (_images self) (_images_raw self) (_image_phrases self) (toc_flag self).

Definition set_pagination_phrases (v : list Phrase) (self : DePage) : DePage :=
  mkDePage (_page self) (_pid self) (_config self) (same self) (same_tmp self)
    (logo self) (new_para_start_flag self) (new_para_end_flag self)
    (orientation self) (ave_cs self) (min_cs self) (x_tolerance self)
    (y_tolerance self) v (phrases self) (frame_top self) (frame_bottom self)
    (ave_lh self) (border self) (v_edges self) (h_edges self) (verbose self)
    (debug self) (temp_dir self) (prefix self) (_tables self)
    (_table_phrases self) (_tables_raw self) (_paragraphs self) (_images self)
    (_images_raw self) (_image_phrases self) (toc_flag self).

Definition set_phrases (v : option (list Phrase)) (self : DePage) : DePage :=
  mkDePage (_page self) (_pid self) (_config self) (same self) (same_tmp self)
    (logo self) (new_para_start_flag self) (new_para_end_flag self)
    (orientation self) (ave_cs self) (min_cs self) (x_tolerance self)
    (y_tolerance self) (pagination_phrases self) v (frame_top self)
    (frame_bottom self) (ave_lh self) (border self) (v_edges self)
    (h_edges self) (verbose self) (debug self) (temp_dir self) (prefix self)
    (_tables self) (_table_phrases self) (_tables_raw self) (_paragraphs self)
    (_images self) (_images_raw self) (_image_phrases self) (toc_flag self).

Definition set_frame_top (v : Q) (self : DePage) : DePage :=
  mkDePage (_page self) (_pid self) (_config self) (same self) (same_tmp self)
    (logo self) (new_para_start_flag self) (new_para_end_flag self)
    (orientation self) (ave_cs self) (min_cs self) (x_tolerance self)
    (y_tolerance self) (pagination_phrases self) (phrases self) v
    (frame_bottom self) (ave_lh self) (border self) (v_edges self)
    (h_edges self) (verbose self) (debug self) (temp_dir self) (prefix self)
    (_tables self) (_table_phrases self) (_tables_raw self) (_paragraphs self)
    (_images self) (_images_raw self) (_image_phrases self) (toc_flag self).

Definition set_frame_bottom (v : Q) (self : DePage) : DePage :=
  mkDePage (_page self) (_pid self) (_config self) (same self) (same_tmp self)
    (logo self) (new_para_start_flag self) (new_para_end_flag self)
    (orientation self) (ave_cs self) (min_cs self) (x_tolerance self)
    (y_tolerance self) (pagination_phrases self) (phrases self)
    (frame_top self) v (ave_lh self) (border self) (v_edges self)
    (h_edges self) (verbose self) (debug self) (temp_dir self) (prefix self)
    (_tables self) (_table_phrases self) (_tables_raw self) (_paragraphs self)
    (_images self) (_images_raw self) (_image_phrases self) (toc_flag self).

Definition set_ave_lh (v : Q) (self : DePage) : DePage :=
  mkDePage (_page self) (_pid self) (_config self) (same self) (same_tmp self)
    (logo self) (new_para_start_flag self) (new_para_end_flag self)
    (orientation self) (ave_cs self) (min_cs self) (x_tolerance self)
    (y_tolerance self) (pagination_phrases self) (phrases self)
    (frame_top self) (frame_bottom self) v (border self) (v_edges self)
    (h_edges self) (verbose self) (debug self) (temp_dir self) (prefix self)
    (_tables self) (_table_phrases self) (_tables_raw self) (_paragraphs self)
    (_images self) (_images_raw self) (_image_phrases self) (toc_flag self).

Definition set_border (v : BBox) (self : DePage) : DePage :=
  mkDePage (_page self) (_pid self) (_config self) (same self) (same_tmp self)
    (logo self) (new_para_start_flag self) (new_para_end_flag self)
    (orientation self) (ave_cs self) (min_cs self) (x_tolerance self)
    (y_tolerance self) (pagination_phrases self) (phrases self)
    (frame_top self) (frame_bottom self) (ave_lh self) v (v_edges self)
    (h_edges self) (verbose self) (debug self) (temp_dir self) (prefix self)
    (_tables self) (_table_phrases self) (_tables_raw self) (_paragraphs self)
    (_images self) (_images_raw self) (_image_phrases self) (toc_flag self).

Definition set_v_edges (v : list VEdge) (self : DePage) : DePage :=
  mkDePage (_page self) (_pid self) (_config self) (same self) (same_tmp self)
    (logo self) (new_para_start_flag self) (new_para_end_flag self)
    (orientation self) (ave_cs self) (min_cs self) (x_tolerance self)
    (y_tolerance self) (pagination_phrases self) (phrases self)
    (frame_top self) (frame_bottom self) (ave_lh self) (border self) v
    (h_edges self) (verbose self) (debug self) (temp_dir self) (prefix self)
    (_tables self) (_table_phrases self) (_tables_raw self) (_paragraphs self)
    (_images self) (_images_raw self) (_image_phrases self) (toc_flag self).

Definition set_h_edges (v : list HEdge) (self : DePage) : DePage :=
  mkDePage (_page self) (_pid self) (_config self) (same self) (same_tmp self)
    (logo self) (new_para_start_flag self) (new_para_end_flag self)
    (orientation self) (ave_cs self) (min_cs self) (x_tolerance self)
    (y_tolerance self) (pagination_phrases self) (phrases self)
    (frame_top self) (frame_bottom self) (ave_lh self) (border self)
    (v_edges self) v (verbose self) (debug self) (temp_dir self) (prefix self)
    (_tables self) (_table_phrases self) (_tables_raw self) (_paragraphs self)
    (_images self) (_images_raw self) (_image_phrases self) (toc_flag self).

Definition set_verbose (v : bool) (self : DePage) : DePage :=
  mkDePage (_page self) (_pid self) (_config self) (same self) (same_tmp self)
    (logo self) (new_para_start_flag self) (new_para_end_flag self)
    (orientation self) (ave_cs self) (min_cs self) (x_tolerance self)
    (y_tolerance self) (pagination_phrases self) (phrases self)
    (frame_top self) (frame_bottom self) (ave_lh self) (border self)
    (v_edges self) (h_edges self) v (debug self) (temp_dir self) (prefix self)
    (_tables self) (_table_phrases self) (_tables_raw self) (_paragraphs self)
    (_images self) (_images_raw self) (_image_phrases self) (toc_flag self).

Definition set_debug (v : bool) (self : DePage) : DePage :=
  mkDePage (_page self) (_pid self) (_config self) (same self) (same_tmp self)
    (logo self) (new_para_start_flag self) (new_para_end_flag self)
    (orientation self) (ave_cs self) (min_cs self) (x_tolerance self)
    (y_tolerance self) (pagination_phrases self) (phrases self)
    (frame_top self) (frame_bottom self) (ave_lh self) (border self)
    (v_edges self) (h_edges self) (verbose self) v (temp_dir self)
    (prefix self) (_tables self) (_table_phrases self) (_tables_raw self)
    (_paragraphs self) (_images self) (_images_raw self) (_image_phrases self)
    (toc_flag self).

Definition set_temp_dir (v : string) (self : DePage) : DePage :=
  mkDePage (_page self) (_pid self) (_config self) (same self) (same_tmp self)
    (logo self) (new_para_start_flag self) (new_para_end_flag self)
    (orientation self) (ave_cs self) (min_cs self) (x_tolerance self)
    (y_tolerance self) (pagination_phrases self) (phrases self)
    (frame_top self) (frame_bottom self) (ave_lh self) (border self)
    (v_edges self) (h_edges self) (verbose self) (debug self) v (prefix self)
    (_tables self) (_table_phrases self) (_tables_raw self) (_paragraphs self)
    (_images self) (_images_raw self) (_image_phrases self) (toc_flag self).

Definition set_prefix (v : string) (self : DePage) : DePage :=
  mkDePage (_page self) (_pid self) (_config self) (same self) (same_tmp self)
    (logo self) (new_para_start_flag self) (new_para_end_flag self)
    (orientation self) (ave_cs self) (min_cs self) (x_tolerance self)
    (y_tolerance self) (pagination_phrases self) (phrases self)
    (frame_top self) (frame_bottom self) (ave_lh self) (border self)
    (v_edges self) (h_edges self) (verbose self) (debug self) (temp_dir self)
    v (_tables self) (_table_phrases self) (_tables_raw self)
    (_paragraphs self) (_images self) (_images_raw self) (_image_phrases self)
    (toc_flag self).

Definition set_tables (v : list Table) (self : DePage) : DePage :=
  mkDePage (_page self) (_pid self) (_config self) (same self) (same_tmp self)
    (logo self) (new_para_start_flag self) (new_para_end_flag self)
    (orientation self) (ave_cs self) (min_cs self) (x_tolerance self)
    (y_tolerance self) (pagination_phrases self) (phrases self)
    (frame_top self) (frame_bottom self) (ave_lh self) (border self)
    (v_edges self) (h_edges self) (verbose self) (debug self) (temp_dir self)
    (prefix self) v (_table_phrases self) (_tables_raw self)
    (_paragraphs self) (_images self) (_images_raw self) (_image_phrases self)
    (toc_flag self).

Definition set_tables_raw (v : list RawTable) (self : DePage) : DePage :=
  mkDePage (_page self) (_pid self) (_config self) (same self) (same_tmp self)
    (logo self) (new_para_start_flag self) (new_para_end_flag self)
    (orientation self) (ave_cs self) (min_cs self) (x_tolerance self)
    (y_tolerance self) (pagination_phrases self) (phrases self)
    (frame_top self) (frame_bottom self) (ave_lh self) (border self)
    (v_edges self) (h_edges self) (verbose self) (debug self) (temp_dir self)
    (prefix self) (_tables self) (_table_phrases self) v (_paragraphs self)
    (_images self) (_images_raw self) (_image_phrases self) (toc_flag self).

Definition set_paragraphs (v : list Paragraph) (self : DePage) : DePage :=
  mkDePage (_page self) (_pid self) (_config self) (same self) (same_tmp self)
    (logo self) (new_para_start_flag self) (new_para_end_flag self)
    (orientation self) (ave_cs self) (min_cs self) (x_tolerance self)
    (y_tolerance self) (pagination_phrases self) (phrases self)
    (frame_top self) (frame_bottom self) (ave_lh self) (border self)
    (v_edges self) (h_edges self) (verbose self) (debug self) (temp_dir self)
    (prefix self) (_tables self) (_table_phrases self) (_tables_raw self) v
    (_images self) (_images_raw self) (_image_phrases self) (toc_flag self).

Definition set_images (v : list Image) (self : DePage) : DePage :=
  mkDePage (_page self) (_pid self) (_config self) (same self) (same_tmp self)
    (logo self) (new_para_start_flag self) (new_para_end_flag self)
    (orientation self) (ave_cs self) (min_cs self) (x_tolerance self)
    (y_tolerance self) (pagination_phrases self) (phrases self)
    (frame_top self) (frame_bottom self) (ave_lh self) (border self)
    (v_edges self) (h_edges self) (verbose self) (debug self) (temp_dir self)
    (prefix self) (_tables self) (_table_phrases self) (_tables_raw self)
    (_paragraphs self) v (_images_raw self) (_image_phrases self)
    (toc_flag self).

Definition set_images_raw (v : list Figure) (self : DePage) : DePage :=
  mkDePage (_page self) (_pid self) (_config self) (same self) (same_tmp self)
    (logo self) (new_para_start_flag self) (new_para_end_flag self)
    (orientation self) (ave_cs self) (min_cs self) (x_tolerance self)
    (y_tolerance self) (pagination_phrases self) (phrases self)
    (frame_top self) (frame_bottom self) (ave_lh self) (border self)
    (v_edges self) (h_edges self) (verbose self) (debug self) (temp_dir self)
    (prefix self) (_tables self) (_table_phrases self) (_tables_raw self)
    (_paragraphs self) (_images self) v (_image_phrases self) (toc_flag self).

Definition set_image_phrases (v : list Phrase) (self : DePage) : DePage :=
  mkDePage (_page self) (_pid self) (_config self) (same self) (same_tmp self)
    (logo self) (new_para_start_flag self) (new_para_end_flag self)
    (orientation self) (ave_cs self) (min_cs self) (x_tolerance self)
    (y_tolerance self) (pagination_phrases self) (phrases self)
    (frame_top self) (frame_bottom self) (ave_lh self) (border self)
    (v_edges self) (h_edges self) (verbose self) (debug self) (temp_dir self)
    (prefix self) (_tables self) (_table_phrases self) (_tables_raw self)
    (_paragraphs self) (_images self) (_images_raw self) v (toc_flag self).

Definition set_new_para_start_flag (v : option bool) (self : DePage) : DePage :=
  mkDePage (_page self) (_pid self) (_config self) (same self) (same_tmp self)
    (logo self) v (new_para_end_flag self) (orientation self) (ave_cs self)
    (min_cs self) (x_tolerance self) (y_tolerance self)
    (pagination_phrases self) (phrases self) (frame_top self)
    (frame_bottom self) (ave_lh self) (border self) (v_edges self)
    (h_edges self) (verbose self) (debug self) (temp_dir self) (prefix self)
    (_tables self) (_table_phrases self) (_tables_raw self) (_paragraphs self)
    (_images self) (_images_raw self) (_image_phrases self) (toc_flag self).

Definition set_new_para_end_flag (v : option bool) (self : DePage) : DePage :=
  mkDePage (_page self) (_pid self) (_config self) (same self) (same_tmp self)
    (logo self) (new_para_start_flag self) v (orientation self) (ave_cs self)
    (min_cs self) (x_tolerance self) (y_tolerance self)
    (pagination_phrases self) (phrases self) (frame_top self)
    (frame_bottom self) (ave_lh self) (border self) (v_edges self)
    (h_edges self) (verbose self) (debug self) (temp_dir self) (prefix self)
    (_tables self) (_table_phrases self) (_tables_raw self) (_paragraphs self)
    (_images self) (_images_raw self) (_image_phrases self) (toc_flag self).

Definition set_toc_flag (v : bool) (self : DePage) : DePage :=
  mkDePage (_page self) (_pid self) (_config self) (same self) (same_tmp self)
    (logo self) (new_para_start_flag self) (new_para_end_flag self)
    (orientation self) (ave_cs self) (min_cs self) (x_tolerance self)
    (y_tolerance self) (pagination_phrases self) (phrases self)
    (frame_top self) (frame_bottom self) (ave_lh self) (border self)
    (v_edges self) (h_edges self) (verbose self) (debug self) (temp_dir self)
    (prefix self) (_tables self) (_table_phrases self) (_tables_raw self)
    (_paragraphs self) (_images self) (_images_raw self) (_image_phrases self)
    v.

(** The properties [width] and [height]. *)
Definition width (self : DePage) : Q := page_width (_page self).
Definition height (self : DePage) : Q := page_height (_page self).

(** The objects a page ends up with. *)
Inductive PageObject : Type :=
| OTable (t : Table)
| OParagraph (p : Paragraph)
| OImage (i : Image).

(** ** Paragraph segmentation ([DePage.extract_paragraph]) *)

(** The local variables of the loop that live across iterations.  [cur_left]
    is the variable [left], [cur_idx] the variable [para_idx]. *)
Record Seg : Type := mkSeg {
  p_left : Q;
  p_top : Q;
  p_right : Q;
  p_bottom : Q;
  cur_left : Q;
  ave_ts : Q;
  div_flag : bool;
  center_flag : bool;
  cur_idx : nat;
  paragraphs : list Paragraph;
  paragraph_objects : list InnerObject;
  para_style : Style
}.

(** The flags computed for one phrase. *)
Record Flags : Type := mkFlags {
  new_line_flag : bool;
  new_para_flag : bool;
  fl_center : bool;
  fl_div : bool
}.

Definition is_nil {A : Type} (l : list A) : bool :=
  match l with [] => true | _ :: _ => false end.

(** The state before the first phrase. *)
Definition seg_init (self : DePage) : Seg :=
  let '(ll, tt', lr, tb) := border self in
  mkSeg ll tt' ll tt' ll (ave_cs self) false false 1%nat [] [] empty_style.

(** The phrases claimed elsewhere, which the loop skips. *)
Definition excluded (self : DePage) (i : Phrase) : bool :=
  py_in i (same_tmp self) || py_in i (_image_phrases self) ||
  py_in i (_table_phrases self) || py_in i (pagination_phrases self).

(** [(x1 - x0) / len(text)]. *)
Definition glyph_width (i : Phrase) : result Q :=
  Num.div (x1 i - x0 i) (Num.of_nat (String.length (text i))).

(** The table-of-contents branch of the decision ([if self.toc_flag:]). *)
Definition classify_toc (st : Seg) (i : Phrase) (ave_th : Q)
    (new_line_flag new_para_flag : bool) : Flags :=
  if bottom i >=? p_bottom st + ave_th / 4
  then mkFlags new_line_flag true false false
  else mkFlags false new_para_flag false false.

(** The normal branch of the decision ([else:]). *)
Definition classify_normal (self : DePage) (st : Seg) (i : Phrase)
    (ave_ts ave_th : Q) (new_line_flag new_para_flag : bool) : Flags :=
  let '(ll, tt', lr, tb) := border self in
  let ave_lh := ave_lh self in
  let page_width := width self in
  let left := x0 i in
  let top := top i in
  let right := x1 i in
  let bottom := bottom i in
  if bottom - p_bottom st >=? ave_th / 4 then
    let new_para_flag := true in
    let new_para_flag :=
      if top - p_bottom st <=? Num.max (ave_th * 6 / 5) ave_lh then
        let new_para_flag :=
          if (Qabs (left - ll) <=? ave_ts) && (p_right st >? lr - ave_ts * 3 / 2)
          then
            if Qabs ((bottom - top) - (p_bottom st - p_top st)) <=? 1
            then false else new_para_flag
          else new_para_flag in
        if (Qabs (left - ll) <=? 1) && (p_right st >=? lr - ave_ts * 3 / 2)
        then false else new_para_flag
      else new_para_flag in
    if new_para_flag then
      let center :=
        if Qabs (page_width - right - left) <=? ave_ts / 2
        then Qabs (lr - right) >=? 4 * ave_ts
        else false in
      let div := left >? ll + ave_ts * 4 in
      mkFlags true new_para_flag center div
    else mkFlags true new_para_flag false false
  else if Qabs (left - p_right st) >=? ave_ts * 2 then
    if Qabs (top - p_top st) <=? ave_ts / 2
    then mkFlags false false false false
    else mkFlags new_line_flag new_para_flag false false
  else mkFlags new_line_flag new_para_flag false false.

(** The line and paragraph decision for phrase [i], given the previous line
    kept in [st]. *)
Definition classify (self : DePage) (st : Seg) (i : Phrase) (ave_ts ave_th : Q)
  : Flags :=
  let new_line_flag := true in
  let new_para_flag := false in
  let new_para_flag := if is_nil (paragraphs st) then true else new_para_flag in
  if toc_flag self
  then classify_toc st i ave_th new_line_flag new_para_flag
  else classify_normal self st i ave_ts ave_th new_line_flag new_para_flag.

(** The style written into an empty style dictionary. *)
Definition infer_style (self : DePage) (ave_ts : Q) (center div : bool) (left : Q)
  : result Style :=
  let '(ll, tt', lr, tb) := border self in
  r <- Num.div (Qabs (ave_ts - ave_cs self)) (ave_cs self) ;;
  let s := if r >=? Num.float_0_3
           then mkStyle (Some ave_ts) None None else empty_style in
  Ok (if center then mkStyle (font_size s) (Some "center"%string) (margin_left s)
      else if div then mkStyle (font_size s) (align s) (Some (left - ll))
      else s).

(** Closing the current paragraph when a new one starts. *)
Definition flush (self : DePage) (fl : Flags) (st : Seg) : Seg :=
  if new_para_flag fl && negb (is_nil (paragraph_objects st)) then
    mkSeg (p_left st) (p_top st) (p_right st) (p_bottom st) (cur_left st)
      (ave_ts st) (div_flag st) (center_flag st) (S (cur_idx st))
      (paragraphs st ++
         [mkParagraph (_pid self) (cur_idx st) (paragraph_objects st) (para_style st)])
      [] empty_style
  else st.

Section Segmenter.

(** [page_tools.format_text], which cleans the text of a phrase. *)
Variable format_text : string -> string.

(** One iteration of [for i in self.phrases]. *)
Definition seg_body (self : DePage) (st : Seg) (i : Phrase) : result Seg :=
  if excluded self i then Ok st
  else
    q <- glyph_width i ;;
    let ave_ts := Num.max q (ave_cs self) in
    let ave_th := Num.max (bottom i - top i) (ave_cs self) in
    let bbox := phrase_bbox i in
    let text := if (String.length (text i) =? 0)%nat then ""%string
                else format_text (text i) in
    let fl := classify self st i ave_ts ave_th in
    let st := flush self fl st in
    sty <- (if style_is_empty (para_style st)
            then infer_style self ave_ts (fl_center fl) (fl_div fl) (x0 i)
            else Ok (para_style st)) ;;
    let obj := if new_line_flag fl then Text bbox text
               else Span bbox text (x0 i - p_left st) in
    Ok (mkSeg (x0 i) (top i) (x1 i) (bottom i) (x0 i) ave_ts
          (fl_div fl) (fl_center fl) (cur_idx st) (paragraphs st)
          (paragraph_objects st ++ [obj]) sty).

(** The last paragraph, closed after the loop. *)
Definition seg_finish (self : DePage) (st : Seg) : result (list Paragraph) :=
  if negb (is_nil (paragraph_objects st)) then
    sty <- infer_style self (ave_ts st) (center_flag st) (div_flag st)
             (cur_left st) ;;
    Ok (paragraphs st ++
          [mkParagraph (_pid self) (cur_idx st) (paragraph_objects st) sty])
  else Ok (paragraphs st).

(** The continuation flags [(new_para_start_flag, new_para_end_flag)]. *)
Definition continuation_flags (self : DePage) (ps : list Phrase)
    (paras : list Paragraph) (st : Seg) : result (option bool * option bool) :=
  let '(ll, tt', lr, tb) := border self in
  if negb (is_nil paras) then
    match ps with
    | first_phrase :: _ =>
        ave_ts <- glyph_width first_phrase ;;
        let w := Num.max ave_ts (ave_cs self) in
        let start := if x0 first_phrase - ll <=? w then false else true in
        let stop := if Qabs (p_right st - lr) <=? w * 3 / 2 then false else true in
        Ok (Some start, Some stop)
    | [] => Ok (Some true, Some true)
    end
  else Ok (None, None).

Definition extract_paragraph (self : DePage) : result DePage :=
  match phrases self with
  | None => Raise TypeError
  | Some ps =>
      st <- for_each (seg_body self) ps (seg_init self) ;;
      paras <- seg_finish self st ;;
      fls <- continuation_flags self ps paras st ;;
      Ok (set_new_para_end_flag (snd fls)
            (set_new_para_start_flag (fst fls)
               (set_paragraphs paras self)))
  end.

End Segmenter.

(** ** Construction ([DePage.__init__]) *)

(** An argument of a call: an instance of the expected class, or any other
    Python object. *)
Inductive PyObj (A : Type) : Type :=
| Instance (a : A)
| Foreign.

Arguments Instance {A} a.
Arguments Foreign {A}.

Definition check_page_type (page : PyObj Page) : result Page :=
  match page with
  | Instance p => Ok p
  | Foreign => Raise PageTypeError
  end.

(** Modelled from the spec: [check_config_type] lives in [depdf.config], which
    is not part of the sources at hand.  The specification says that a
    configuration object of the wrong kind is rejected immediately with a
    type-mismatch error.  The decorator [check_config] of the same module is
    taken to hand its arguments on unchanged. *)
Definition check_config_type (config : PyObj Config) : result Config :=
  match config with
  | Instance c => Ok c
  | Foreign => Raise ConfigTypeError
  end.

(** [set_global]: a non-empty prefix or temporary directory of the
    configuration replaces the default. *)
Definition set_global (self : DePage) : DePage :=
  let cfg := _config self in
  let self := if negb (String.eqb (unique_prefix cfg) "")
              then set_prefix (unique_prefix cfg) self else self in
  let self := if negb (String.eqb (temp_dir_prefix cfg) "")
              then set_temp_dir (temp_dir_prefix cfg) self else self in
  set_debug (debug_flag cfg) (set_verbose (verbose_flag cfg) self).

(** [{k: v for k, v in i.items() if k != 'mode'}]. *)
Definition without_mode (i : Phrase) : Phrase :=
  mkPhrase (x0 i) (top i) (x1 i) (bottom i) (text i) None (level i).

(** The class attributes give the value of every attribute [__init__] does
    not assign.  [default_prefix] stands for the [uuid4] drawn when the class
    is created. *)
Definition init (default_prefix : string)
    (page : PyObj Page) (pid : Z) (same : option (list Phrase))
    (logo : option (list BBox)) (config : PyObj Config) : result DePage :=
  p <- check_page_type page ;;
  cfg <- check_config_type config ;;
  let same_attr := match same with Some l => l | None => [] end in
  same_tmp <- match same with
              | Some l => Ok (map without_mode l)
              | None => Raise TypeError     (* [for i in same] on [None] *)
              end ;;
  let logo_attr := match logo with Some l => l | None => [] end in
  Ok (set_global
        (mkDePage p pid cfg same_attr same_tmp logo_attr None None ""%string
           0 0 3 3 [] None 0 (page_width p) 3
           (0, page_width p, 0, page_height p) [] [] false false
           "temp"%string default_prefix [] [] [] [] [] [] [] false)).

(** ** Sorting and statistics *)

Section SortBy.
Context {A : Type}.
Variable key : A -> Q.

(** Insertion behind the elements that are not larger: the sort is stable,
    as [sorted] is. *)
Fixpoint insert_by (x : A) (l : list A) : list A :=
  match l with
  | [] => [x]
  | y :: ys => if key x <? key y then x :: y :: ys else y :: insert_by x ys
  end.

Definition sorted_by (l : list A) : list A :=
  fold_left (fun acc x => insert_by x acc) l [].
End SortBy.

Definition Qsum (l : list Q) : Q := fold_left Qplus l 0.

(** [statistics.mean]. *)
Definition mean (l : list Q) : result Q :=
  match l with
  | [] => Raise StatisticsError
  | _ :: _ => Ok (Qsum l / Num.of_nat (List.length l))
  end.

(** [statistics.median]: the middle of the sorted data, or the mean of the
    two middle values. *)
Definition median (l : list Q) : result Q :=
  let data := sorted_by (fun x => x) l in
  let n := List.length data in
  if (n =? 0)%nat then Raise StatisticsError
  else if (n mod 2 =? 1)%nat then Ok (nth (n / 2) data 0)
  else
    let i := (n / 2)%nat in
    Ok ((nth (i - 1) data 0 + nth i data 0) / 2).

(** ** The stages of the page pipeline

    Logging and the debug screenshots ([if self.verbose], [if self.debug])
    write to a log or to files and leave the page untouched; they are not
    modelled. *)

(** [0.7] as the binary double it is. *)
Definition float_0_7 : Q := 3152519739159347 # 4503599627370496.

(** [[f(x) for x in l if test(x)]] where the test can raise. *)
Fixpoint filter_r {A : Type} (test : A -> result bool) (l : list A)
  : result (list A) :=
  match l with
  | [] => Ok []
  | x :: xs =>
      b <- test x ;;
      rest <- filter_r test xs ;;
      Ok (if b then x :: rest else rest)
  end.

(** [i['mode'] == self.orientation and i['level'] == lvl]. *)
Definition zone_matches (self : DePage) (lvl : string) (i : Phrase)
  : result bool :=
  match mode i with
  | None => Raise KeyError
  | Some m =>
      if String.eqb m (orientation self) then
        match level i with
        | None => Raise KeyError
        | Some l => Ok (String.eqb l lvl)
        end
      else Ok false
  end.

Definition analyze_main_frame (self : DePage) : result DePage :=
  let mft := match main_frame_tolerance (_config self) with
             | Some m => m
             | None => ave_cs self / 2
             end in
  heads <- filter_r (zone_matches self "head") (same self) ;;
  let tl_bs := map (fun i => bottom i + mft) heads in
  tails <- filter_r (zone_matches self "tail") (same self) ;;
  let bl_ts := map top tails in
  let ft := match tl_bs with
            | [] => 0
            | x :: xs => Num.max_list x xs
            end in
  let fb := match bl_ts with
            | [] => height self
            | x :: xs => Num.min_list x xs
            end in
  Ok (set_frame_bottom fb (set_frame_top ft self)).

(** The vertical bounds of a phrase, recomputed from the glyphs inside its
    box; any failure leaves the phrase as it is. *)
Definition normalize_phrase (page : Page) (w : Phrase) : Phrase :=
  try_pass
    (let bbox := (x0 w, top w, x1 w, bottom w) in
     chars <- page_crop page bbox ;;
     t <- median (map g_top chars) ;;
     b <- median (map g_bottom chars) ;;
     Ok (mkPhrase (x0 w) t (x1 w) b (text w) (mode w) (level w)))
    w.

(** [phrases[i + 1]['top'] - phrases[i]['bottom']] for successive phrases. *)
Fixpoint successive_gaps (l : list Phrase) : list Q :=
  match l with
  | a :: ((b :: _) as rest) => (top b - bottom a) :: successive_gaps rest
  | _ => []
  end.

(** The entries of [l] whose mark is set. *)
Fixpoint select {A : Type} (marks : list bool) (l : list A) : list A :=
  match marks, l with
  | m :: ms, x :: xs => if m then x :: select ms xs else select ms xs
  | _, _ => []
  end.

Section Pipeline.

(** The helpers of [depdf.page_tools], which this file imports. *)
Variable format_text : string -> string.
Variable remove_duplicate_chars : Page -> Q -> Page.
Variable analyze_char_size : list Glyph -> Q -> Q -> Q -> Q * Q.
Variable analyze_page_orientation : Page -> string.
(** Which of the phrases are page numbers.  The helper returns a sub-list
    of the dictionaries it is given, so the normalisation that follows is
    seen through [pagination_phrases] as well. *)
Variable analyze_page_num_word : list Phrase -> Q -> Q -> Q -> Q -> Q -> list bool.
Variable edges_to_lines : list Line -> list Line * list Line.
Variable remove_single_lines : list Line -> Q -> Q -> Q -> bool -> list Line.
Variable curve_to_lines : list Curve -> list Line * list Line.
Variable convert_plumber_table :
  Page -> RawTable -> Z -> nat -> Config -> Q -> Q -> option Table.
Variable merge_page_figures :
  Page -> list RawTable -> list BBox -> Z -> list Figure.
Variable calculate_paragraph_border : DePage -> BBox.
Variable paragraph_bbox : Paragraph -> BBox.
(** The scan of the page text for a table-of-contents marker and a leader
    line that does not end in a digit. *)
Variable toc_text_test : Page -> bool.

Definition check_if_toc_page (self : DePage) : DePage :=
  if toc_text_test (_page self) then set_toc_flag true self else self.

Definition analyze_page_attributes (self : DePage) : DePage :=
  let cfg := _config self in
  let cs := analyze_char_size (page_chars (_page self))
              (char_size_upper cfg) (char_size_lower cfg)
              (default_char_size cfg) in
  let self := set_min_cs (snd cs) (set_ave_cs (fst cs) self) in
  let self := set_orientation (analyze_page_orientation (_page self)) self in
  let y_tol := if ave_cs self / 3 <=? 3 then 3 else ave_cs self / 2 in
  let self := set_y_tolerance
                (match cfg_y_tolerance cfg with
                 | Some cyt => cyt
                 | None => y_tol
                 end) self in
  set_x_tolerance
    (match cfg_x_tolerance cfg with
     | Some cxt => cxt
     | None => ave_cs self * 3 / 2
     end) self.

Definition extract_phrases (self : DePage) : DePage :=
  let cfg := _config self in
  let phrases :=
    filter (fun i => (top i >=? frame_top self) && (bottom i <=? frame_bottom self))
      (page_extract_words (_page self) (x_tolerance self) (y_tolerance self)) in
  let line_heights := filter (fun x => x >? 0) (successive_gaps phrases) in
  let lh := match mean line_heights with
            | Ok m => m
            | Raise _ => ave_cs self / 2      (* [if line_heights else] *)
            end in
  let marks := analyze_page_num_word phrases (height self) (width self)
                 (page_num_top_fraction cfg) (page_num_left_fraction cfg)
                 (page_num_right_fraction cfg) in
  let normalized := map (normalize_phrase (_page self)) phrases in
  set_pagination_phrases (select marks normalized)
    (set_ave_lh lh (set_phrases (Some normalized) self)).

Definition analyze_lines (self : DePage) : DePage :=
  let cfg := _config self in
  let page := _page self in
  let rect_edges_raw :=
    try_pass
      (r <- page_within_bbox page (1, 1, width self - 1, height self - 1) ;;
       Ok (region_edges r))
      (page_edges page) in
  let '(h_lines, v_lines) := edges_to_lines rect_edges_raw in
  let v_dlt := vertical_double_line_tolerance cfg in
  let max_dlt := max_double_line_tolerance cfg in
  let min_dlt := min_double_line_tolerance cfg in
  let h_lines := remove_single_lines h_lines max_dlt min_dlt v_dlt false in
  let v_lines := remove_single_lines v_lines max_dlt min_dlt v_dlt true in
  let h_lines := if dotted_line_flag cfg
                 then h_lines ++ filter (fun i => Qeq_bool (l_height i) 0) (page_lines page)
                 else h_lines in
  let v_lines := if dotted_line_flag cfg
                 then v_lines ++ filter (fun i => Qeq_bool (l_width i) 0) (page_lines page)
                 else v_lines in
  let page_curves := if curved_line_flag cfg then page_curves page else [] in
  let '(h_curves, v_curves) := curve_to_lines page_curves in
  let h_lines := h_lines ++ h_curves in
  let v_lines := v_lines ++ v_curves in
  set_v_edges (map (fun i => mkVEdge (l_x0 i) (l_top i) (l_bottom i)) v_lines)
    (set_h_edges (map (fun i => mkHEdge (l_top i) (l_x0 i) (l_x1 i)) h_lines) self).

Definition bbox_top (b : BBox) : Q := let '(_, t, _, _) := b in t.

(** [enumerate(l)], counting from [n]. *)
Fixpoint enumerate_from {A : Type} (n : nat) (l : list A) : list (nat * A) :=
  match l with
  | [] => []
  | x :: xs => (n, x) :: enumerate_from (S n) xs
  end.

Fixpoint somes {A : Type} (l : list (option A)) : list A :=
  match l with
  | [] => []
  | Some x :: xs => x :: somes xs
  | None :: xs => somes xs
  end.

(** [extract_tables].  The debug drawing (lines 346-351) is not modelled and
    [convert_plumber_table] is taken to return: both sit outside the [try]
    and can raise in the source, so the model describes the runs in which
    they succeed. *)
Definition extract_tables (self : DePage) : DePage :=
  let table_params :=
    mkTableSettings (v_edges self) (h_edges self)
      (ave_cs self) (ave_cs self) (ave_cs self) in
  let tables_raw :=
    try_pass
      (ts <- page_find_tables (_page self) table_params ;;
       Ok (sorted_by (fun t => bbox_top (raw_bbox t)) ts))
      [] in
  let self := set_tables_raw tables_raw self in
  let table_clean :=
    map (fun '(tid, table) =>
           convert_plumber_table (_page self) table (_pid self) (tid + 1)
             (_config self) (min_cs self) (ave_cs self))
      (enumerate_from 0 tables_raw) in
  set_tables (somes table_clean) self.

(** The loop of [extract_images] building the [Image] objects.  The file
    name of line 374 and the rendering of the region to a file (lines
    377-378) are not modelled: each can raise in the source, so the model
    describes the runs in which they succeed. *)
Definition image_body (self : DePage) (images : list Image) (fi : nat * Figure)
  : result (list Image) :=
  let '(fid, i) := fi in
  let mis := min_image_size (_config self) in
  if (f_height i <=? mis) || (f_width i <=? mis) then Ok images
  else
    let bbox := (f_x0 i, f_top i, f_x1 i, f_bottom i) in
    _ <- page_within_bbox (_page self) bbox ;;
    r1 <- Num.div (f_width i * f_height i) (width self) ;;
    r2 <- Num.div r1 (height self) ;;
    let scan := r2 >=? float_0_7 in
    Ok (images ++ [mkImage bbox (_pid self) (fid + 1) scan]).

Definition extract_images (self : DePage) : result DePage :=
  let images_raw := merge_page_figures (_page self) (_tables_raw self)
                      (logo self) (_pid self) in
  let self := set_images_raw images_raw self in
  images <- for_each (image_body self) (enumerate_from 0 images_raw) [] ;;
  let self := set_images images self in
  let image_words :=
    fold_left
      (fun words image =>
         try_pass
           (area <- page_within_bbox (_page self) (f_bbox image) ;;
            Ok (words ++ region_words area (ave_cs self * 3 / 2)))
           words)
      images_raw [] in
  Ok (set_image_phrases image_words self).

Definition analyze_paragraph_border (self : DePage) : DePage :=
  set_border (calculate_paragraph_border self) self.

Definition object_bbox (o : PageObject) : BBox :=
  match o with
  | OTable t => table_bbox t
  | OParagraph p => paragraph_bbox p
  | OImage i => image_bbox i
  end.

(** Steps 1 to 7 of [process_page]: everything that runs before the
    paragraph stage. *)
Definition stages_before_paragraphs (self : DePage) : result DePage :=
  let self := set_page (remove_duplicate_chars (_page self)
                          (char_overlap_size (_config self))) self in
  let self := analyze_page_attributes self in
  self <- analyze_main_frame self ;;
  let self := extract_phrases self in
  let self := if table_flag (_config self)
              then extract_tables (analyze_lines self) else self in
  if image_flag (_config self) then extract_images self else Ok self.

(** [process_page]: the page after the stages, and its sorted objects. *)
Definition process_page (self : DePage) : result (DePage * list PageObject) :=
  self <- stages_before_paragraphs self ;;
  self <- (if paragraph_flag (_config self)
           then extract_paragraph format_text (analyze_paragraph_border self)
           else Ok self) ;;
  let object_list :=
    map OTable (_tables self) ++ map OParagraph (_paragraphs self) ++
    map OImage (_images self) in
  Ok (self, sorted_by (fun o => bbox_top (object_bbox o)) object_list).

End Pipeline.

(** ** Concrete pages *)

(** A page object with no content whose geometry calls all fail. *)
Definition blank_page (w h : Q) : Page :=
  mkPage w h [] (fun _ _ => []) (fun _ => Raise ValueError) [] [] []
    (fun _ => Raise ValueError) (fun _ => Raise ValueError).

Definition plain_config : Config :=
  mkConfig "" "" false false 0 12 30 3 None None None (1 # 10) (1 # 3) (1 # 3)
    true true true false false 1 1 1 80.

(** A page as the paragraph stage finds it: width and height, [ave_cs],
    [ave_lh], the border, the phrases, and the phrases claimed by images. *)
Definition seg_page (w h acs alh : Q) (b : BBox) (ps img : list Phrase)
    (toc : bool) : DePage :=
  mkDePage (blank_page w h) 1%Z plain_config [] [] [] None None
    "portrait"%string acs acs 3 3 [] (Some ps) 0 h alh b [] [] false false
    "temp"%string "doc"%string [] [] [] [] [] [] img toc.

(** [format_text] for the examples: the text as it is. *)
Definition keep_text (s : string) : string := s.

(** The two body lines of the paragraph-merge example. *)
Definition line_A (s : string) : Phrase := word 50 100 200 112 s.
Definition line_B (s : string) : Phrase := word 50 126 200 138 s.

(** A page whose only phrase has no text. *)
Definition page_empty_text : DePage :=
  seg_page 450 800 10 12 (50, 100, 400, 700) [word 50 100 200 112 ""] [] false.

(** A page that opens with a caption claimed by an image, left of the body
    text, followed by one body line that spans the border. *)
Definition caption : Phrase := word 10 40 40 52 "fig".
Definition body_line : Phrase := word 100 100 300 112 "twenty characters ok".
Definition page_with_caption : DePage :=
  seg_page 450 800 10 12 (100, 100, 300, 700) [caption; body_line] [caption]
    false.

(** A page whose body is a single glyph, with the border tight around it. *)
Definition single_glyph : Phrase := word 50 100 60 112 "A".
Definition page_single_glyph : DePage :=
  seg_page 450 800 10 12 (50, 100, 60, 700) [single_glyph] [] false.

(** The paragraph-merge example with ordinary text (fifteen characters to a
    line, glyph width 10), once with the border of the example and once with
    a border that ends where the lines end. *)
Definition fifteen : string := "abcdefghijklmno".
Definition page_two_lines : DePage :=
  seg_page 450 800 10 12 (50, 100, 400, 700) [line_A fifteen; line_B fifteen]
    [] false.
Definition page_two_lines_tight : DePage :=
  seg_page 450 800 10 12 (50, 100, 200, 700) [line_A fifteen; line_B fifteen]
    [] false.

(** Header and footer descriptors, and a page that carries them. *)
Definition head_zone (t b : Q) : Phrase :=
  mkPhrase 0 t 600 b "Title" (Some "portrait"%string) (Some "head"%string).
Definition tail_zone (t b : Q) : Phrase :=
  mkPhrase 0 t 600 b "Page 1" (Some "portrait"%string) (Some "tail"%string).
Definition frame_page (zones : list Phrase) : DePage :=
  mkDePage (blank_page 600 800) 1%Z plain_config zones
    (map without_mode zones) [] None None "portrait"%string 10 10 3 3 []
    None 0 600 3 (0, 600, 0, 800) [] [] false false "temp"%string
    "doc"%string [] [] [] [] [] [] [] false.

(** Stand-ins for the helpers of [page_tools] in the examples. *)
Definition char_size_12 (_ : list Glyph) (_ _ _ : Q) : Q * Q := (12, 12).
Definition always_portrait (_ : Page) : string := "portrait"%string.
Definition no_page_numbers (ps : list Phrase) (_ _ _ _ _ : Q) : list bool :=
  map (fun _ => false) ps.

(** A page with three glyphs inside the box of a word, and the word. *)
Definition three_glyphs : list Glyph :=
  [mkGlyph 101 111; mkGlyph 99 113; mkGlyph 100 112].
Definition glyph_page : Page :=
  mkPage 600 800 three_glyphs (fun _ _ => [])
    (fun b => let '(l, _, _, _) := b in
              if l <? 0 then Raise ValueError
              else if l <? 300 then Ok three_glyphs else Ok [])
    [] [] [] (fun _ => Raise ValueError) (fun _ => Raise ValueError).
Definition tall_word : Phrase := word 50 98 80 114 "Abg".

(** A page object whose word extraction returns the two lines of the merge
    example, and more stand-ins for the helpers of [page_tools]. *)
Definition text_page : Page :=
  mkPage 600 800 [] (fun _ _ => [line_A fifteen; line_B fifteen])
    (fun _ => Raise ValueError) [] [] []
    (fun _ => Raise ValueError) (fun _ => Raise ValueError).
Definition keep_chars (p : Page) (_ : Q) : Page := p.
Definition no_lines (_ : list Line) : list Line * list Line := ([], []).
Definition keep_lines (l : list Line) (_ _ _ : Q) (_ : bool) : list Line := l.
Definition no_curve_lines (_ : list Curve) : list Line * list Line := ([], []).
Definition no_table (_ : Page) (_ : RawTable) (_ : Z) (_ : nat) (_ : Config)
    (_ _ : Q) : option Table := None.
Definition no_figures (_ : Page) (_ : list RawTable) (_ : list BBox) (_ : Z)
  : list Figure := [].
Definition body_border (_ : DePage) : BBox := (50, 100, 200, 700).
Definition first_entry_bbox (p : Paragraph) : BBox :=
  match inner_objects p with
  | o :: _ => obj_bbox o
  | [] => (0, 0, 0, 0)
  end.
Definition toc_everywhere (_ : Page) : bool := true.

(** ** Notions used in the statements *)

(** The entries accumulated so far, closed paragraphs first. *)
Definition all_objects (st : Seg) : list InnerObject :=
  List.concat (map inner_objects (paragraphs st)) ++ paragraph_objects st.

(** What an entry shows of the phrase it was made from. *)
Definition entry_sig (o : InnerObject) : BBox * string :=
  (obj_bbox o, obj_text o).

(** [format_text(i['text']) if i['text'] else ''], and the entry a phrase
    gives rise to. *)
Definition clean_text (format_text : string -> string) (i : Phrase) : string :=
  if (String.length (text i) =? 0)%nat then ""%string else format_text (text i).

Definition phrase_sig (format_text : string -> string) (i : Phrase)
  : BBox * string :=
  (phrase_bbox i, clean_text format_text i).

(** The phrases of a page that no exclusion list claims, in page order. *)
Definition survivors (self : DePage) (ps : list Phrase) : list Phrase :=
  filter (fun i => negb (excluded self i)) ps.

Definition has_text (i : Phrase) : Prop := String.length (text i) <> 0%nat.

(** Order of two entries by their sort key. *)
Definition key_le {A : Type} (key : A -> Q) (a b : A) : Prop := key a <= key b.

(** The two errors that report an argument of the wrong kind. *)
Definition type_mismatch (e : exn) : Prop :=
  e = PageTypeError \/ e = ConfigTypeError.

(** The flags with which [seg_body] reaches the paragraph break test
    ([if new_para_flag and paragraph_objects]) for phrase [i]. *)
Definition flags_of (self : DePage) (st : Seg) (i : Phrase) : result Flags :=
  q <- glyph_width i ;;
  Ok (classify self st i (Num.max q (ave_cs self))
        (Num.max (bottom i - top i) (ave_cs self))).

(** The margin added below a header zone: the configured tolerance, or half
    of [ave_cs]. *)
Definition frame_margin (self : DePage) : Q :=
  match main_frame_tolerance (_config self) with
  | Some m => m
  | None => ave_cs self / 2
  end.

(** The glyph width [ave_ts] the loop uses for phrase [i]:
    [max((x1 - x0) / len(text), ave_cs)]. *)
Definition phrase_ave_ts (self : DePage) (i : Phrase) : Q :=
  Num.max ((x1 i - x0 i) / Num.of_nat (String.length (text i))) (ave_cs self).

(** ** Further notions: the shape of paragraphs *)

(** The first entry of a list of entries is a [Text]. *)
Definition head_is_text (l : list InnerObject) : bool :=
  match l with
  | Text _ _ :: _ => true
  | _ => false
  end.

(** A [font-size] key, when present, is at least [1 + 0.3] times [ave_cs]
    ([0.3] being the binary double). *)
Definition font_size_ok (self : DePage) (s : Style) : Prop :=
  forall f, font_size s = Some f -> (1 + Num.float_0_3) * ave_cs self <= f.

(** All entries but the first are [Span]s. *)
Definition spans_follow (l : list InnerObject) : Prop :=
  Forall (fun o => is_text o = false) (tl l).

(** A style without the keys [align] and [margin-left]. *)
Definition plain_alignment (s : Style) : Prop :=
  align s = None /\ margin_left s = None.

(** A page in table-of-contents mode: three leader lines, the page number
    of the second one extracted as a word of its own. *)
Definition toc_page : DePage :=
  seg_page 450 800 10 12 (50, 100, 400, 700)
    [word 50 100 400 112 "1 Introduction ............. 3";
     word 50 126 300 138 "2 Method ........."; word 380 126 400 138 "7";
     word 50 152 400 164 "3 Results .................. 12"]
    [] true.

(** A page all of whose phrases are claimed by an image, with [ave_cs] 0. *)
Definition page_all_claimed : DePage :=
  seg_page 450 800 0 12 (50, 100, 400, 700)
    [caption; word 10 60 40 72 ""] [caption; word 10 60 40 72 ""] false.

(** A page of three body lines, the second one indented and short. *)
Definition page_three_lines : DePage :=
  seg_page 450 800 10 12 (50, 100, 200, 700)
    [line_A fifteen; word 90 126 140 138 "abcde"; word 50 152 200 164 fifteen]
    [] false.


(** ** The properties [paragraphs] and [tables]

    Both filter the object list of the page by class. *)
Fixpoint paragraphs_of (objs : list PageObject) : list Paragraph :=
  match objs with
  | [] => []
  | OParagraph p :: rest => p :: paragraphs_of rest
  | _ :: rest => paragraphs_of rest
  end.

Fixpoint tables_of (objs : list PageObject) : list Table :=
  match objs with
  | [] => []
  | OTable t :: rest => t :: tables_of rest
  | _ :: rest => tables_of rest
  end.

(** A figure large enough to become an [Image]. *)
Definition large_figure (self : DePage) (f : Figure) : bool :=
  negb ((f_height f <=? min_image_size (_config self)) ||
        (f_width f <=? min_image_size (_config self))).

(** The words [extract_images] collects for one figure. *)
Definition figure_words (self : DePage) (f : Figure) : list Phrase :=
  match page_within_bbox (_page self) (f_bbox f) with
  | Ok area => region_words area (ave_cs self * 3 / 2)
  | Raise _ => []
  end.

(** A page object with one table-sized region that answers geometry
    queries, two raw tables out of order, and figures of two sizes. *)
Definition caption_region : Region :=
  mkRegion [] (fun _ => [caption]).
Definition figure_layer_page : Page :=
  mkPage 600 800 [] (fun _ _ => [caption; body_line])
    (fun _ => Raise ValueError) [] [] []
    (fun b => let '(l, _, _, _) := b in
              if l <? 300 then Ok caption_region else Raise ValueError)
    (fun _ => Ok [mkRawTable (50, 400, 300, 500) [];
                  mkRawTable (50, 200, 300, 300) []]).
Definition big_figure : Figure :=
  mkFigure 0 0 600 700 600 700 (0, 0, 600, 700).
Definition small_figure : Figure :=
  mkFigure 10 30 50 60 40 30 (10, 30, 50, 60).
Definition two_figures (_ : Page) (_ : list RawTable) (_ : list BBox) (_ : Z)
  : list Figure := [small_figure; big_figure].
Definition numbered_table (_ : Page) (t : RawTable) (_ : Z) (tid : nat)
    (_ : Config) (_ _ : Q) : option Table :=
  Some (mkTable (raw_bbox t) tid).

(** The [Image] built from figure number [fid] (counted from 0), with the
    quotient of the areas taken as a plain division. *)
Definition figure_image (self : DePage) (nf : nat * Figure) : Image :=
  let '(fid, f) := nf in
  mkImage (f_x0 f, f_top f, f_x1 f, f_bottom f) (_pid self) (fid + 1)
    (f_width f * f_height f / width self / height self >=? float_0_7).

(** The settings [extract_tables] hands to [find_tables]. *)
Definition table_settings (self : DePage) : TableSettings :=
  mkTableSettings (v_edges self) (h_edges self)
    (ave_cs self) (ave_cs self) (ave_cs self).

(** The number of data that are not above [x]. *)
Definition count_le (x : Q) (l : list Q) : nat :=
  List.length (filter (fun y => y <=? x) l).

(** The median in the words of its definition: with the data put in
    ascending order, the middle value when their number is odd and the mean
    of the two middle values when it is even. *)
Definition is_median (l : list Q) (m : Q) : Prop :=
  l <> [] /\
  exists s,
    Permutation l s /\ StronglySorted Qle s /\
    (Nat.Odd (List.length s) -> m = nth (List.length s / 2) s 0) /\
    (Nat.Even (List.length s) ->
     m = (nth (List.length s / 2 - 1) s 0 + nth (List.length s / 2) s 0) / 2).

(** ** Properties *)

(** *** Comparisons *)

(** Linear arithmetic over [Q], after turning a division by a constant into
    a product. *)
Ltac qlra := unfold Qdiv in *; cbn [Qinv Qnum Qden] in *; lra.

Lemma leb_true (a b : Q) : (a <=? b) = true <-> a <= b.
Proof. unfold Num.leb. apply Qle_bool_iff. Qed.

Lemma leb_false (a b : Q) : (a <=? b) = false <-> b < a.
Proof.
  unfold Num.leb. split; intro H.
  - apply Qnot_le_lt. intro C. apply Qle_bool_iff in C. congruence.
  - destruct (Qle_bool a b) eqn:E; [|reflexivity].
    apply Qle_bool_iff in E. exfalso. apply (Qlt_not_le _ _ H E).
Qed.

Lemma geb_true (a b : Q) : (a >=? b) = true <-> b <= a.
Proof. unfold Num.geb. apply Qle_bool_iff. Qed.

Lemma geb_false (a b : Q) : (a >=? b) = false <-> a < b.
Proof. unfold Num.geb. apply (leb_false b a). Qed.

Lemma gtb_true (a b : Q) : (a >? b) = true <-> b < a.
Proof.
  unfold Num.gtb. rewrite negb_true_iff. apply (leb_false a b).
Qed.

Lemma ltb_true (a b : Q) : (a <? b) = true <-> a < b.
Proof.
  unfold Num.ltb. rewrite negb_true_iff. apply (leb_false b a).
Qed.

Lemma ltb_false (a b : Q) : (a <? b) = false <-> b <= a.
Proof.
  unfold Num.ltb. rewrite negb_false_iff. apply Qle_bool_iff.
Qed.

Lemma max_ge_l (a b : Q) : a <= Num.max a b.
Proof.
  unfold Num.max. destruct (a <? b) eqn:E.
  - apply ltb_true in E. apply Qlt_le_weak, E.
  - apply Qle_refl.
Qed.

Lemma max_ge_r (a b : Q) : b <= Num.max a b.
Proof.
  unfold Num.max. destruct (a <? b) eqn:E.
  - apply Qle_refl.
  - apply ltb_false in E. exact E.
Qed.

Lemma max_cases (a b : Q) : Num.max a b = a \/ Num.max a b = b.
Proof. unfold Num.max. destruct (a <? b); auto. Qed.

Lemma div_ok (a b : Q) : ~ b == 0 -> Num.div a b = Ok (a / b).
Proof.
  intro H. unfold Num.div. destruct (Qeq_bool b 0) eqn:E; [|reflexivity].
  apply Qeq_bool_iff in E. contradiction.
Qed.

Lemma div_by_zero (a b : Q) : b == 0 -> Num.div a b = Raise ZeroDivisionError.
Proof.
  intro H. unfold Num.div. apply Qeq_bool_iff in H. now rewrite H.
Qed.

Lemma div_raises (a b : Q) (e : exn) :
  Num.div a b = Raise e -> e = ZeroDivisionError.
Proof.
  unfold Num.div. destruct (Qeq_bool b 0); congruence.
Qed.

(** *** The segmentation loop *)

Lemma of_nat_nonzero (n : nat) : n <> 0%nat -> ~ Num.of_nat n == 0.
Proof.
  intros Hn H. unfold Num.of_nat, Qeq in H. simpl in H. lia.
Qed.

Lemma glyph_width_ok (i : Phrase) :
  has_text i ->
  glyph_width i = Ok ((x1 i - x0 i) / Num.of_nat (String.length (text i))).
Proof.
  intro H. unfold glyph_width. apply div_ok, of_nat_nonzero, H.
Qed.

Lemma glyph_width_empty (i : Phrase) :
  String.length (text i) = 0%nat -> glyph_width i = Raise ZeroDivisionError.
Proof.
  intro H. unfold glyph_width. rewrite H. reflexivity.
Qed.

Lemma glyph_width_has_text (i : Phrase) (q : Q) :
  glyph_width i = Ok q -> has_text i.
Proof.
  intros H E. rewrite (glyph_width_empty i E) in H. discriminate.
Qed.

Lemma infer_style_raises (self : DePage) (ts : Q) (c d : bool) (l : Q) (e : exn) :
  infer_style self ts c d l = Raise e -> e = ZeroDivisionError.
Proof.
  unfold infer_style. destruct (border self) as [[[ll t'] lr] tb].
  destruct (Num.div (Qabs (ts - ave_cs self)) (ave_cs self)) eqn:E; simpl.
  - discriminate.
  - intro H. inversion H; subst. eapply div_raises; eauto.
Qed.

Lemma infer_style_total (self : DePage) (ts : Q) (c d : bool) (l : Q) :
  ~ ave_cs self == 0 -> exists sty, infer_style self ts c d l = Ok sty.
Proof.
  intro H. unfold infer_style. destruct (border self) as [[[ll t'] lr] tb].
  rewrite (div_ok _ _ H). simpl. eauto.
Qed.

Lemma last_cons {A : Type} (l : list A) : forall (a d : A),
  last (a :: l) d = last l a.
Proof.
  induction l as [|b l IH]; intros a d; [reflexivity|].
  change (last (a :: b :: l) d) with (last (b :: l) d).
  rewrite (IH b d), (IH b a). reflexivity.
Qed.

Section SegmenterFacts.

Variable format_text : string -> string.
Variable self : DePage.

Let body := seg_body format_text self.

Lemma seg_body_skip (st : Seg) (i : Phrase) :
  excluded self i = true -> body st i = Ok st.
Proof. intro H. unfold body, seg_body. now rewrite H. Qed.

(** An iteration that is not skipped appends exactly one entry, made from
    the phrase, and makes the phrase the previous line. *)
Lemma seg_body_appends (st st' : Seg) (i : Phrase) :
  excluded self i = false ->
  body st i = Ok st' ->
  exists obj,
    all_objects st' = all_objects st ++ [obj] /\
    entry_sig obj = phrase_sig format_text i /\
    paragraph_objects st' <> [] /\
    p_right st' = x1 i /\
    has_text i.
Proof.
  intros Hex H. unfold body, seg_body in H. rewrite Hex in H.
  destruct (glyph_width i) as [q|e] eqn:Hq; simpl in H; [|discriminate].
  pose proof (glyph_width_has_text i q Hq) as Ht.
  set (fl := classify self st i (Num.max q (ave_cs self))
               (Num.max (bottom i - top i) (ave_cs self))) in H.
  set (st1 := flush self fl st) in H.
  assert (Hall : all_objects st1 = all_objects st).
  { unfold st1, flush, all_objects.
    destruct (new_para_flag fl && negb (is_nil (paragraph_objects st)));
      simpl; [|reflexivity].
    rewrite map_app, concat_app. simpl. now rewrite !app_nil_r. }
  destruct (if style_is_empty (para_style st1)
            then infer_style self (Num.max q (ave_cs self)) (fl_center fl)
                   (fl_div fl) (x0 i)
            else Ok (para_style st1)) as [sty|e] eqn:Hs;
    simpl in H; [|discriminate].
  inversion H; subst st'; clear H.
  eexists. unfold all_objects in *. simpl. repeat split.
  - rewrite app_assoc, Hall. reflexivity.
  - unfold entry_sig, phrase_sig, clean_text.
    destruct (new_line_flag fl); reflexivity.
  - intro C. apply app_eq_nil in C. destruct C; discriminate.
  - exact Ht.
Qed.

Lemma seg_body_raises (st : Seg) (i : Phrase) (e : exn) :
  body st i = Raise e -> e = ZeroDivisionError.
Proof.
  unfold body, seg_body. destruct (excluded self i); [discriminate|].
  destruct (glyph_width i) as [q|e'] eqn:Hq; simpl.
  - match goal with
    | |- context [if ?c then ?a else ?b] =>
        destruct (if c then a else b) as [sty|e''] eqn:Hs
    end; simpl; [discriminate|].
    intro H; inversion H; subst.
    destruct (style_is_empty _); [|discriminate].
    eapply infer_style_raises; eauto.
  - intro H; inversion H; subst. eapply div_raises; eauto.
Qed.

Lemma seg_body_total (st : Seg) (i : Phrase) :
  has_text i -> ~ ave_cs self == 0 -> exists st', body st i = Ok st'.
Proof.
  intros Ht Hcs. unfold body, seg_body.
  destruct (excluded self i); [eauto|].
  rewrite (glyph_width_ok i Ht). simpl.
  match goal with
  | |- context [if style_is_empty ?s then ?a else ?b] =>
      destruct (style_is_empty s)
  end; simpl; [|eauto].
  match goal with
  | |- context [infer_style ?a ?b ?c ?d ?e] =>
      destruct (infer_style_total a b c d e Hcs) as [sty ->]
  end.
  simpl; eauto.
Qed.

(** The loop as a whole. *)
Lemma loop_objects (ps : list Phrase) : forall st st',
  for_each body ps st = Ok st' ->
  map entry_sig (all_objects st') =
  map entry_sig (all_objects st) ++
  map (phrase_sig format_text) (survivors self ps).
Proof.
  induction ps as [|i ps IH]; intros st st' H; simpl in H.
  - inversion H; subst. simpl. now rewrite app_nil_r.
  - destruct (body st i) as [st1|e] eqn:Hb; [|discriminate].
    simpl. destruct (excluded self i) eqn:Hex; simpl.
    + rewrite (seg_body_skip st i Hex) in Hb. inversion Hb; subst.
      apply IH, H.
    + destruct (seg_body_appends st st1 i Hex Hb) as (obj & Hall & Hsig & _).
      rewrite (IH _ _ H), Hall, map_app. simpl.
      rewrite Hsig, <- app_assoc. reflexivity.
Qed.

Lemma loop_last (ps : list Phrase) : forall st st',
  for_each body ps st = Ok st' ->
  match survivors self ps with
  | [] => st' = st
  | j :: js => paragraph_objects st' <> [] /\ p_right st' = x1 (last js j)
  end.
Proof.
  induction ps as [|i ps IH]; intros st st' H; simpl in H.
  - inversion H; reflexivity.
  - destruct (body st i) as [st1|e] eqn:Hb; [|discriminate].
    simpl. destruct (excluded self i) eqn:Hex; simpl.
    + rewrite (seg_body_skip st i Hex) in Hb. inversion Hb; subst.
      apply IH, H.
    + destruct (seg_body_appends st st1 i Hex Hb) as (obj & _ & _ & Hne & Hr & _).
      specialize (IH _ _ H).
      destruct (survivors self ps) as [|j js].
      * subst st'. auto.
      * destruct IH as [IH1 IH2]. split; [exact IH1|].
        rewrite IH2, last_cons. reflexivity.
Qed.

Lemma loop_has_text (ps : list Phrase) : forall st st',
  for_each body ps st = Ok st' ->
  Forall has_text (survivors self ps).
Proof.
  induction ps as [|i ps IH]; intros st st' H; simpl in H.
  - constructor.
  - destruct (body st i) as [st1|e] eqn:Hb; [|discriminate].
    simpl. destruct (excluded self i) eqn:Hex; simpl.
    + eapply IH; eauto.
    + constructor; [|eapply IH; eauto].
      now destruct (seg_body_appends st st1 i Hex Hb) as (obj & _ & _ & _ & _ & Ht).
Qed.

Lemma loop_raises (ps : list Phrase) : forall st e,
  for_each body ps st = Raise e -> e = ZeroDivisionError.
Proof.
  induction ps as [|i ps IH]; intros st e H; simpl in H; [discriminate|].
  destruct (body st i) as [st1|e1] eqn:Hb.
  - eapply IH; eauto.
  - inversion H; subst. eapply seg_body_raises; eauto.
Qed.

Lemma loop_stops_at_empty_text (ps : list Phrase) (i : Phrase) : forall st,
  In i ps -> excluded self i = false -> String.length (text i) = 0%nat ->
  for_each body ps st = Raise ZeroDivisionError.
Proof.
  induction ps as [|j ps IH]; intros st Hin Hex Hlen; [inversion Hin|].
  simpl. destruct (body st j) as [st1|e] eqn:Hb.
  - destruct Hin as [->|Hin].
    + destruct (seg_body_appends st st1 i Hex Hb) as (_ & _ & _ & _ & _ & Ht).
      contradiction.
    + apply IH; assumption.
  - f_equal. eapply seg_body_raises; eauto.
Qed.

Lemma seg_body_keeps_nonempty (st st' : Seg) (i : Phrase) :
  body st i = Ok st' ->
  Forall (fun p => inner_objects p <> []) (paragraphs st) ->
  Forall (fun p => inner_objects p <> []) (paragraphs st').
Proof.
  intros H Hinv. unfold body, seg_body in H.
  destruct (excluded self i); [inversion H; subst; exact Hinv|].
  destruct (glyph_width i) as [q|e]; simpl in H; [|discriminate].
  set (fl := classify self st i (Num.max q (ave_cs self))
               (Num.max (bottom i - top i) (ave_cs self))) in H.
  assert (Hfl : Forall (fun p => inner_objects p <> [])
                  (paragraphs (flush self fl st))).
  { unfold flush.
    destruct (new_para_flag fl) ; simpl; [|exact Hinv].
    destruct (paragraph_objects st) as [|o os] eqn:Ho; simpl; [exact Hinv|].
    apply Forall_app. split; [exact Hinv|].
    constructor; [simpl; discriminate|constructor]. }
  match type of H with
  | context [if ?c then ?a else ?b] =>
      destruct (if c then a else b) as [sty|e]
  end; simpl in H; [|discriminate].
  inversion H; subst. exact Hfl.
Qed.

Lemma loop_keeps_nonempty (ps : list Phrase) : forall st st',
  for_each body ps st = Ok st' ->
  Forall (fun p => inner_objects p <> []) (paragraphs st) ->
  Forall (fun p => inner_objects p <> []) (paragraphs st').
Proof.
  induction ps as [|i ps IH]; intros st st' H Hinv; simpl in H.
  - inversion H; subst; exact Hinv.
  - destruct (body st i) as [st1|e] eqn:Hb; [|discriminate].
    eapply IH; eauto. eapply seg_body_keeps_nonempty; eauto.
Qed.

Lemma loop_total (ps : list Phrase) : forall st,
  Forall has_text (survivors self ps) -> ~ ave_cs self == 0 ->
  exists st', for_each body ps st = Ok st'.
Proof.
  induction ps as [|i ps IH]; intros st Hall Hcs; simpl; [eauto|].
  simpl in Hall. destruct (excluded self i) eqn:Hex; simpl in Hall.
  - rewrite (seg_body_skip st i Hex). apply IH; assumption.
  - inversion Hall; subst.
    destruct (seg_body_total st i H1 Hcs) as [st1 ->].
    apply IH; assumption.
Qed.

(** Closing the last paragraph keeps the entries and their order. *)
Lemma seg_finish_objects (st : Seg) (paras : list Paragraph) :
  seg_finish self st = Ok paras ->
  List.concat (map inner_objects paras) = all_objects st.
Proof.
  unfold seg_finish, all_objects.
  destruct (paragraph_objects st) as [|o os]; simpl.
  - intro H; inversion H; subst. now rewrite app_nil_r.
  - destruct (infer_style self (ave_ts st) (center_flag st) (div_flag st)
                (cur_left st)) as [sty|e]; simpl; [|discriminate].
    intro H; inversion H; subst.
    rewrite map_app, concat_app. simpl. now rewrite app_nil_r.
Qed.

Lemma seg_finish_nonempty (st : Seg) (paras : list Paragraph) :
  seg_finish self st = Ok paras ->
  paragraph_objects st <> [] -> paras <> [].
Proof.
  unfold seg_finish.
  destruct (paragraph_objects st) as [|o os]; simpl; [congruence|].
  destruct (infer_style _ _ _ _ _); simpl; [|discriminate].
  intros H _. inversion H. intro C.
  apply app_eq_nil in C. destruct C; discriminate.
Qed.

Lemma seg_finish_keeps_nonempty (st : Seg) (paras : list Paragraph) :
  seg_finish self st = Ok paras ->
  Forall (fun p => inner_objects p <> []) (paragraphs st) ->
  Forall (fun p => inner_objects p <> []) paras.
Proof.
  unfold seg_finish.
  destruct (paragraph_objects st) as [|o os] eqn:Ho; simpl.
  - intro H; inversion H; subst; auto.
  - destruct (infer_style _ _ _ _ _); simpl; [|discriminate].
    intros H Hinv. inversion H; subst.
    apply Forall_app. split; [exact Hinv|].
    constructor; [simpl; discriminate|constructor].
Qed.

Lemma seg_finish_total (st : Seg) :
  ~ ave_cs self == 0 -> exists paras, seg_finish self st = Ok paras.
Proof.
  intro Hcs. unfold seg_finish.
  destruct (negb (is_nil (paragraph_objects st))); [|eauto].
  destruct (infer_style_total self (ave_ts st) (center_flag st)
              (div_flag st) (cur_left st) Hcs) as [sty ->].
  simpl; eauto.
Qed.

Lemma seg_finish_raises (st : Seg) (e : exn) :
  seg_finish self st = Raise e -> e = ZeroDivisionError.
Proof.
  unfold seg_finish.
  destruct (negb (is_nil (paragraph_objects st))); [|discriminate].
  destruct (infer_style _ _ _ _ _) eqn:E; simpl; [discriminate|].
  intro H; inversion H; subst. eapply infer_style_raises; eauto.
Qed.

Lemma seg_init_empty :
  paragraphs (seg_init self) = [] /\ paragraph_objects (seg_init self) = [].
Proof.
  unfold seg_init. destruct (border self) as [[[ll t'] lr] tb]. auto.
Qed.

(** What [extract_paragraph] returns, taken apart. *)
Lemma extract_paragraph_ok (ps : list Phrase) (self' : DePage) :
  phrases self = Some ps ->
  extract_paragraph format_text self = Ok self' ->
  exists st fls,
    for_each body ps (seg_init self) = Ok st /\
    seg_finish self st = Ok (_paragraphs self') /\
    continuation_flags self ps (_paragraphs self') st = Ok fls /\
    new_para_start_flag self' = fst fls /\
    new_para_end_flag self' = snd fls.
Proof.
  intros Hps H. unfold extract_paragraph in H. rewrite Hps in H.
  fold body in H.
  destruct (for_each body ps (seg_init self)) as [st|e] eqn:Hl; simpl in H;
    [|discriminate].
  destruct (seg_finish self st) as [paras|e] eqn:Hp; simpl in H;
    [|discriminate].
  destruct (continuation_flags self ps paras st) as [fls|e] eqn:Hf;
    simpl in H; [|discriminate].
  inversion H; subst; simpl. exists st, fls. repeat split; auto.
Qed.

End SegmenterFacts.

(** *** Paragraph segmentation: the claims *)

(** C1 (evaluation of the code where the claim fails).  A phrase with an
    empty text that reaches the segmentation, that is, one that no exclusion
    list claims, makes [extract_paragraph] raise [ZeroDivisionError]: the
    glyph width divides by [len(text)] before the guard on the empty text is
    reached. *)
Theorem empty_text_raises (format_text : string -> string) (self : DePage)
    (ps : list Phrase) (i : Phrase) :
  phrases self = Some ps ->
  In i ps ->
  excluded self i = false ->
  String.length (text i) = 0%nat ->
  extract_paragraph format_text self = Raise ZeroDivisionError.
Proof.
  intros Hps Hin Hex Hlen. unfold extract_paragraph. rewrite Hps.
  rewrite (loop_stops_at_empty_text format_text self ps i (seg_init self)
             Hin Hex Hlen).
  reflexivity.
Qed.

Lemma empty_text_raises_witness :
  extract_paragraph keep_text page_empty_text = Raise ZeroDivisionError.
Proof.
  apply (empty_text_raises keep_text page_empty_text
           [word 50 100 200 112 ""] (word 50 100 200 112 "")).
  - reflexivity.
  - simpl. left. reflexivity.
  - vm_compute. reflexivity.
  - reflexivity.
Defined.

(** C7.  Whenever [extract_paragraph] returns, the entries of its
    paragraphs, read in order, are exactly the entries of the phrases that
    no exclusion list claims, one entry per such phrase; and none of those
    phrases is equal to a header/footer, image, table or pagination phrase.
    A phrase that one of the lists claims therefore contributes nothing. *)
Theorem excluded_phrases_contribute_nothing (format_text : string -> string)
    (self self' : DePage) (ps : list Phrase) :
  phrases self = Some ps ->
  extract_paragraph format_text self = Ok self' ->
  map entry_sig (List.concat (map inner_objects (_paragraphs self'))) =
    map (phrase_sig format_text) (survivors self ps) /\
  Forall (fun i => py_in i (same_tmp self) = false /\
                   py_in i (_image_phrases self) = false /\
                   py_in i (_table_phrases self) = false /\
                   py_in i (pagination_phrases self) = false)
    (survivors self ps) /\
  (forall i, In i ps -> excluded self i = true -> ~ In i (survivors self ps)).
Proof.
  intros Hps H.
  destruct (extract_paragraph_ok format_text self ps self' Hps H)
    as (st & fls & Hl & Hf & _).
  split; [|split].
  - rewrite (seg_finish_objects self st _ Hf).
    rewrite (loop_objects format_text self ps (seg_init self) st Hl).
    unfold all_objects. destruct (seg_init_empty self) as [-> ->].
    reflexivity.
  - apply Forall_forall. intros i Hi. unfold survivors in Hi.
    apply filter_In in Hi. destruct Hi as [_ Hi].
    apply negb_true_iff in Hi. unfold excluded in Hi.
    repeat (apply orb_false_iff in Hi; destruct Hi as [Hi ?]). auto.
  - intros i _ Hex Hi. unfold survivors in Hi. apply filter_In in Hi.
    destruct Hi as [_ Hi]. rewrite Hex in Hi. discriminate.
Qed.

Lemma excluded_phrases_contribute_nothing_witness :
  exists self',
    extract_paragraph keep_text page_with_caption = Ok self' /\
    map entry_sig (List.concat (map inner_objects (_paragraphs self'))) =
      [phrase_sig keep_text body_line].
Proof.
  eexists. split; [vm_compute; reflexivity|].
  apply (excluded_phrases_contribute_nothing keep_text page_with_caption _
           [caption; body_line]); reflexivity.
Defined.

Lemma continuation_flags_total (self : DePage) (ps : list Phrase)
    (paras : list Paragraph) (st : Seg) :
  (forall first rest, ps = first :: rest -> has_text first) ->
  exists fls, continuation_flags self ps paras st = Ok fls /\
              (paras <> [] -> exists sf ef, fls = (Some sf, Some ef)).
Proof.
  intro Hfirst. unfold continuation_flags.
  destruct (border self) as [[[ll t'] lr] tb].
  destruct paras as [|para paras]; simpl.
  - eexists; split; [reflexivity|]. intro C; contradiction.
  - destruct ps as [|first rest].
    + eexists; split; [reflexivity|]. intros _; eauto.
    + rewrite (glyph_width_ok first (Hfirst first rest eq_refl)). simpl.
      eexists; split; [reflexivity|]. intros _; eauto.
Qed.

(** C3 (as amended).  When [extract_paragraph] returns: without paragraphs
    both flags stay [None]; with at least one paragraph both flags are
    booleans, the start flag is false exactly when the first phrase of the
    page (claimed or not) starts at most one glyph width right of the border's
    left edge, a signed comparison that every phrase left of the border
    passes, and the end flag is false exactly when the right edge of the last
    processed line is within 1.5 glyph widths of the border's right edge.  The
    glyph width is that of the first phrase, [max(ave_ts, ave_cs)], in both
    tests. *)
Theorem continuation_flags_spec (format_text : string -> string)
    (self self' : DePage) (ps : list Phrase) (ll tt' lr tb : Q) :
  phrases self = Some ps ->
  border self = (ll, tt', lr, tb) ->
  extract_paragraph format_text self = Ok self' ->
  (_paragraphs self' = [] ->
     new_para_start_flag self' = None /\ new_para_end_flag self' = None) /\
  (_paragraphs self' <> [] ->
     exists first rest g j js sf ef,
       ps = first :: rest /\
       glyph_width first = Ok g /\
       survivors self ps = j :: js /\
       new_para_start_flag self' = Some sf /\
       new_para_end_flag self' = Some ef /\
       (sf = false <-> x0 first - ll <= Num.max g (ave_cs self)) /\
       (ef = false <->
        Qabs (x1 (last js j) - lr) <= Num.max g (ave_cs self) * 3 / 2)).
Proof.
  intros Hps Hb H.
  destruct (extract_paragraph_ok format_text self ps self' Hps H)
    as (st & fls & Hl & Hf & Hc & Hs & He).
  unfold continuation_flags in Hc. rewrite Hb in Hc.
  split.
  - intro Hnil. rewrite Hnil in Hc. simpl in Hc. inversion Hc; subst fls.
    rewrite Hs, He. auto.
  - intro Hne.
    destruct (_paragraphs self') as [|para paras] eqn:Hparas; [congruence|].
    cbn [is_nil negb] in Hc.
    pose proof (loop_last format_text self ps (seg_init self) st Hl) as Hlast.
    destruct (survivors self ps) as [|j js] eqn:Hsurv.
    + exfalso. subst st. unfold seg_finish in Hf.
      destruct (seg_init_empty self) as [E1 E2]. rewrite E1, E2 in Hf.
      simpl in Hf. discriminate.
    + destruct Hlast as [_ Hright].
      destruct ps as [|first rest]; [discriminate|].
      destruct (glyph_width first) as [g|e] eqn:Hg; cbn [bind] in Hc;
        [|discriminate].
      assert (Hfls :
        fls = (Some (if x0 first - ll <=? Num.max g (ave_cs self)
                     then false else true),
               Some (if Qabs (p_right st - lr) <=? Num.max g (ave_cs self) * 3 / 2
                     then false else true))) by congruence.
      clear Hc. rewrite Hfls in Hs, He. cbn [fst snd] in Hs, He.
      rewrite Hright in He.
      exists first, rest, g, j, js.
      exists (if x0 first - ll <=? Num.max g (ave_cs self) then false else true).
      exists (if Qabs (x1 (last js j) - lr) <=? Num.max g (ave_cs self) * 3 / 2
              then false else true).
      split; [reflexivity|]. split; [exact Hg|]. split; [reflexivity|].
      split; [exact Hs|]. split; [exact He|]. split.
      * destruct (x0 first - ll <=? Num.max g (ave_cs self)) eqn:E.
        -- apply leb_true in E. split; auto.
        -- apply leb_false in E. split; [discriminate|].
           intro C. exfalso. apply (Qlt_not_le _ _ E C).
      * destruct (Qabs (x1 (last js j) - lr) <=? Num.max g (ave_cs self) * 3 / 2)
          eqn:E.
        -- apply leb_true in E. split; auto.
        -- apply leb_false in E. split; [discriminate|].
           intro C. exfalso. apply (Qlt_not_le _ _ E C).
Qed.

Lemma continuation_flags_spec_witness :
  exists self',
    extract_paragraph keep_text page_with_caption = Ok self' /\
    exists first rest g j js sf ef,
      [caption; body_line] = first :: rest /\
      glyph_width first = Ok g /\
      survivors page_with_caption [caption; body_line] = j :: js /\
      new_para_start_flag self' = Some sf /\
      new_para_end_flag self' = Some ef /\
      (sf = false <-> x0 first - 100 <= Num.max g (ave_cs page_with_caption)) /\
      (ef = false <->
       Qabs (x1 (last js j) - 300) <=
       Num.max g (ave_cs page_with_caption) * 3 / 2).
Proof.
  eexists. split; [vm_compute; reflexivity|].
  apply (continuation_flags_spec keep_text page_with_caption _
           [caption; body_line] 100 100 300 700).
  - reflexivity.
  - reflexivity.
  - vm_compute. reflexivity.
  - vm_compute. discriminate.
Defined.

(** C3, the claim as stated fails: the page opens with a caption 90 units
    left of the border, much farther than one glyph width (10), and the start
    flag is false all the same. *)
Lemma start_flag_counterexample :
  exists self' g,
    extract_paragraph keep_text page_with_caption = Ok self' /\
    _paragraphs self' <> [] /\
    glyph_width caption = Ok g /\
    new_para_start_flag self' = Some false /\
    ~ Qabs (x0 caption - 100) <= Num.max g (ave_cs page_with_caption).
Proof.
  eexists. eexists.
  split; [vm_compute; reflexivity|].
  split; [vm_compute; discriminate|].
  split; [vm_compute; reflexivity|].
  split; [vm_compute; reflexivity|].
  vm_compute. intro C. apply C. reflexivity.
Qed.

(** C10 (as amended).  If at least one phrase survives the exclusion lists,
    the surviving phrases and the first phrase of the page have a text, and
    [ave_cs] is not zero, then [extract_paragraph] returns, with at least one
    paragraph, whose first entry is made from the first surviving phrase, and
    with both continuation flags set to a boolean. *)
Theorem surviving_phrase_gives_paragraph (format_text : string -> string)
    (self : DePage) (ps : list Phrase) (j : Phrase) (js : list Phrase) :
  phrases self = Some ps ->
  survivors self ps = j :: js ->
  Forall has_text (j :: js) ->
  (forall first rest, ps = first :: rest -> has_text first) ->
  ~ ave_cs self == 0 ->
  exists self' para paras o os sf ef,
    extract_paragraph format_text self = Ok self' /\
    _paragraphs self' = para :: paras /\
    inner_objects para = o :: os /\
    entry_sig o = phrase_sig format_text j /\
    new_para_start_flag self' = Some sf /\
    new_para_end_flag self' = Some ef.
Proof.
  intros Hps Hsurv Htext Hfirst Hcs.
  assert (Htext' : Forall has_text (survivors self ps)) by now rewrite Hsurv.
  destruct (loop_total format_text self ps (seg_init self) Htext' Hcs)
    as [st Hl].
  destruct (seg_finish_total self st Hcs) as [paras Hf].
  destruct (continuation_flags_total self ps paras st Hfirst)
    as (fls & Hc & Hbool).
  pose proof (loop_last format_text self ps (seg_init self) st Hl) as Hlast.
  rewrite Hsurv in Hlast. destruct Hlast as [Hne _].
  pose proof (seg_finish_nonempty self st paras Hf Hne) as Hparas.
  destruct (Hbool Hparas) as (sf & ef & ->).
  assert (Hinv : Forall (fun p => inner_objects p <> []) paras).
  { apply (seg_finish_keeps_nonempty self st paras Hf).
    apply (loop_keeps_nonempty format_text self ps (seg_init self) st Hl).
    destruct (seg_init_empty self) as [-> _]. constructor. }
  assert (Hobjs : map entry_sig (List.concat (map inner_objects paras)) =
                  map (phrase_sig format_text) (j :: js)).
  { rewrite (seg_finish_objects self st paras Hf).
    rewrite (loop_objects format_text self ps (seg_init self) st Hl).
    unfold all_objects. destruct (seg_init_empty self) as [-> ->].
    rewrite Hsurv. reflexivity. }
  destruct paras as [|para paras']; [congruence|].
  inversion Hinv as [|? ? Hpara _]; subst.
  destruct (inner_objects para) as [|o os] eqn:Ho; [congruence|].
  cbn [map List.concat] in Hobjs. rewrite Ho in Hobjs.
  cbn [map app] in Hobjs.
  assert (Hsig : entry_sig o = phrase_sig format_text j) by congruence.
  exists (set_new_para_end_flag (Some ef)
            (set_new_para_start_flag (Some sf)
               (set_paragraphs (para :: paras') self))).
  exists para, paras', o, os, sf, ef.
  split.
  - unfold extract_paragraph. rewrite Hps, Hl. simpl. rewrite Hf. simpl.
    rewrite Hc. reflexivity.
  - split; [reflexivity|]. split; [exact Ho|]. split; [exact Hsig|].
    split; reflexivity.
Qed.

Lemma surviving_phrase_gives_paragraph_witness :
  exists self' para paras o os sf ef,
    extract_paragraph keep_text page_with_caption = Ok self' /\
    _paragraphs self' = para :: paras /\
    inner_objects para = o :: os /\
    entry_sig o = phrase_sig keep_text body_line /\
    new_para_start_flag self' = Some sf /\
    new_para_end_flag self' = Some ef.
Proof.
  apply (surviving_phrase_gives_paragraph keep_text page_with_caption
           [caption; body_line] body_line []).
  - reflexivity.
  - vm_compute. reflexivity.
  - repeat constructor; vm_compute; discriminate.
  - intros first rest E. injection E as <- _. vm_compute. discriminate.
  - vm_compute. discriminate.
Defined.

(** [flags_of] is the decision [seg_body] acts on. *)
Lemma seg_body_via_flags (format_text : string -> string) (self : DePage)
    (st : Seg) (i : Phrase) (fl : Flags) :
  excluded self i = false ->
  flags_of self st i = Ok fl ->
  let st1 := flush self fl st in
  seg_body format_text self st i =
  (sty <- (if style_is_empty (para_style st1)
           then infer_style self (phrase_ave_ts self i) (fl_center fl)
                  (fl_div fl) (x0 i)
           else Ok (para_style st1)) ;;
   Ok (mkSeg (x0 i) (top i) (x1 i) (bottom i) (x0 i) (phrase_ave_ts self i)
         (fl_div fl) (fl_center fl) (cur_idx st1) (paragraphs st1)
         (paragraph_objects st1 ++
            [if new_line_flag fl
             then Text (phrase_bbox i) (clean_text format_text i)
             else Span (phrase_bbox i) (clean_text format_text i)
                    (x0 i - p_left st1)])
         sty)).
Proof.
  intros Hex Hfl st1. unfold seg_body, flags_of in *. rewrite Hex.
  pose proof (glyph_width_ok i) as Hw.
  destruct (glyph_width i) as [q|e] eqn:Hq; cbn [bind] in *; [|discriminate].
  pose proof (Hw (glyph_width_has_text i q Hq)) as Hq'.
  assert (Eq : q = (x1 i - x0 i) / Num.of_nat (String.length (text i)))
    by congruence.
  injection Hfl as Hfl. rewrite Hfl. fold st1.
  unfold phrase_ave_ts, clean_text. rewrite <- Eq. reflexivity.
Qed.

(** C10, the claim as stated fails: on a page whose body is one glyph the
    first surviving phrase is not flagged as the start of a new paragraph.
    The flag set while the paragraph list is empty is taken back by the test
    on the margins, the previous right edge being the border's left edge. *)
Lemma first_phrase_demoted_counterexample :
  survivors page_single_glyph [single_glyph] = [single_glyph] /\
  paragraphs (seg_init page_single_glyph) = [] /\
  exists fl,
    flags_of page_single_glyph (seg_init page_single_glyph) single_glyph = Ok fl /\
    new_para_flag fl = false.
Proof.
  split; [vm_compute; reflexivity|].
  split; [reflexivity|].
  eexists. split; vm_compute; reflexivity.
Qed.

(** *** The paragraph-merge example *)

Lemma flush_nothing (self : DePage) (fl : Flags) (st : Seg) :
  new_para_flag fl = false \/ paragraph_objects st = [] ->
  flush self fl st = st.
Proof.
  unfold flush. intros [H|H]; rewrite H; simpl; [reflexivity|].
  now rewrite andb_false_r.
Qed.

(** The shape of the state after an iteration that is not skipped. *)
Lemma seg_body_shape (format_text : string -> string) (self : DePage)
    (st : Seg) (i : Phrase) :
  excluded self i = false -> has_text i -> ~ ave_cs self == 0 ->
  let q := (x1 i - x0 i) / Num.of_nat (String.length (text i)) in
  let ts := Num.max q (ave_cs self) in
  let fl := classify self st i ts (Num.max (bottom i - top i) (ave_cs self)) in
  let st1 := flush self fl st in
  exists sty,
    seg_body format_text self st i =
    Ok (mkSeg (x0 i) (top i) (x1 i) (bottom i) (x0 i) ts (fl_div fl)
          (fl_center fl) (cur_idx st1) (paragraphs st1)
          (paragraph_objects st1 ++
             [if new_line_flag fl
              then Text (phrase_bbox i) (format_text (text i))
              else Span (phrase_bbox i) (format_text (text i))
                     (x0 i - p_left st1)])
          sty).
Proof.
  intros Hex Ht Hcs q ts fl st1. unfold seg_body. rewrite Hex.
  rewrite (glyph_width_ok i Ht). cbn [bind]. fold q. fold ts. fold fl. fold st1.
  assert (Hlen : (String.length (text i) =? 0)%nat = false)
    by (apply Nat.eqb_neq; exact Ht).
  rewrite Hlen.
  destruct (style_is_empty (para_style st1)).
  - destruct (infer_style_total self ts (fl_center fl) (fl_div fl) (x0 i) Hcs)
      as [sty ->].
    cbn [bind]. exists sty. reflexivity.
  - cbn [bind]. eexists. reflexivity.
Qed.

(** A phrase is a new line unless it stands at least two glyph widths away
    from the previous right edge. *)
Lemma classify_new_line (self : DePage) (st : Seg) (i : Phrase) (ts th : Q) :
  toc_flag self = false ->
  Qabs (x0 i - p_right st) < ts * 2 ->
  new_line_flag (classify self st i ts th) = true.
Proof.
  intros Htoc Hgap. unfold classify, classify_normal. rewrite Htoc.
  destruct (border self) as [[[ll t'] lr] tb].
  apply geb_false in Hgap. rewrite Hgap.
  destruct (bottom i - p_bottom st >=? th / 4); [|reflexivity].
  match goal with
  | |- context [if ?c then mkFlags true ?a ?b ?d else ?e] => destruct c
  end; reflexivity.
Qed.

(** The second demotion rule: a candidate paragraph break is taken back when
    the gap is small, the line starts within one unit of the border's left
    edge, and the previous line ends at most 1.5 glyph widths short of the
    border's right edge. *)
Lemma classify_demoted (self : DePage) (st : Seg) (i : Phrase) (ts th : Q)
    (ll tt' lr tb : Q) :
  toc_flag self = false ->
  border self = (ll, tt', lr, tb) ->
  th / 4 <= bottom i - p_bottom st ->
  top i - p_bottom st <= Num.max (th * 6 / 5) (ave_lh self) ->
  Qabs (x0 i - ll) <= 1 ->
  lr - ts * 3 / 2 <= p_right st ->
  classify self st i ts th = mkFlags true false false false.
Proof.
  intros Htoc Hb Hgap Hnear Hleft Hright.
  unfold classify, classify_normal. rewrite Htoc, Hb.
  apply geb_true in Hgap. rewrite Hgap.
  apply leb_true in Hnear. rewrite Hnear.
  apply leb_true in Hleft. rewrite Hleft.
  apply geb_true in Hright. rewrite Hright.
  reflexivity.
Qed.

(** Without that, a candidate break whose previous line ends more than 1.5
    glyph widths short of the border's right edge stands. *)
Lemma classify_break_stands (self : DePage) (st : Seg) (i : Phrase) (ts th : Q)
    (ll tt' lr tb : Q) :
  toc_flag self = false ->
  border self = (ll, tt', lr, tb) ->
  th / 4 <= bottom i - p_bottom st ->
  p_right st < lr - ts * 3 / 2 ->
  new_para_flag (classify self st i ts th) = true /\
  new_line_flag (classify self st i ts th) = true.
Proof.
  intros Htoc Hb Hgap Hshort.
  unfold classify, classify_normal. rewrite Htoc, Hb.
  apply geb_true in Hgap. rewrite Hgap.
  assert (H1 : (p_right st >? lr - ts * 3 / 2) = false).
  { unfold Num.gtb. apply negb_false_iff. apply Qle_bool_iff.
    apply Qlt_le_weak, Hshort. }
  assert (H2 : (p_right st >=? lr - ts * 3 / 2) = false)
    by (apply geb_false; exact Hshort).
  rewrite H1, H2, !andb_false_r.
  destruct (top i - p_bottom st <=? Num.max (th * 6 / 5) (ave_lh self));
    split; reflexivity.
Qed.

Lemma seg_init_border (self : DePage) (ll tt' lr tb : Q) :
  border self = (ll, tt', lr, tb) ->
  seg_init self =
  mkSeg ll tt' ll tt' ll (ave_cs self) false false 1%nat [] [] empty_style.
Proof. intro Hb. unfold seg_init. now rewrite Hb. Qed.

Lemma phrase_ave_ts_pos (self : DePage) (i : Phrase) :
  0 < ave_cs self -> 0 < phrase_ave_ts self i.
Proof.
  intro H. eapply Qlt_le_trans; [exact H|]. apply max_ge_r.
Qed.

Section MergeExample.

Variable format_text : string -> string.
Variable self : DePage.
Variables tA tB : string.
Variables tt' lr tb : Q.

Hypothesis Hps : phrases self = Some [line_A tA; line_B tB].
Hypothesis Htoc : toc_flag self = false.
Hypothesis HexA : excluded self (line_A tA) = false.
Hypothesis HexB : excluded self (line_B tB) = false.
Hypothesis HtA : has_text (line_A tA).
Hypothesis HtB : has_text (line_B tB).
Hypothesis Hb : border self = (50, tt', lr, tb).
Hypothesis Hpos : 0 < ave_cs self.
Hypothesis Hcs : ave_cs self <= 104.

Let Hnz : ~ ave_cs self == 0.
Proof. intro E. rewrite E in Hpos. apply (Qlt_irrefl 0 Hpos). Qed.

(** After line A: no closed paragraph, one [Text] entry, A as previous
    line. *)
Lemma after_line_A :
  exists ts d c sty,
    seg_body format_text self (seg_init self) (line_A tA) =
    Ok (mkSeg 50 100 200 112 50 ts d c 1%nat []
          [Text (50, 100, 200, 112) (format_text tA)] sty).
Proof.
  destruct (seg_body_shape format_text self (seg_init self) (line_A tA)
              HexA HtA Hnz) as [sty H].
  rewrite (seg_init_border self 50 tt' lr tb Hb) in *.
  cbv zeta in H.
  rewrite flush_nothing in H by (right; reflexivity).
  rewrite classify_new_line in H.
  - cbn [x0 top x1 bottom text line_A word paragraph_objects paragraphs
         cur_idx app phrase_bbox] in H.
    do 4 eexists. exact H.
  - exact Htoc.
  - assert (Hts := phrase_ave_ts_pos self (line_A tA) Hpos).
    unfold phrase_ave_ts in Hts.
    set (ts := Num.max _ (ave_cs self)) in *.
    change (Qabs (50 - 50) < ts * 2).
    assert (E : Qabs (50 - 50) == 0) by reflexivity.
    rewrite E. lra.
Qed.

Let thB := Num.max (138 - 126) (ave_cs self).

Lemma line_B_gap : thB / 4 <= 138 - 112.
Proof.
  unfold thB.
  destruct (max_cases (138 - 126) (ave_cs self)) as [-> | ->]; qlra.
Qed.

Lemma line_B_near : 126 - 112 <= Num.max (thB * 6 / 5) (ave_lh self).
Proof.
  eapply Qle_trans; [|apply max_ge_l].
  assert (H : 138 - 126 <= thB) by apply max_ge_l.
  qlra.
Qed.

(** Line B when line A ends at most 1.5 glyph widths short of the border:
    same paragraph, a second [Text]. *)
Lemma line_B_merges (ts : Q) (d c : bool) (sty : Style) :
  lr - phrase_ave_ts self (line_B tB) * 3 / 2 <= 200 ->
  exists ts' d' c' sty',
    seg_body format_text self
      (mkSeg 50 100 200 112 50 ts d c 1%nat []
         [Text (50, 100, 200, 112) (format_text tA)] sty)
      (line_B tB) =
    Ok (mkSeg 50 126 200 138 50 ts' d' c' 1%nat []
          [Text (50, 100, 200, 112) (format_text tA);
           Text (50, 126, 200, 138) (format_text tB)] sty').
Proof.
  intro Hright.
  match goal with
  | |- context [seg_body _ _ ?st _] =>
      destruct (seg_body_shape format_text self st (line_B tB) HexB HtB Hnz)
        as [sty' H];
      cbv zeta in H;
      fold (phrase_ave_ts self (line_B tB)) in H;
      change (Num.max (bottom (line_B tB) - top (line_B tB)) (ave_cs self))
        with thB in H;
      rewrite (classify_demoted self st (line_B tB)
                 (phrase_ave_ts self (line_B tB)) thB 50 tt' lr tb) in H
  end.
  - rewrite flush_nothing in H by (left; reflexivity).
    cbn [x0 top x1 bottom text line_B word paragraph_objects paragraphs
         cur_idx app phrase_bbox new_line_flag fl_div fl_center] in H.
    do 4 eexists. exact H.
  - exact Htoc.
  - exact Hb.
  - exact line_B_gap.
  - exact line_B_near.
  - assert (E : Qabs (50 - 50) == 0) by reflexivity.
    change (Qabs (50 - 50) <= 1). rewrite E. lra.
  - exact Hright.
Qed.

(** Line B when line A ends farther from the border: the paragraph of A is
    closed and B opens the next one. *)
Lemma line_B_splits (ts : Q) (d c : bool) (sty : Style) :
  200 < lr - phrase_ave_ts self (line_B tB) * 3 / 2 ->
  exists ts' d' c' sty',
    seg_body format_text self
      (mkSeg 50 100 200 112 50 ts d c 1%nat []
         [Text (50, 100, 200, 112) (format_text tA)] sty)
      (line_B tB) =
    Ok (mkSeg 50 126 200 138 50 ts' d' c' 2%nat
          [mkParagraph (_pid self) 1%nat
             [Text (50, 100, 200, 112) (format_text tA)] sty]
          [Text (50, 126, 200, 138) (format_text tB)] sty').
Proof.
  intro Hshort.
  match goal with
  | |- context [seg_body _ _ ?st _] =>
      destruct (seg_body_shape format_text self st (line_B tB) HexB HtB Hnz)
        as [sty' H];
      cbv zeta in H;
      destruct (classify_break_stands self st (line_B tB)
                  (phrase_ave_ts self (line_B tB)) thB 50 tt' lr tb
                  Htoc Hb line_B_gap Hshort) as [Hpara Hline]
  end.
  fold (phrase_ave_ts self (line_B tB)) in H.
  change (Num.max (bottom (line_B tB) - top (line_B tB)) (ave_cs self))
    with thB in H.
  unfold flush in H. rewrite Hpara, Hline in H.
  cbn [x0 top x1 bottom text line_B word paragraph_objects paragraphs
       cur_idx app phrase_bbox is_nil negb andb p_left p_top p_right
       p_bottom cur_left ave_ts div_flag center_flag para_style] in H.
  do 4 eexists. exact H.
Qed.

Lemma finish_after (st : Seg) (paras : list Paragraph) :
  seg_finish self st = Ok paras ->
  for_each (seg_body format_text self) [line_A tA; line_B tB] (seg_init self)
    = Ok st ->
  exists fls,
    extract_paragraph format_text self =
    Ok (set_new_para_end_flag (snd fls)
          (set_new_para_start_flag (fst fls) (set_paragraphs paras self))).
Proof.
  intros Hf Hl.
  destruct (continuation_flags_total self [line_A tA; line_B tB] paras st)
    as (fls & Hc & _).
  { intros first rest E. injection E as <- _. exact HtA. }
  exists fls. unfold extract_paragraph. rewrite Hps, Hl. cbn [bind].
  rewrite Hf. cbn [bind]. rewrite Hc. reflexivity.
Qed.

End MergeExample.

(** C2 (as amended).  Lines A [(50,100,200,112)] and B [(50,126,200,138)],
    average line height 12, border left edge 50, normal mode, [ave_cs]
    above 0 and at most 104.  Whether B joins the paragraph of A depends on
    the right edge [lr] of the border and on the glyph width [ave_ts] of B:
    if A ends at most 1.5 glyph widths short of the border
    ([lr - 1.5 ave_ts <= 200]) the page has one paragraph with the two [Text]
    entries; if A ends farther from the border, B opens a second
    paragraph. *)
Theorem merge_example (format_text : string -> string) (self : DePage)
    (tA tB : string) (tt' lr tb : Q) :
  phrases self = Some [line_A tA; line_B tB] ->
  toc_flag self = false ->
  excluded self (line_A tA) = false ->
  excluded self (line_B tB) = false ->
  has_text (line_A tA) ->
  has_text (line_B tB) ->
  ave_lh self = 12 ->
  border self = (50, tt', lr, tb) ->
  0 < ave_cs self ->
  ave_cs self <= 104 ->
  (lr - phrase_ave_ts self (line_B tB) * 3 / 2 <= 200 ->
   exists self' para,
     extract_paragraph format_text self = Ok self' /\
     _paragraphs self' = [para] /\
     inner_objects para =
       [Text (50, 100, 200, 112) (format_text tA);
        Text (50, 126, 200, 138) (format_text tB)]) /\
  (200 < lr - phrase_ave_ts self (line_B tB) * 3 / 2 ->
   exists self' para_a para_b,
     extract_paragraph format_text self = Ok self' /\
     _paragraphs self' = [para_a; para_b] /\
     inner_objects para_a = [Text (50, 100, 200, 112) (format_text tA)] /\
     inner_objects para_b = [Text (50, 126, 200, 138) (format_text tB)]).
Proof.
  intros Hps Htoc HexA HexB HtA HtB _ Hb Hpos Hcs.
  assert (Hnz : ~ ave_cs self == 0).
  { intro E. rewrite E in Hpos. apply (Qlt_irrefl 0 Hpos). }
  destruct (after_line_A format_text self tA tt' lr tb Htoc HexA HtA Hb Hpos)
    as (ts & d & c & sty & HA).
  split; intro Hcond.
  - destruct (line_B_merges format_text self tA tB tt' lr tb Htoc HexB HtB Hb
                Hpos Hcs ts d c sty Hcond) as (ts' & d' & c' & sty' & HB).
    match type of HB with _ = Ok ?st2 =>
      destruct (seg_finish_total self st2 Hnz) as [paras Hf];
      assert (Hl : for_each (seg_body format_text self)
                     [line_A tA; line_B tB] (seg_init self) = Ok st2)
        by (cbn [for_each]; rewrite HA, HB; reflexivity)
    end.
    destruct (finish_after format_text self tA tB Hps HtA _ paras Hf Hl)
      as [fls Hx].
    unfold seg_finish in Hf. cbn [paragraph_objects is_nil negb] in Hf.
    match type of Hf with context [infer_style ?a ?b ?c ?d ?e] =>
      destruct (infer_style a b c d e) as [sty2|]; [|discriminate]
    end.
    cbn [bind paragraphs app cur_idx] in Hf. injection Hf as <-.
    eexists. eexists. split; [exact Hx|]. split; reflexivity.
  - destruct (line_B_splits format_text self tA tB tt' lr tb Htoc HexB HtB Hb
                Hpos Hcs ts d c sty Hcond) as (ts' & d' & c' & sty' & HB).
    match type of HB with _ = Ok ?st2 =>
      destruct (seg_finish_total self st2 Hnz) as [paras Hf];
      assert (Hl : for_each (seg_body format_text self)
                     [line_A tA; line_B tB] (seg_init self) = Ok st2)
        by (cbn [for_each]; rewrite HA, HB; reflexivity)
    end.
    destruct (finish_after format_text self tA tB Hps HtA _ paras Hf Hl)
      as [fls Hx].
    unfold seg_finish in Hf. cbn [paragraph_objects is_nil negb] in Hf.
    match type of Hf with context [infer_style ?a ?b ?c ?d ?e] =>
      destruct (infer_style a b c d e) as [sty2|]; [|discriminate]
    end.
    cbn [bind paragraphs app cur_idx] in Hf. injection Hf as <-.
    eexists. eexists. eexists. split; [exact Hx|]. repeat split; reflexivity.
Qed.

Lemma merge_example_witness :
  exists self' para,
    extract_paragraph keep_text page_two_lines_tight = Ok self' /\
    _paragraphs self' = [para] /\
    inner_objects para =
      [Text (50, 100, 200, 112) fifteen; Text (50, 126, 200, 138) fifteen].
Proof.
  apply (merge_example keep_text page_two_lines_tight fifteen fifteen
           100 200 700).
  - reflexivity.
  - reflexivity.
  - vm_compute. reflexivity.
  - vm_compute. reflexivity.
  - vm_compute. discriminate.
  - vm_compute. discriminate.
  - reflexivity.
  - reflexivity.
  - vm_compute. reflexivity.
  - vm_compute. discriminate.
  - vm_compute. discriminate.
Defined.

(** C2, the claim as stated fails: with the border of the example (right
    edge 400) and ordinary text, fifteen characters to a line, line A ends
    200 units short of the border and B is put into a paragraph of its
    own. *)
Lemma merge_example_counterexample :
  ave_lh page_two_lines = 12 /\
  border page_two_lines = (50, 100, 400, 700) /\
  toc_flag page_two_lines = false /\
  exists self' para_a para_b,
    extract_paragraph keep_text page_two_lines = Ok self' /\
    _paragraphs self' = [para_a; para_b] /\
    inner_objects para_a = [Text (50, 100, 200, 112) fifteen] /\
    inner_objects para_b = [Text (50, 126, 200, 138) fifteen].
Proof.
  split; [reflexivity|]. split; [reflexivity|]. split; [reflexivity|].
  eexists. eexists. eexists.
  split; [vm_compute; reflexivity|].
  split; [reflexivity|]. split; reflexivity.
Qed.

(** *** The content frame *)

Lemma max_list_in (l : list Q) : forall x, In (Num.max_list x l) (x :: l).
Proof.
  unfold Num.max_list. induction l as [|y l IH]; intro x; simpl.
  - auto.
  - destruct (IH (Num.max x y)) as [H|H].
    + destruct (max_cases x y) as [E|E]; rewrite E in *; auto.
    + auto.
Qed.

Lemma min_list_in (l : list Q) : forall x, In (Num.min_list x l) (x :: l).
Proof.
  unfold Num.min_list. induction l as [|y l IH]; intro x; simpl.
  - auto.
  - destruct (IH (Num.min x y)) as [H|H].
    + unfold Num.min in *. destruct (y <? x); auto.
    + auto.
Qed.

Lemma max_list_map_in {A : Type} (f : A -> Q) (a : A) (l : list A) :
  exists b, In b (a :: l) /\ Num.max_list (f a) (map f l) = f b.
Proof.
  pose proof (max_list_in (map f l) (f a)) as H.
  change (f a :: map f l) with (map f (a :: l)) in H.
  apply in_map_iff in H. destruct H as (b & E & Hin). eauto.
Qed.

Lemma min_list_map_in {A : Type} (f : A -> Q) (a : A) (l : list A) :
  exists b, In b (a :: l) /\ Num.min_list (f a) (map f l) = f b.
Proof.
  pose proof (min_list_in (map f l) (f a)) as H.
  change (f a :: map f l) with (map f (a :: l)) in H.
  apply in_map_iff in H. destruct H as (b & E & Hin). eauto.
Qed.

Lemma filter_r_In {A : Type} (test : A -> result bool) (l : list A) :
  forall l', filter_r test l = Ok l' ->
  forall x, In x l' -> In x l /\ test x = Ok true.
Proof.
  induction l as [|a l IH]; intros l' H x Hx; simpl in H.
  - inversion H; subst. inversion Hx.
  - destruct (test a) as [b|e] eqn:Ha; simpl in H; [|discriminate].
    destruct (filter_r test l) as [rest|e]; simpl in H; [|discriminate].
    inversion H; subst; clear H.
    destruct b.
    + destruct Hx as [Hx|Hx].
      * subst x. split; [left; reflexivity|exact Ha].
      * destruct (IH rest eq_refl x Hx). split; [right|]; assumption.
    + destruct (IH rest eq_refl x Hx). split; [right|]; assumption.
Qed.

(** C4 (as amended).  [analyze_main_frame] does not compare the two bounds;
    [frame_top <= frame_bottom] holds after it when the zones are
    consistent: the page height is not negative, every matching head zone
    ends, margin included, above the page bottom and above every matching
    tail zone, and no matching tail zone starts above the page top. *)
Theorem frame_ordered (self self' : DePage) :
  analyze_main_frame self = Ok self' ->
  0 <= height self ->
  (forall h, In h (same self) -> zone_matches self "head" h = Ok true ->
             bottom h + frame_margin self <= height self) ->
  (forall t, In t (same self) -> zone_matches self "tail" t = Ok true ->
             0 <= top t) ->
  (forall h t, In h (same self) -> In t (same self) ->
               zone_matches self "head" h = Ok true ->
               zone_matches self "tail" t = Ok true ->
               bottom h + frame_margin self <= top t) ->
  frame_top self' <= frame_bottom self'.
Proof.
  intros H Hheight Hhead Htail Hboth. unfold analyze_main_frame in H.
  fold (frame_margin self) in H.
  destruct (filter_r (zone_matches self "head") (same self)) as [heads|e]
    eqn:Hh; simpl in H; [|discriminate].
  destruct (filter_r (zone_matches self "tail") (same self)) as [tails|e]
    eqn:Ht; simpl in H; [|discriminate].
  inversion H; subst self'; clear H. simpl.
  pose proof (filter_r_In _ _ _ Hh) as Inh.
  pose proof (filter_r_In _ _ _ Ht) as Int.
  set (m := frame_margin self) in *.
  destruct heads as [|h heads]; destruct tails as [|t tails];
    cbn [map frame_top frame_bottom set_frame_top set_frame_bottom].
  - exact Hheight.
  - destruct (min_list_map_in top t tails) as (t' & Hin & ->).
    destruct (Int t' Hin). auto.
  - destruct (max_list_map_in (fun i => bottom i + m) h heads)
      as (h' & Hin & ->).
    destruct (Inh h' Hin). auto.
  - destruct (max_list_map_in (fun i => bottom i + m) h heads)
      as (h' & Hin & ->).
    destruct (min_list_map_in top t tails) as (t' & Hin' & ->).
    destruct (Inh h' Hin). destruct (Int t' Hin'). auto.
Qed.

Lemma frame_ordered_witness :
  exists self',
    analyze_main_frame (frame_page [head_zone 20 60; tail_zone 750 780])
      = Ok self' /\
    frame_top self' <= frame_bottom self'.
Proof.
  eexists. split; [vm_compute; reflexivity|].
  apply (frame_ordered (frame_page [head_zone 20 60; tail_zone 750 780])).
  - vm_compute. reflexivity.
  - vm_compute. discriminate.
  - intros h [<-|[<-|[]]]; vm_compute; intro; discriminate.
  - intros t [<-|[<-|[]]]; vm_compute; intro; discriminate.
  - intros h t [<-|[<-|[]]] [<-|[<-|[]]]; vm_compute; intros; discriminate.
Defined.

(** C4, the claim as stated fails: a header zone that ends at 700 and a
    footer zone that starts at 100 give [frame_top] 705 and [frame_bottom]
    100. *)
Lemma frame_counterexample :
  exists self',
    analyze_main_frame (frame_page [head_zone 650 700; tail_zone 100 150])
      = Ok self' /\
    ~ frame_top self' <= frame_bottom self'.
Proof.
  eexists. split; [vm_compute; reflexivity|].
  vm_compute. intro C. apply C. reflexivity.
Qed.

(** *** The adaptive tolerances *)

(** C5.  After [analyze_page_attributes] a configured [y_tolerance] or
    [x_tolerance] is used as it is; without one the vertical tolerance is 3
    when [ave_cs / 3 <= 3] and [ave_cs / 2] otherwise, and the horizontal
    tolerance is [ave_cs * 1.5]. *)
Theorem tolerances_spec
    (analyze_char_size : list Glyph -> Q -> Q -> Q -> Q * Q)
    (analyze_page_orientation : Page -> string) (self : DePage) :
  let self' := analyze_page_attributes analyze_char_size
                 analyze_page_orientation self in
  let cfg := _config self in
  (forall cyt, cfg_y_tolerance cfg = Some cyt -> y_tolerance self' = cyt) /\
  (cfg_y_tolerance cfg = None -> ave_cs self' / 3 <= 3 ->
   y_tolerance self' = 3) /\
  (cfg_y_tolerance cfg = None -> ~ ave_cs self' / 3 <= 3 ->
   y_tolerance self' = ave_cs self' / 2) /\
  (forall cxt, cfg_x_tolerance cfg = Some cxt -> x_tolerance self' = cxt) /\
  (cfg_x_tolerance cfg = None -> x_tolerance self' == ave_cs self' * 1.5).
Proof.
  intros self' cfg. unfold self', analyze_page_attributes. fold cfg.
  set (cs := analyze_char_size _ _ _ _).
  cbn [y_tolerance x_tolerance ave_cs set_x_tolerance set_y_tolerance
       set_orientation set_min_cs set_ave_cs].
  repeat split.
  - intros cyt ->. reflexivity.
  - intros -> Hle. apply leb_true in Hle. rewrite Hle. reflexivity.
  - intros -> Hgt.
    destruct (fst cs / 3 <=? 3) eqn:E; [|reflexivity].
    apply leb_true in E. contradiction.
  - intros cxt ->. reflexivity.
  - intros ->. field.
Qed.

Lemma tolerances_spec_witness :
  y_tolerance (analyze_page_attributes char_size_12 always_portrait
                 (frame_page [])) = 12 / 2 /\
  x_tolerance (analyze_page_attributes char_size_12 always_portrait
                 (frame_page [])) == 12 * 1.5.
Proof.
  pose proof (tolerances_spec char_size_12 always_portrait (frame_page []))
    as (_ & _ & Hy & _ & Hx).
  split.
  - apply Hy; [reflexivity|]. vm_compute. intro C. apply C. reflexivity.
  - apply Hx. reflexivity.
Defined.

(** *** Phrase normalisation *)

Lemma insert_by_length {A : Type} (key : A -> Q) (x : A) (l : list A) :
  List.length (insert_by key x l) = S (List.length l).
Proof.
  induction l as [|y l IH]; simpl; [reflexivity|].
  destruct (key x <? key y); simpl; [reflexivity|]. now rewrite IH.
Qed.

Lemma sorted_by_length {A : Type} (key : A -> Q) (l : list A) :
  List.length (sorted_by key l) = List.length l.
Proof.
  unfold sorted_by.
  assert (H : forall acc,
            List.length (fold_left (fun acc x => insert_by key x acc) l acc) =
            (List.length l + List.length acc)%nat).
  { induction l as [|x l IH]; intro acc; simpl; [reflexivity|].
    rewrite IH, insert_by_length. lia. }
  rewrite H. simpl. lia.
Qed.

(** The median of data that is not empty exists. *)
Lemma median_total (l : list Q) : l <> [] -> exists m, median l = Ok m.
Proof.
  intro Hne. unfold median. rewrite sorted_by_length.
  destruct l as [|x l]; [congruence|]. cbn [List.length Nat.eqb].
  destruct (S (List.length l) mod 2 =? 1)%nat; eauto.
Qed.

Lemma median_empty : median [] = Raise StatisticsError.
Proof. reflexivity. Qed.

Section SortFacts.

Context {A : Type}.
Variable key : A -> Q.

Lemma insert_by_perm (x : A) (l : list A) :
  Permutation (x :: l) (insert_by key x l).
Proof.
  induction l as [|y l IH]; simpl; [apply Permutation_refl|].
  destruct (key x <? key y); [apply Permutation_refl|].
  eapply perm_trans; [apply perm_swap|]. apply perm_skip, IH.
Qed.

Lemma sorted_by_perm (l : list A) : Permutation l (sorted_by key l).
Proof.
  unfold sorted_by.
  assert (H : forall acc,
            Permutation (l ++ acc)
              (fold_left (fun acc x => insert_by key x acc) l acc)).
  { induction l as [|x l IH]; intro acc; simpl; [apply Permutation_refl|].
    eapply perm_trans; [|apply IH].
    eapply perm_trans; [apply Permutation_middle|].
    apply Permutation_app_head, insert_by_perm. }
  specialize (H []). now rewrite app_nil_r in H.
Qed.

Lemma insert_by_sorted (x : A) (l : list A) :
  StronglySorted (key_le key) l -> StronglySorted (key_le key) (insert_by key x l).
Proof.
  induction l as [|y l IH]; intro Hs; simpl.
  - constructor; constructor.
  - inversion Hs as [|? ? Hl Hy]; subst.
    destruct (key x <? key y) eqn:E.
    + apply ltb_true in E. constructor; [exact Hs|].
      constructor; [apply Qlt_le_weak, E|].
      eapply Forall_impl; [|exact Hy].
      intros z Hz. unfold key_le in *.
      eapply Qle_trans; [apply Qlt_le_weak, E|exact Hz].
    + apply ltb_false in E. constructor; [apply IH, Hl|].
      eapply Permutation_Forall; [apply insert_by_perm|].
      constructor; assumption.
Qed.

Lemma sorted_by_sorted (l : list A) : StronglySorted (key_le key) (sorted_by key l).
Proof.
  unfold sorted_by.
  assert (H : forall acc, StronglySorted (key_le key) acc ->
            StronglySorted (key_le key)
              (fold_left (fun acc x => insert_by key x acc) l acc)).
  { induction l as [|x l IH]; intros acc Hacc; simpl; [exact Hacc|].
    apply IH, insert_by_sorted, Hacc. }
  apply H. constructor.
Qed.

(** In a sorted list everything before a position is below it and
    everything behind is above. *)
Lemma sorted_split (l1 l2 : list A) (x : A) :
  StronglySorted (key_le key) (l1 ++ x :: l2) ->
  Forall (fun y => key y <= key x) l1 /\ Forall (fun y => key x <= key y) l2.
Proof.
  induction l1 as [|a l1 IH]; simpl; intro Hs;
    inversion Hs as [|? ? Hl Ha]; subst.
  - split; [constructor|exact Ha].
  - destruct (IH Hl) as [H1 H2]. split; [|exact H2].
    constructor; [|exact H1].
    apply Forall_app in Ha. destruct Ha as [_ Ha].
    inversion Ha; assumption.
Qed.

End SortFacts.

(** The value [median] returns splits the data into two halves of equal
    size, one below it and one above it, with at most the value itself in
    between. *)
Lemma median_splits (l : list Q) (m : Q) :
  median l = Ok m ->
  exists lo mid hi,
    Permutation l (lo ++ mid ++ hi) /\
    List.length lo = List.length hi /\
    Forall (fun x => x <= m) lo /\
    Forall (fun x => m <= x) hi /\
    (mid = [] \/ mid = [m]).
Proof.
  unfold median.
  pose proof (sorted_by_perm (fun x => x) l) as Hperm.
  pose proof (sorted_by_sorted (fun x => x) l) as Hsort.
  set (s := sorted_by (fun x => x) l) in *.
  set (n := List.length s).
  destruct (n =? 0)%nat eqn:Hn0; [discriminate|].
  apply Nat.eqb_neq in Hn0.
  destruct (n mod 2 =? 1)%nat eqn:Hodd.
  - apply Nat.eqb_eq in Hodd. intro H.
    assert (E : nth (n / 2) s 0 = m) by congruence. clear H. subst m.
    assert (Hlt : (n / 2 < List.length s)%nat).
    { fold n. apply Nat.div_lt; lia. }
    destruct (nth_split s 0 Hlt) as (l1 & l2 & Hs & Hl1).
    set (x := nth (n / 2) s 0) in *.
    rewrite Hs in Hsort. destruct (sorted_split _ _ _ _ Hsort) as [Hlo Hhi].
    exists l1, [x], l2. split; [|split; [|split; [|split]]].
    + simpl. rewrite <- Hs. exact Hperm.
    + assert (Hlen : List.length s = (List.length l1 + S (List.length l2))%nat).
      { rewrite Hs at 1. rewrite length_app. reflexivity. }
      fold n in Hlen.
      pose proof (Nat.div_mod_eq n 2). lia.
    + exact Hlo.
    + exact Hhi.
    + right; reflexivity.
  - apply Nat.eqb_neq in Hodd. cbv zeta. intro H.
    assert (E : (nth (n / 2 - 1) s 0 + nth (n / 2) s 0) / 2 = m) by congruence.
    clear H. subst m.
    assert (Heven : (n mod 2 = 0)%nat).
    { pose proof (Nat.mod_upper_bound n 2). lia. }
    pose proof (Nat.div_mod_eq n 2) as Hdiv.
    assert (Hlt : (n / 2 - 1 < List.length s)%nat) by (fold n; lia).
    destruct (nth_split s 0 Hlt) as (l1 & l2 & Hs & Hl1).
    set (a := nth (n / 2 - 1) s 0) in *.
    assert (Hlen : List.length s = (List.length l1 + S (List.length l2))%nat).
    { rewrite Hs at 1. rewrite length_app. reflexivity. }
    fold n in Hlen.
    destruct l2 as [|b l3]; [simpl in Hlen; lia|].
    assert (Hb : nth (n / 2) s 0 = b).
    { rewrite Hs. replace (n / 2)%nat with (List.length l1 + 1)%nat by lia.
      rewrite app_nth2_plus. reflexivity. }
    rewrite Hb.
    rewrite Hs in Hsort. destruct (sorted_split _ _ _ _ Hsort) as [Hlo Hhi].
    assert (Hab : a <= b) by (inversion Hhi; assumption).
    exists (l1 ++ [a]), [], (b :: l3). split; [|split; [|split; [|split]]].
    + simpl. rewrite <- app_assoc. simpl. rewrite <- Hs. exact Hperm.
    + rewrite length_app. simpl in *. lia.
    + apply Forall_app. split.
      * eapply Forall_impl; [|exact Hlo]. intros y Hy. simpl in Hy. qlra.
      * constructor; [qlra|constructor].
    + constructor; [qlra|].
      assert (Hs' : l1 ++ a :: b :: l3 = (l1 ++ [a]) ++ b :: l3)
        by (rewrite <- app_assoc; reflexivity).
      rewrite Hs' in Hsort.
      destruct (sorted_split _ _ _ _ Hsort) as [_ Hb3].
      eapply Forall_impl; [|exact Hb3]. intros y Hy. simpl in Hy. qlra.
    + left; reflexivity.
Qed.

(** What [median] returns is the median of the data. *)
Lemma median_is_median (l : list Q) (m : Q) : median l = Ok m -> is_median l m.
Proof.
  unfold median, is_median.
  pose proof (sorted_by_perm (fun x => x) l) as Hperm.
  pose proof (sorted_by_sorted (fun x => x) l) as Hsort.
  pose proof (sorted_by_length (fun x => x) l) as Hlen.
  set (s := sorted_by (fun x => x) l) in *.
  destruct (List.length s =? 0)%nat eqn:Hn0; [discriminate|].
  apply Nat.eqb_neq in Hn0. intro H. split.
  { intro E. apply Hn0. rewrite Hlen, E. reflexivity. }
  exists s. split; [exact Hperm|]. split; [exact Hsort|].
  destruct (List.length s mod 2 =? 1)%nat eqn:Hodd.
  - apply Nat.eqb_eq in Hodd. split.
    + intros _. congruence.
    + intros [k Hk]. exfalso. rewrite Hk in Hodd.
      rewrite Nat.mul_comm, Nat.Div0.mod_mul in Hodd. discriminate.
  - apply Nat.eqb_neq in Hodd. split.
    + intros [k Hk]. exfalso. apply Hodd. rewrite Hk.
      rewrite Nat.add_comm, Nat.mul_comm, Nat.Div0.mod_add. reflexivity.
    + intros _. cbv zeta in H. congruence.
Qed.

(** C6.  Normalising a phrase never fails.  If cropping the page to the box
    of the phrase yields glyphs, the top and bottom of the phrase become the
    median of the tops and the median of the bottoms of those glyphs (the
    middle value of the sorted data, or the mean of the two middle values)
    and nothing else changes; if the crop is rejected or yields no glyph the
    phrase is left as it is.  [extract_phrases] applies this to every word
    inside the frame and always sets [phrases]. *)
Theorem normalize_phrase_spec
    (analyze_page_num_word : list Phrase -> Q -> Q -> Q -> Q -> Q -> list bool)
    (self : DePage) (w : Phrase) :
  let page := _page self in
  (forall chars,
     page_crop page (phrase_bbox w) = Ok chars -> chars <> [] ->
     exists t b,
       is_median (map g_top chars) t /\
       is_median (map g_bottom chars) b /\
       normalize_phrase page w =
         mkPhrase (x0 w) t (x1 w) b (text w) (mode w) (level w)) /\
  (forall e, page_crop page (phrase_bbox w) = Raise e ->
             normalize_phrase page w = w) /\
  (page_crop page (phrase_bbox w) = Ok [] -> normalize_phrase page w = w) /\
  phrases (extract_phrases analyze_page_num_word self) =
    Some (map (normalize_phrase page)
            (filter (fun i => (top i >=? frame_top self) &&
                              (bottom i <=? frame_bottom self))
               (page_extract_words page (x_tolerance self)
                  (y_tolerance self)))).
Proof.
  intro page. repeat split.
  - intros chars Hcrop Hne. unfold normalize_phrase.
    change (x0 w, top w, x1 w, bottom w) with (phrase_bbox w).
    rewrite Hcrop. cbn [bind].
    destruct (median_total (map g_top chars)) as [t Ht].
    { destruct chars; [congruence|discriminate]. }
    destruct (median_total (map g_bottom chars)) as [b Hb].
    { destruct chars; [congruence|discriminate]. }
    exists t, b. rewrite Ht, Hb. cbn [bind try_pass].
    split; [apply median_is_median, Ht|].
    split; [apply median_is_median, Hb|reflexivity].
  - intros e Hcrop. unfold normalize_phrase.
    change (x0 w, top w, x1 w, bottom w) with (phrase_bbox w).
    rewrite Hcrop. reflexivity.
  - intros Hcrop. unfold normalize_phrase.
    change (x0 w, top w, x1 w, bottom w) with (phrase_bbox w).
    rewrite Hcrop. reflexivity.
Qed.

Lemma normalize_phrase_spec_witness :
  exists t b,
    is_median (map g_top three_glyphs) t /\
    is_median (map g_bottom three_glyphs) b /\
    normalize_phrase glyph_page tall_word =
      mkPhrase (x0 tall_word) t (x1 tall_word) b (text tall_word) None None.
Proof.
  pose proof (normalize_phrase_spec no_page_numbers
                (set_page glyph_page (frame_page [])) tall_word) as (H & _).
  apply (H three_glyphs).
  - vm_compute. reflexivity.
  - discriminate.
Defined.

(** *** Construction *)

(** C8.  [DePage] construction raises a type-mismatch error exactly when
    the page argument is not a page or the configuration argument is not a
    configuration.  The error is the result of the construction itself: a
    foreign page gives [PageTypeError], a page with a foreign configuration
    gives [ConfigTypeError], and no page object is built. *)
Theorem init_type_errors (default_prefix : string) (page : PyObj Page)
    (pid : Z) (same : option (list Phrase)) (logo : option (list BBox))
    (config : PyObj Config) :
  ((exists e, init default_prefix page pid same logo config = Raise e /\
              type_mismatch e) <->
   (page = Foreign \/ config = Foreign)) /\
  (page = Foreign ->
   init default_prefix page pid same logo config = Raise PageTypeError) /\
  (forall p, page = Instance p -> config = Foreign ->
   init default_prefix page pid same logo config = Raise ConfigTypeError).
Proof.
  split; [|split].
  - split.
    + intros (e & H & He).
      destruct page as [p|]; [|auto]. destruct config as [c|]; [|auto].
      exfalso. unfold init in H. cbn [check_page_type check_config_type bind] in H.
      destruct same as [l|]; cbn [bind] in H; [discriminate|].
      inversion H; subst e. destruct He; discriminate.
    + intros [-> | ->].
      * exists PageTypeError. split; [reflexivity|left; reflexivity].
      * destruct page as [p|].
        -- exists ConfigTypeError. split; [reflexivity|right; reflexivity].
        -- exists PageTypeError. split; [reflexivity|left; reflexivity].
  - intros ->. reflexivity.
  - intros p -> ->. reflexivity.
Qed.

Lemma init_type_errors_witness :
  init "doc" Foreign 1 (Some []) None (Instance plain_config)
    = Raise PageTypeError /\
  init "doc" (Instance (blank_page 600 800)) 1 (Some []) None Foreign
    = Raise ConfigTypeError.
Proof.
  split.
  - apply (init_type_errors "doc" Foreign 1 (Some []) None
             (Instance plain_config)). reflexivity.
  - apply (init_type_errors "doc" (Instance (blank_page 600 800)) 1 (Some [])
             None Foreign) with (p := blank_page 600 800); reflexivity.
Defined.

(** *** The pipeline and the table-of-contents flag *)

Lemma init_toc_flag (default_prefix : string) (page : PyObj Page) (pid : Z)
    (same : option (list Phrase)) (logo : option (list BBox))
    (config : PyObj Config) (self : DePage) :
  init default_prefix page pid same logo config = Ok self ->
  toc_flag self = false.
Proof.
  unfold init. destruct page as [p|]; [|discriminate].
  destruct config as [c|]; [|discriminate].
  destruct same as [l|]; [|discriminate].
  cbn [check_page_type check_config_type bind].
  intro H. injection H as <-. unfold set_global.
  cbn [_config]. destruct (negb _); destruct (negb _); reflexivity.
Qed.

Lemma analyze_main_frame_toc_flag (self self' : DePage) :
  analyze_main_frame self = Ok self' -> toc_flag self' = toc_flag self.
Proof.
  unfold analyze_main_frame.
  destruct (filter_r _ _); cbn [bind]; [|discriminate].
  destruct (filter_r _ _); cbn [bind]; [|discriminate].
  intro H. injection H as <-. reflexivity.
Qed.

Lemma extract_paragraph_toc_flag (format_text : string -> string)
    (self self' : DePage) :
  extract_paragraph format_text self = Ok self' ->
  toc_flag self' = toc_flag self.
Proof.
  unfold extract_paragraph. destruct (phrases self) as [ps|]; [|discriminate].
  destruct (for_each _ _ _); cbn [bind]; [|discriminate].
  destruct (seg_finish _ _); cbn [bind]; [|discriminate].
  destruct (continuation_flags _ _ _ _); cbn [bind]; [|discriminate].
  intro H. injection H as <-. reflexivity.
Qed.

Section PipelineFacts.

Variable format_text : string -> string.
Variable remove_duplicate_chars : Page -> Q -> Page.
Variable analyze_char_size : list Glyph -> Q -> Q -> Q -> Q * Q.
Variable analyze_page_orientation : Page -> string.
Variable analyze_page_num_word : list Phrase -> Q -> Q -> Q -> Q -> Q -> list bool.
Variable edges_to_lines : list Line -> list Line * list Line.
Variable remove_single_lines : list Line -> Q -> Q -> Q -> bool -> list Line.
Variable curve_to_lines : list Curve -> list Line * list Line.
Variable convert_plumber_table :
  Page -> RawTable -> Z -> nat -> Config -> Q -> Q -> option Table.
Variable merge_page_figures :
  Page -> list RawTable -> list BBox -> Z -> list Figure.
Variable calculate_paragraph_border : DePage -> BBox.
Variable paragraph_bbox : Paragraph -> BBox.

Lemma analyze_lines_toc_flag (self : DePage) :
  toc_flag (analyze_lines edges_to_lines remove_single_lines curve_to_lines self)
  = toc_flag self.
Proof.
  unfold analyze_lines.
  destruct (edges_to_lines _) as [h v].
  destruct (curve_to_lines _) as [hc vc]. reflexivity.
Qed.

Lemma extract_images_toc_flag (self self' : DePage) :
  extract_images merge_page_figures self = Ok self' ->
  toc_flag self' = toc_flag self.
Proof.
  unfold extract_images.
  destruct (for_each _ _ _); cbn [bind]; [|discriminate].
  intro H. injection H as <-. reflexivity.
Qed.

Lemma stages_before_paragraphs_toc_flag (self s1 : DePage) :
  stages_before_paragraphs remove_duplicate_chars analyze_char_size
    analyze_page_orientation analyze_page_num_word edges_to_lines
    remove_single_lines curve_to_lines convert_plumber_table
    merge_page_figures self = Ok s1 ->
  toc_flag s1 = toc_flag self.
Proof.
  unfold stages_before_paragraphs.
  match goal with
  | |- context [analyze_main_frame ?s] =>
      destruct (analyze_main_frame s) as [s2|] eqn:Hframe
  end; cbn [bind]; [|discriminate].
  apply analyze_main_frame_toc_flag in Hframe.
  change (toc_flag s2 = toc_flag self) in Hframe.
  set (s3 := extract_phrases analyze_page_num_word s2).
  assert (H3 : toc_flag s3 = toc_flag self) by exact Hframe.
  set (s4 := if table_flag (_config s3) then _ else s3).
  assert (H4 : toc_flag s4 = toc_flag self).
  { unfold s4. destruct (table_flag (_config s3)); [|exact H3].
    unfold extract_tables.
    cbn [toc_flag set_tables set_tables_raw].
    rewrite analyze_lines_toc_flag. exact H3. }
  destruct (image_flag (_config s4)).
  - intro H. apply extract_images_toc_flag in H. congruence.
  - intro H. injection H as <-. exact H4.
Qed.

Lemma process_page_toc_flag (self self' : DePage) (objs : list PageObject) :
  process_page format_text remove_duplicate_chars analyze_char_size
    analyze_page_orientation analyze_page_num_word edges_to_lines
    remove_single_lines curve_to_lines convert_plumber_table
    merge_page_figures calculate_paragraph_border paragraph_bbox self
    = Ok (self', objs) ->
  toc_flag self' = toc_flag self.
Proof.
  unfold process_page.
  destruct (stages_before_paragraphs _ _ _ _ _ _ _ _ _ self) as [s1|]
    eqn:H1; cbn [bind]; [|discriminate].
  apply stages_before_paragraphs_toc_flag in H1.
  destruct (paragraph_flag (_config s1)).
  - destruct (extract_paragraph _ _) as [s2|] eqn:H2; cbn [bind];
      [|discriminate].
    apply extract_paragraph_toc_flag in H2.
    intro H. injection H as <- _. rewrite H2. exact H1.
  - cbn [bind]. intro H. injection H as <- _. exact H1.
Qed.

End PipelineFacts.

Lemma classify_without_toc (self : DePage) (st : Seg) (i : Phrase) (ts th : Q) :
  toc_flag self = false ->
  classify self st i ts th =
  classify_normal self st i ts th true
    (if is_nil (paragraphs st) then true else false).
Proof. intro H. unfold classify. now rewrite H. Qed.

(** C9.  A page built by [__init__] has [toc_flag] false, and nothing that
    [process_page] runs writes the flag: it is false after the stages that
    precede the paragraph stage, false in the page handed to
    [extract_paragraph], whose decision for every phrase is therefore the one
    of the normal branch, and false in the page [process_page] returns.  Only
    [check_if_toc_page], which [process_page] does not call, sets it. *)
Theorem process_page_stays_normal
    (format_text : string -> string)
    (remove_duplicate_chars : Page -> Q -> Page)
    (analyze_char_size : list Glyph -> Q -> Q -> Q -> Q * Q)
    (analyze_page_orientation : Page -> string)
    (analyze_page_num_word : list Phrase -> Q -> Q -> Q -> Q -> Q -> list bool)
    (edges_to_lines : list Line -> list Line * list Line)
    (remove_single_lines : list Line -> Q -> Q -> Q -> bool -> list Line)
    (curve_to_lines : list Curve -> list Line * list Line)
    (convert_plumber_table :
       Page -> RawTable -> Z -> nat -> Config -> Q -> Q -> option Table)
    (merge_page_figures : Page -> list RawTable -> list BBox -> Z -> list Figure)
    (calculate_paragraph_border : DePage -> BBox)
    (paragraph_bbox : Paragraph -> BBox)
    (toc_text_test : Page -> bool)
    (default_prefix : string) (page : PyObj Page) (pid : Z)
    (same : option (list Phrase)) (logo : option (list BBox))
    (config : PyObj Config) (self : DePage) :
  init default_prefix page pid same logo config = Ok self ->
  toc_flag self = false /\
  (forall s1,
     stages_before_paragraphs remove_duplicate_chars analyze_char_size
       analyze_page_orientation analyze_page_num_word edges_to_lines
       remove_single_lines curve_to_lines convert_plumber_table
       merge_page_figures self = Ok s1 ->
     let s2 := analyze_paragraph_border calculate_paragraph_border s1 in
     toc_flag s1 = false /\
     toc_flag s2 = false /\
     forall st i ts th,
       classify s2 st i ts th =
       classify_normal s2 st i ts th true
         (if is_nil (paragraphs st) then true else false)) /\
  (forall self' objs,
     process_page format_text remove_duplicate_chars analyze_char_size
       analyze_page_orientation analyze_page_num_word edges_to_lines
       remove_single_lines curve_to_lines convert_plumber_table
       merge_page_figures calculate_paragraph_border paragraph_bbox self
       = Ok (self', objs) ->
     toc_flag self' = false) /\
  (toc_text_test (_page self) = true ->
   toc_flag (check_if_toc_page toc_text_test self) = true).
Proof.
  intro Hinit. apply init_toc_flag in Hinit.
  split; [exact Hinit|]. split; [|split].
  - intros s1 H1 s2.
    apply stages_before_paragraphs_toc_flag in H1. rewrite Hinit in H1.
    assert (H2 : toc_flag s2 = false) by exact H1.
    split; [exact H1|]. split; [exact H2|].
    intros st i ts th. apply classify_without_toc, H2.
  - intros self' objs H. apply process_page_toc_flag in H. congruence.
  - intro Ht. unfold check_if_toc_page. rewrite Ht. reflexivity.
Qed.

Lemma process_page_stays_normal_witness :
  exists self self' objs,
    init "doc" (Instance text_page) 1 (Some []) None (Instance plain_config)
      = Ok self /\
    process_page keep_text keep_chars char_size_12 always_portrait
      no_page_numbers no_lines keep_lines no_curve_lines no_table no_figures
      body_border first_entry_bbox self = Ok (self', objs) /\
    toc_flag self' = false /\
    List.length objs = 1%nat.
Proof.
  eexists. eexists. eexists.
  split; [reflexivity|].
  split; [vm_compute; reflexivity|].
  split; [|reflexivity].
  pose proof (process_page_stays_normal keep_text keep_chars char_size_12
                always_portrait no_page_numbers no_lines keep_lines
                no_curve_lines no_table no_figures body_border
                first_entry_bbox toc_everywhere
                "doc" (Instance text_page) 1 (Some []) None
                (Instance plain_config) _ eq_refl) as (_ & _ & H & _).
  eapply H. vm_compute. reflexivity.
Defined.

(** ** Further properties of the code *)

(** *** The segmentation loop, once more *)

(** A property of the loop state that every iteration keeps holds at the
    end of the loop. *)
Lemma for_each_invariant {S A : Type} (body : S -> A -> result S)
    (P : S -> Prop) :
  (forall s x s', P s -> body s x = Ok s' -> P s') ->
  forall l s s', P s -> for_each body l s = Ok s' -> P s'.
Proof.
  intros Hstep l. induction l as [|x l IH]; intros s s' Hs H; simpl in H.
  - injection H as <-. exact Hs.
  - destruct (body s x) as [s1|e] eqn:Hb; [|discriminate].
    eapply IH; [|exact H]. eapply Hstep; eauto.
Qed.

(** The two outcomes of the paragraph break test. *)
Lemma flush_cases (self : DePage) (fl : Flags) (st : Seg) :
  flush self fl st = st \/
  (new_para_flag fl = true /\ paragraph_objects st <> [] /\
   flush self fl st =
   mkSeg (p_left st) (p_top st) (p_right st) (p_bottom st) (cur_left st)
     (ave_ts st) (div_flag st) (center_flag st) (S (cur_idx st))
     (paragraphs st ++
        [mkParagraph (_pid self) (cur_idx st) (paragraph_objects st)
           (para_style st)])
     [] empty_style).
Proof.
  unfold flush. destruct (new_para_flag fl); [|left; reflexivity].
  destruct (paragraph_objects st) as [|o os]; [left; reflexivity|].
  right. split; [reflexivity|]. split; [discriminate|reflexivity].
Qed.

(** An iteration that is not skipped, taken apart. *)
Lemma seg_body_inv (format_text : string -> string) (self : DePage)
    (st st' : Seg) (i : Phrase) :
  excluded self i = false ->
  seg_body format_text self st i = Ok st' ->
  exists fl sty,
    flags_of self st i = Ok fl /\
    (if style_is_empty (para_style (flush self fl st))
     then infer_style self (phrase_ave_ts self i) (fl_center fl) (fl_div fl)
            (x0 i)
     else Ok (para_style (flush self fl st))) = Ok sty /\
    st' =
    mkSeg (x0 i) (top i) (x1 i) (bottom i) (x0 i) (phrase_ave_ts self i)
      (fl_div fl) (fl_center fl) (cur_idx (flush self fl st))
      (paragraphs (flush self fl st))
      (paragraph_objects (flush self fl st) ++
         [if new_line_flag fl
          then Text (phrase_bbox i) (clean_text format_text i)
          else Span (phrase_bbox i) (clean_text format_text i)
                 (x0 i - p_left (flush self fl st))])
      sty.
Proof.
  intros Hex H.
  destruct (flags_of self st i) as [fl|e] eqn:Hfl.
  - rewrite (seg_body_via_flags format_text self st i fl Hex Hfl) in H.
    cbv zeta in H.
    match type of H with
    | (bind ?m _) = _ => destruct m as [sty|e] eqn:Hsty
    end; cbn [bind] in H; [|discriminate].
    exists fl, sty. split; [reflexivity|]. split; [exact Hsty|].
    injection H as <-. reflexivity.
  - exfalso. unfold flags_of in Hfl. unfold seg_body in H. rewrite Hex in H.
    destruct (glyph_width i); cbn [bind] in *; discriminate.
Qed.

(** An invariant of the loop state that skipped iterations trivially keep. *)
Lemma loop_invariant (format_text : string -> string) (self : DePage)
    (P : Seg -> Prop) :
  (forall st st' i, P st -> excluded self i = false ->
     seg_body format_text self st i = Ok st' -> P st') ->
  forall ps st st', P st ->
    for_each (seg_body format_text self) ps st = Ok st' -> P st'.
Proof.
  intros Hstep. apply for_each_invariant.
  intros s x s' Hs Hb. destruct (excluded self x) eqn:Hex.
  - rewrite (seg_body_skip format_text self s x Hex) in Hb.
    injection Hb as <-. exact Hs.
  - eapply Hstep; eauto.
Qed.

(** X1.  The paragraphs [extract_paragraph] returns are numbered 1, 2, ...
    in the order of the list, and each carries the page number of the
    page. *)
Theorem paragraphs_numbered (format_text : string -> string)
    (self self' : DePage) :
  extract_paragraph format_text self = Ok self' ->
  map para_idx (_paragraphs self') =
    seq 1 (List.length (_paragraphs self')) /\
  Forall (fun p => para_pid p = _pid self) (_paragraphs self').
Proof.
  intro H. destruct (phrases self) as [ps|] eqn:Hps;
    [|unfold extract_paragraph in H; rewrite Hps in H; discriminate].
  destruct (extract_paragraph_ok format_text self ps self' Hps H)
    as (st & fls & Hl & Hf & _).
  set (P := fun st : Seg =>
         map para_idx (paragraphs st) = seq 1 (List.length (paragraphs st)) /\
         cur_idx st = S (List.length (paragraphs st)) /\
         Forall (fun p => para_pid p = _pid self) (paragraphs st)).
  assert (Hst : P st).
  { apply (loop_invariant format_text self P) with (ps := ps)
      (st := seg_init self); [|unfold P, seg_init;
        destruct (border self) as [[[ll t'] lr] tb]; simpl; auto|exact Hl].
    intros s s' i (Hidx & Hcur & Hpid) Hex Hb.
    destruct (seg_body_inv format_text self s s' i Hex Hb)
      as (fl & sty & _ & _ & ->).
    unfold P. cbn [paragraphs cur_idx].
    destruct (flush_cases self fl s) as [-> | (_ & _ & ->)].
    - auto.
    - cbn [paragraphs cur_idx]. rewrite map_app, length_app, Hidx.
      cbn [map List.length para_idx]. rewrite Hcur.
      rewrite Nat.add_1_r, seq_S. cbn [Nat.add].
      split; [reflexivity|]. split; [reflexivity|].
      apply Forall_app. split; [exact Hpid|].
      constructor; [reflexivity|constructor]. }
  destruct Hst as (Hidx & Hcur & Hpid).
  unfold seg_finish in Hf.
  destruct (negb (is_nil (paragraph_objects st))).
  - destruct (infer_style _ _ _ _ _) as [sty|]; cbn [bind] in Hf;
      [|discriminate].
    injection Hf as <-. rewrite map_app, length_app, Hidx.
    cbn [map List.length para_idx]. rewrite Hcur.
    rewrite Nat.add_1_r, seq_S. cbn [Nat.add].
    split; [reflexivity|].
    apply Forall_app. split; [exact Hpid|].
    constructor; [reflexivity|constructor].
  - injection Hf as <-. auto.
Qed.

Lemma paragraphs_numbered_witness :
  exists self',
    extract_paragraph keep_text page_two_lines = Ok self' /\
    map para_idx (_paragraphs self') = [1%nat; 2%nat].
Proof.
  eexists. split; [vm_compute; reflexivity|].
  apply (paragraphs_numbered keep_text page_two_lines).
  vm_compute. reflexivity.
Defined.

(** X2.  No paragraph [extract_paragraph] returns is empty: each holds at
    least one [Text] or [Span] entry. *)
Theorem paragraphs_not_empty (format_text : string -> string)
    (self self' : DePage) :
  extract_paragraph format_text self = Ok self' ->
  Forall (fun p => inner_objects p <> []) (_paragraphs self').
Proof.
  intro H. destruct (phrases self) as [ps|] eqn:Hps;
    [|unfold extract_paragraph in H; rewrite Hps in H; discriminate].
  destruct (extract_paragraph_ok format_text self ps self' Hps H)
    as (st & fls & Hl & Hf & _).
  apply (seg_finish_keeps_nonempty self st _ Hf).
  apply (loop_keeps_nonempty format_text self ps (seg_init self) st Hl).
  destruct (seg_init_empty self) as [-> _]. constructor.
Qed.

Lemma paragraphs_not_empty_witness :
  exists self',
    extract_paragraph keep_text page_three_lines = Ok self' /\
    Forall (fun p => inner_objects p <> []) (_paragraphs self').
Proof.
  eexists. split; [vm_compute; reflexivity|].
  apply (paragraphs_not_empty keep_text page_three_lines).
  vm_compute. reflexivity.
Defined.

(** X3.  When every phrase of the page is claimed by an exclusion list (or
    the page has no phrase), [extract_paragraph] returns without paragraphs
    and leaves both continuation flags [None]; no division is evaluated, so
    this holds even for [ave_cs] 0 and for phrases with an empty text. *)
Theorem nothing_survives (format_text : string -> string) (self : DePage)
    (ps : list Phrase) :
  phrases self = Some ps ->
  survivors self ps = [] ->
  exists self',
    extract_paragraph format_text self = Ok self' /\
    _paragraphs self' = [] /\
    new_para_start_flag self' = None /\
    new_para_end_flag self' = None.
Proof.
  intros Hps Hnone.
  assert (Hl : forall st, for_each (seg_body format_text self) ps st = Ok st).
  { clear Hps. induction ps as [|i ps IH]; intro st; [reflexivity|].
    simpl in Hnone. destruct (excluded self i) eqn:Hex; [|discriminate].
    simpl. rewrite (seg_body_skip format_text self st i Hex). apply IH, Hnone. }
  unfold extract_paragraph. rewrite Hps, Hl. cbn [bind].
  unfold seg_finish. destruct (seg_init_empty self) as [E1 E2].
  rewrite E1, E2. cbn [is_nil negb bind].
  unfold continuation_flags. destruct (border self) as [[[ll t'] lr] tb].
  cbn [is_nil negb bind]. eexists. repeat split.
Qed.

Lemma nothing_survives_witness :
  exists self',
    extract_paragraph keep_text page_all_claimed = Ok self' /\
    _paragraphs self' = [] /\
    new_para_start_flag self' = None /\
    new_para_end_flag self' = None.
Proof.
  apply (nothing_survives keep_text page_all_claimed
           [caption; word 10 60 40 72 ""]).
  - reflexivity.
  - vm_compute. reflexivity.
Defined.

(** The paragraph break test, with what is known when nothing is closed. *)
Lemma flush_split (self : DePage) (fl : Flags) (st : Seg) :
  ((new_para_flag fl = false \/ paragraph_objects st = []) /\
   flush self fl st = st) \/
  (new_para_flag fl = true /\ paragraph_objects st <> [] /\
   flush self fl st =
   mkSeg (p_left st) (p_top st) (p_right st) (p_bottom st) (cur_left st)
     (ave_ts st) (div_flag st) (center_flag st) (S (cur_idx st))
     (paragraphs st ++
        [mkParagraph (_pid self) (cur_idx st) (paragraph_objects st)
           (para_style st)])
     [] empty_style).
Proof.
  unfold flush. destruct (new_para_flag fl); [|left; auto].
  destruct (paragraph_objects st) as [|o os]; [left; auto|].
  right. split; [reflexivity|]. split; [discriminate|reflexivity].
Qed.

(** In normal mode a phrase that is not a new line is not a new paragraph
    either. *)
Lemma normal_span_joins (self : DePage) (st : Seg) (i : Phrase) (ts th : Q) :
  toc_flag self = false ->
  new_line_flag (classify self st i ts th) = false ->
  new_para_flag (classify self st i ts th) = false.
Proof.
  intros Htoc. unfold classify, classify_normal. rewrite Htoc.
  destruct (border self) as [[[ll t'] lr] tb].
  destruct (bottom i - p_bottom st >=? th / 4).
  - match goal with
    | |- context [if ?c then mkFlags true ?a ?b ?d else ?e] => destruct c
    end; cbn [new_line_flag]; discriminate.
  - destruct (Qabs (x0 i - p_right st) >=? ts * 2);
      [destruct (Qabs (top i - p_top st) <=? ts / 2)|];
      cbn [new_line_flag new_para_flag]; auto; discriminate.
Qed.

(** In table-of-contents mode a new line is a new paragraph, a phrase
    joins the open paragraph only after a paragraph has been closed, and
    neither centring nor indentation is ever flagged. *)
Lemma toc_flags (self : DePage) (st : Seg) (i : Phrase) (ts th : Q) :
  toc_flag self = true ->
  let fl := classify self st i ts th in
  fl_center fl = false /\ fl_div fl = false /\
  (new_line_flag fl = true -> new_para_flag fl = true) /\
  (new_para_flag fl = false -> paragraphs st <> []).
Proof.
  intros Htoc fl. unfold fl, classify, classify_toc. rewrite Htoc.
  destruct (bottom i >=? p_bottom st + th / 4);
    cbn [fl_center fl_div new_line_flag new_para_flag].
  - repeat split; auto; discriminate.
  - repeat split; try discriminate.
    destruct (paragraphs st); cbn [is_nil]; [discriminate|].
    intros _; discriminate.
Qed.

Lemma flags_of_classify (self : DePage) (st : Seg) (i : Phrase) (fl : Flags) :
  flags_of self st i = Ok fl ->
  fl = classify self st i (phrase_ave_ts self i)
         (Num.max (bottom i - top i) (ave_cs self)).
Proof.
  unfold flags_of. intro H.
  pose proof (glyph_width_ok i) as Hw.
  destruct (glyph_width i) as [q|e] eqn:Hq; cbn [bind] in H; [|discriminate].
  specialize (Hw (glyph_width_has_text i q Hq)).
  assert (Eq : q = (x1 i - x0 i) / Num.of_nat (String.length (text i)))
    by congruence.
  injection H as <-. unfold phrase_ave_ts. rewrite <- Eq. reflexivity.
Qed.

Lemma tl_app_nonempty {A : Type} (l l' : list A) :
  l <> [] -> tl (l ++ l') = tl l ++ l'.
Proof. destruct l; [congruence|reflexivity]. Qed.

Lemma head_is_text_app (l l' : list InnerObject) :
  head_is_text l = true -> head_is_text (l ++ l') = true.
Proof. destruct l as [|[b t|b t m] l]; simpl; auto; discriminate. Qed.

(** X4.  In normal mode every paragraph after the first one opens with a
    [Text] entry: a [Span] never opens a paragraph, except possibly the
    first paragraph of the page. *)
Theorem later_paragraphs_open_with_text (format_text : string -> string)
    (self self' : DePage) :
  toc_flag self = false ->
  extract_paragraph format_text self = Ok self' ->
  Forall (fun p => head_is_text (inner_objects p) = true)
    (tl (_paragraphs self')).
Proof.
  intros Htoc H. destruct (phrases self) as [ps|] eqn:Hps;
    [|unfold extract_paragraph in H; rewrite Hps in H; discriminate].
  destruct (extract_paragraph_ok format_text self ps self' Hps H)
    as (st & fls & Hl & Hf & _).
  set (P := fun st : Seg =>
         (paragraphs st <> [] -> head_is_text (paragraph_objects st) = true) /\
         Forall (fun p => head_is_text (inner_objects p) = true)
           (tl (paragraphs st))).
  assert (Hst : P st).
  { apply (loop_invariant format_text self P) with (ps := ps)
      (st := seg_init self); [| |exact Hl].
    - intros s s' i (Hopen & Hclosed) Hex Hb.
      destruct (seg_body_inv format_text self s s' i Hex Hb)
        as (fl & sty & Hfl & _ & ->).
      apply flags_of_classify in Hfl.
      unfold P. cbn [paragraphs paragraph_objects].
      destruct (flush_split self fl s)
        as [[_ ->] | (Hpara & Hne & ->)].
      + split; [|exact Hclosed].
        intro Hp. apply head_is_text_app, Hopen, Hp.
      + cbn [paragraphs paragraph_objects app].
        assert (Hline : new_line_flag fl = true).
        { destruct (new_line_flag fl) eqn:E; [reflexivity|].
          rewrite Hfl in E. rewrite Hfl in Hpara.
          rewrite (normal_span_joins self s i _ _ Htoc E) in Hpara.
          discriminate. }
        rewrite Hline. split; [reflexivity|].
        destruct (paragraphs s) as [|p0 rest] eqn:Hps0; [constructor|].
        cbn [app tl]. apply Forall_app. split; [exact Hclosed|].
        constructor; [|constructor]. cbn [inner_objects].
        apply Hopen. discriminate.
    - unfold P. destruct (seg_init_empty self) as [-> _].
      split; [congruence|constructor]. }
  destruct Hst as (Hopen & Hclosed).
  unfold seg_finish in Hf.
  destruct (negb (is_nil (paragraph_objects st))).
  - destruct (infer_style _ _ _ _ _) as [sty|]; cbn [bind] in Hf;
      [|discriminate].
    injection Hf as <-.
    destruct (paragraphs st) as [|p0 rest] eqn:Hps0; [constructor|].
    cbn [app tl]. apply Forall_app. split; [exact Hclosed|].
    constructor; [|constructor]. cbn [inner_objects].
    apply Hopen. discriminate.
  - injection Hf as <-. exact Hclosed.
Qed.

Lemma later_paragraphs_open_with_text_witness :
  exists self',
    extract_paragraph keep_text page_three_lines = Ok self' /\
    List.length (_paragraphs self') = 3%nat /\
    Forall (fun p => head_is_text (inner_objects p) = true)
      (tl (_paragraphs self')).
Proof.
  eexists. split; [vm_compute; reflexivity|]. split; [reflexivity|].
  apply (later_paragraphs_open_with_text keep_text page_three_lines).
  - reflexivity.
  - vm_compute. reflexivity.
Defined.

(** X5.  In table-of-contents mode a [Text] entry is always the first entry
    of its paragraph: in every paragraph all entries after the first are
    [Span]s. *)
Theorem toc_paragraphs_are_lines (format_text : string -> string)
    (self self' : DePage) :
  toc_flag self = true ->
  extract_paragraph format_text self = Ok self' ->
  Forall (fun p => spans_follow (inner_objects p)) (_paragraphs self').
Proof.
  intros Htoc H. destruct (phrases self) as [ps|] eqn:Hps;
    [|unfold extract_paragraph in H; rewrite Hps in H; discriminate].
  destruct (extract_paragraph_ok format_text self ps self' Hps H)
    as (st & fls & Hl & Hf & _).
  set (P := fun st : Seg =>
         spans_follow (paragraph_objects st) /\
         Forall (fun p => spans_follow (inner_objects p)) (paragraphs st)).
  assert (Hst : P st).
  { apply (loop_invariant format_text self P) with (ps := ps)
      (st := seg_init self); [| |exact Hl].
    - intros s s' i (Hopen & Hclosed) Hex Hb.
      destruct (seg_body_inv format_text self s s' i Hex Hb)
        as (fl & sty & Hfl & _ & ->).
      apply flags_of_classify in Hfl.
      destruct (toc_flags self s i (phrase_ave_ts self i)
                  (Num.max (bottom i - top i) (ave_cs self)) Htoc)
        as (_ & _ & Hline & _).
      rewrite <- Hfl in Hline.
      unfold P. cbn [paragraphs paragraph_objects].
      destruct (flush_split self fl s)
        as [[Hwhy ->] | (Hpara & Hne & ->)].
      + split; [|exact Hclosed]. unfold spans_follow in *.
        destruct (paragraph_objects s) as [|o os] eqn:Ho;
          [constructor|].
        cbn [app tl] in *. apply Forall_app. split; [exact Hopen|].
        destruct Hwhy as [Hwhy|Hwhy]; [|discriminate].
        destruct (new_line_flag fl);
          [rewrite (Hline eq_refl) in Hwhy; discriminate|].
        constructor; [reflexivity|constructor].
      + cbn [paragraphs paragraph_objects app]. split.
        * unfold spans_follow. constructor.
        * apply Forall_app. split; [exact Hclosed|].
          constructor; [exact Hopen|constructor].
    - unfold P. destruct (seg_init_empty self) as [-> ->].
      split; constructor. }
  destruct Hst as (Hopen & Hclosed).
  unfold seg_finish in Hf.
  destruct (negb (is_nil (paragraph_objects st))).
  - destruct (infer_style _ _ _ _ _) as [sty|]; cbn [bind] in Hf;
      [|discriminate].
    injection Hf as <-. apply Forall_app. split; [exact Hclosed|].
    constructor; [exact Hopen|constructor].
  - injection Hf as <-. exact Hclosed.
Qed.

Lemma toc_paragraphs_are_lines_witness :
  exists self',
    extract_paragraph keep_text toc_page = Ok self' /\
    map (fun p => map is_text (inner_objects p)) (_paragraphs self') =
      [[true]; [true; false]; [true]] /\
    Forall (fun p => spans_follow (inner_objects p)) (_paragraphs self').
Proof.
  eexists. split; [vm_compute; reflexivity|]. split; [reflexivity|].
  apply (toc_paragraphs_are_lines keep_text toc_page).
  - reflexivity.
  - vm_compute. reflexivity.
Defined.

Lemma infer_style_plain (self : DePage) (ts l : Q) (sty : Style) :
  infer_style self ts false false l = Ok sty -> plain_alignment sty.
Proof.
  unfold infer_style. destruct (border self) as [[[ll t'] lr] tb].
  destruct (Num.div _ _) as [r|]; cbn [bind]; [|discriminate].
  intro H. injection H as <-.
  destruct (r >=? Num.float_0_3); split; reflexivity.
Qed.

(** X6.  In table-of-contents mode no paragraph is given an alignment or a
    left margin: the style of every paragraph has at most the key
    [font-size]. *)
Theorem toc_paragraphs_plain (format_text : string -> string)
    (self self' : DePage) :
  toc_flag self = true ->
  extract_paragraph format_text self = Ok self' ->
  Forall (fun p => plain_alignment (style p)) (_paragraphs self').
Proof.
  intros Htoc H. destruct (phrases self) as [ps|] eqn:Hps;
    [|unfold extract_paragraph in H; rewrite Hps in H; discriminate].
  destruct (extract_paragraph_ok format_text self ps self' Hps H)
    as (st & fls & Hl & Hf & _).
  set (P := fun st : Seg =>
         plain_alignment (para_style st) /\
         center_flag st = false /\ div_flag st = false /\
         Forall (fun p => plain_alignment (style p)) (paragraphs st)).
  assert (Hst : P st).
  { apply (loop_invariant format_text self P) with (ps := ps)
      (st := seg_init self); [| |exact Hl].
    - intros s s' i (Hsty & _ & _ & Hclosed) Hex Hb.
      destruct (seg_body_inv format_text self s s' i Hex Hb)
        as (fl & sty & Hfl & Hnew & ->).
      apply flags_of_classify in Hfl.
      destruct (toc_flags self s i (phrase_ave_ts self i)
                  (Num.max (bottom i - top i) (ave_cs self)) Htoc)
        as (Hc & Hd & _ & _).
      rewrite <- Hfl in Hc, Hd. rewrite Hc, Hd in *.
      unfold P. cbn [para_style center_flag div_flag paragraphs].
      assert (Hflush : plain_alignment (para_style (flush self fl s)) /\
                Forall (fun p => plain_alignment (style p))
                  (paragraphs (flush self fl s))).
      { destruct (flush_split self fl s) as [[_ ->] | (_ & _ & ->)];
          [auto|].
        cbn [para_style paragraphs]. split; [split; reflexivity|].
        apply Forall_app. split; [exact Hclosed|].
        constructor; [exact Hsty|constructor]. }
      destruct Hflush as [Hs1 Hp1].
      repeat split; try reflexivity; try exact Hp1.
      + destruct (style_is_empty (para_style (flush self fl s))).
        * apply (infer_style_plain self _ _ _ Hnew).
        * injection Hnew as <-. apply Hs1.
      + destruct (style_is_empty (para_style (flush self fl s))).
        * apply (infer_style_plain self _ _ _ Hnew).
        * injection Hnew as <-. apply Hs1.
    - unfold P, seg_init. destruct (border self) as [[[ll t'] lr] tb].
      cbn. repeat split; constructor. }
  destruct Hst as (_ & Hc & Hd & Hclosed).
  unfold seg_finish in Hf.
  destruct (negb (is_nil (paragraph_objects st))).
  - rewrite Hc, Hd in Hf.
    destruct (infer_style _ _ _ _ _) as [sty|] eqn:Hsty; cbn [bind] in Hf;
      [|discriminate].
    injection Hf as <-. apply Forall_app. split; [exact Hclosed|].
    constructor; [|constructor]. cbn [style].
    apply (infer_style_plain self _ _ _ Hsty).
  - injection Hf as <-. exact Hclosed.
Qed.

Lemma toc_paragraphs_plain_witness :
  exists self',
    extract_paragraph keep_text toc_page = Ok self' /\
    Forall (fun p => plain_alignment (style p)) (_paragraphs self').
Proof.
  eexists. split; [vm_compute; reflexivity|].
  apply (toc_paragraphs_plain keep_text toc_page).
  - reflexivity.
  - vm_compute. reflexivity.
Defined.

Lemma infer_style_font (self : DePage) (ts l : Q) (c d : bool) (sty : Style) :
  0 < ave_cs self -> ave_cs self <= ts ->
  infer_style self ts c d l = Ok sty -> font_size_ok self sty.
Proof.
  intros Hpos Hts. unfold infer_style.
  destruct (border self) as [[[ll t'] lr] tb].
  assert (Hnz : ~ ave_cs self == 0).
  { intro E. rewrite E in Hpos. apply (Qlt_irrefl 0 Hpos). }
  rewrite (div_ok _ _ Hnz). cbn [bind]. cbv zeta.
  destruct (Qabs (ts - ave_cs self) / ave_cs self >=? Num.float_0_3) eqn:E.
  - apply geb_true in E.
    assert (Habs : Qabs (ts - ave_cs self) == ts - ave_cs self).
    { apply Qabs_pos. lra. }
    rewrite Habs in E.
    assert (Hmul : Num.float_0_3 * ave_cs self <= ts - ave_cs self).
    { assert (Hr : (ts - ave_cs self) / ave_cs self * ave_cs self
                   == ts - ave_cs self) by (field; exact Hnz).
      rewrite <- Hr. apply Qmult_le_compat_r; [exact E|].
      apply Qlt_le_weak, Hpos. }
    assert (Hgoal : (1 + Num.float_0_3) * ave_cs self <= ts).
    { setoid_replace ((1 + Num.float_0_3) * ave_cs self)
        with (ave_cs self + Num.float_0_3 * ave_cs self) by ring.
      lra. }
    intros H f Hf.
    destruct c; [|destruct d]; injection H as <-; simpl in Hf;
      injection Hf as <-; exact Hgoal.
  - intros H f Hf.
    destruct c; [|destruct d]; injection H as <-; simpl in Hf; discriminate.
Qed.

(** X7.  With a positive [ave_cs], a [font-size] recorded in the style of a
    paragraph is never below [(1 + 0.3) * ave_cs]: the override only records
    glyph widths at least 30% above the page average, never smaller
    ones. *)
Theorem font_size_only_larger (format_text : string -> string)
    (self self' : DePage) :
  0 < ave_cs self ->
  extract_paragraph format_text self = Ok self' ->
  Forall (fun p => font_size_ok self (style p)) (_paragraphs self').
Proof.
  intros Hpos H. destruct (phrases self) as [ps|] eqn:Hps;
    [|unfold extract_paragraph in H; rewrite Hps in H; discriminate].
  destruct (extract_paragraph_ok format_text self ps self' Hps H)
    as (st & fls & Hl & Hf & _).
  set (P := fun st : Seg =>
         ave_cs self <= ave_ts st /\
         font_size_ok self (para_style st) /\
         Forall (fun p => font_size_ok self (style p)) (paragraphs st)).
  assert (Hempty : font_size_ok self empty_style).
  { intros f Hf0. discriminate. }
  assert (Hst : P st).
  { apply (loop_invariant format_text self P) with (ps := ps)
      (st := seg_init self); [| |exact Hl].
    - intros s s' i (Hts & Hsty & Hclosed) Hex Hb.
      destruct (seg_body_inv format_text self s s' i Hex Hb)
        as (fl & sty & _ & Hnew & ->).
      unfold P. cbn [para_style ave_ts paragraphs].
      assert (Hw : ave_cs self <= phrase_ave_ts self i) by apply max_ge_r.
      assert (Hflush : font_size_ok self (para_style (flush self fl s)) /\
                Forall (fun p => font_size_ok self (style p))
                  (paragraphs (flush self fl s))).
      { destruct (flush_split self fl s) as [[_ ->] | (_ & _ & ->)];
          [auto|].
        cbn [para_style paragraphs]. split; [exact Hempty|].
        apply Forall_app. split; [exact Hclosed|].
        constructor; [exact Hsty|constructor]. }
      destruct Hflush as [Hs1 Hp1].
      split; [exact Hw|]. split; [|exact Hp1].
      destruct (style_is_empty (para_style (flush self fl s))).
      + apply (infer_style_font self _ _ _ _ _ Hpos Hw Hnew).
      + injection Hnew as <-. exact Hs1.
    - unfold P, seg_init. destruct (border self) as [[[ll t'] lr] tb].
      cbn [ave_ts para_style paragraphs].
      split; [apply Qle_refl|]. split; [exact Hempty|constructor]. }
  destruct Hst as (Hts & _ & Hclosed).
  unfold seg_finish in Hf.
  destruct (negb (is_nil (paragraph_objects st))).
  - destruct (infer_style _ _ _ _ _) as [sty|] eqn:Hsty; cbn [bind] in Hf;
      [|discriminate].
    injection Hf as <-. apply Forall_app. split; [exact Hclosed|].
    constructor; [|constructor]. cbn [style].
    apply (infer_style_font self _ _ _ _ _ Hpos Hts Hsty).
  - injection Hf as <-. exact Hclosed.
Qed.

Lemma font_size_only_larger_witness :
  exists self',
    extract_paragraph keep_text toc_page = Ok self' /\
    map (fun p => font_size (style p)) (_paragraphs self') =
      [None;
       Some (phrase_ave_ts toc_page (word 50 126 300 138 "2 Method ........."));
       None] /\
    Forall (fun p => font_size_ok toc_page (style p)) (_paragraphs self').
Proof.
  eexists. split; [vm_compute; reflexivity|]. split.
  - vm_compute. reflexivity.
  - apply (font_size_only_larger keep_text toc_page).
    + vm_compute. reflexivity.
    + vm_compute. reflexivity.
Defined.

(** X8.  With [phrases] set and [ave_cs] not zero, [extract_paragraph]
    returns exactly when every phrase that survives the exclusion lists has
    a text and, if there is such a phrase, the first phrase of the page has
    one too; in every other case it raises. *)
Theorem extract_paragraph_returns_iff (format_text : string -> string)
    (self : DePage) (ps : list Phrase) :
  phrases self = Some ps ->
  ~ ave_cs self == 0 ->
  (exists self', extract_paragraph format_text self = Ok self') <->
  (Forall has_text (survivors self ps) /\
   (survivors self ps <> [] ->
    forall first rest, ps = first :: rest -> has_text first)).
Proof.
  intros Hps Hcs. split.
  - intros [self' H].
    destruct (extract_paragraph_ok format_text self ps self' Hps H)
      as (st & fls & Hl & Hf & Hc & _).
    split; [apply (loop_has_text format_text self ps (seg_init self) st Hl)|].
    intros Hne first rest ->.
    pose proof (loop_last format_text self (first :: rest) (seg_init self) st Hl)
      as Hlast.
    destruct (survivors self (first :: rest)) as [|j js]; [congruence|].
    destruct Hlast as [Hobj _].
    pose proof (seg_finish_nonempty self st _ Hf Hobj) as Hparas.
    unfold continuation_flags in Hc.
    destruct (border self) as [[[ll t'] lr] tb].
    destruct (_paragraphs self') as [|para paras]; [congruence|].
    cbn [is_nil negb] in Hc.
    destruct (glyph_width first) as [g|e] eqn:Hg; cbn [bind] in Hc;
      [|discriminate].
    apply (glyph_width_has_text first g Hg).
  - intros [Htext Hfirst].
    destruct (loop_total format_text self ps (seg_init self) Htext Hcs)
      as [st Hl].
    destruct (seg_finish_total self st Hcs) as [paras Hf].
    assert (Hc : exists fls, continuation_flags self ps paras st = Ok fls).
    { destruct (survivors self ps) as [|j js] eqn:Hsurv.
      - pose proof (loop_last format_text self ps (seg_init self) st Hl)
          as Hlast.
        rewrite Hsurv in Hlast. subst st.
        unfold seg_finish in Hf. destruct (seg_init_empty self) as [E1 E2].
        rewrite E1, E2 in Hf. cbn [is_nil negb] in Hf. injection Hf as <-.
        unfold continuation_flags.
        destruct (border self) as [[[ll t'] lr] tb]. cbn. eauto.
      - destruct (continuation_flags_total self ps paras st) as (fls & Hc & _);
          [|eauto].
        apply Hfirst. discriminate. }
    destruct Hc as [fls Hc].
    eexists. unfold extract_paragraph. rewrite Hps, Hl. cbn [bind].
    rewrite Hf. cbn [bind]. rewrite Hc. reflexivity.
Qed.

Lemma extract_paragraph_returns_iff_witness :
  (exists self', extract_paragraph keep_text page_with_caption = Ok self') /\
  ~ (exists self', extract_paragraph keep_text page_empty_text = Ok self').
Proof.
  split.
  - apply (extract_paragraph_returns_iff keep_text page_with_caption
             [caption; body_line]); [reflexivity|vm_compute; discriminate|].
    split.
    + vm_compute. repeat constructor; discriminate.
    + intros _ first rest E. injection E as <- _. vm_compute. discriminate.
  - intro H.
    apply (extract_paragraph_returns_iff keep_text page_empty_text
             [word 50 100 200 112 ""]) in H;
      [|reflexivity|vm_compute; discriminate].
    destruct H as [H _]. vm_compute in H. inversion H as [|? ? Ht _].
    apply Ht. reflexivity.
Defined.

(** X9.  In normal mode the entry made from a phrase is a [Span] exactly
    when the phrase sits on the line of the previous one: its bottom is less
    than a quarter of the line height below the previous bottom, its left
    edge is at least two glyph widths away from the previous right edge, and
    its top is within half a glyph width of the previous top.  Such a phrase
    never opens a paragraph: it joins the entries that are open. *)
Theorem span_on_same_line (format_text : string -> string) (self : DePage)
    (st st' : Seg) (i : Phrase) :
  toc_flag self = false ->
  excluded self i = false ->
  seg_body format_text self st i = Ok st' ->
  let ts := phrase_ave_ts self i in
  let th := Num.max (bottom i - top i) (ave_cs self) in
  (is_text (last (paragraph_objects st') (Text (0, 0, 0, 0) "")) = false <->
   (bottom i - p_bottom st < th / 4 /\
    ts * 2 <= Qabs (x0 i - p_right st) /\
    Qabs (top i - p_top st) <= ts / 2)) /\
  (is_text (last (paragraph_objects st') (Text (0, 0, 0, 0) "")) = false ->
   paragraphs st' = paragraphs st /\
   exists o, paragraph_objects st' = paragraph_objects st ++ [o]).
Proof.
  intros Htoc Hex Hb ts th.
  destruct (seg_body_inv format_text self st st' i Hex Hb)
    as (fl & sty & Hfl & _ & ->).
  apply flags_of_classify in Hfl. fold ts th in Hfl.
  cbn [paragraph_objects paragraphs]. rewrite last_last.
  assert (Hobj : forall b, is_text (if new_line_flag fl
                   then Text (phrase_bbox i) (clean_text format_text i)
                   else Span (phrase_bbox i) (clean_text format_text i) b)
                 = new_line_flag fl).
  { intro b. destruct (new_line_flag fl); reflexivity. }
  rewrite Hobj. split.
  - rewrite Hfl. unfold classify, classify_normal. rewrite Htoc.
    destruct (border self) as [[[ll t'] lr] tb].
    destruct (bottom i - p_bottom st >=? th / 4) eqn:E1.
    + apply geb_true in E1. split.
      * match goal with
        | |- context [if ?c then mkFlags true ?a ?b ?d else ?e] => destruct c
        end; cbn [new_line_flag]; discriminate.
      * intros (Hlt & _). exfalso. apply (Qlt_not_le _ _ Hlt E1).
    + apply geb_false in E1.
      destruct (Qabs (x0 i - p_right st) >=? ts * 2) eqn:E2.
      * apply geb_true in E2.
        destruct (Qabs (top i - p_top st) <=? ts / 2) eqn:E3.
        -- apply leb_true in E3. cbn [new_line_flag]. split; auto.
        -- apply leb_false in E3. cbn [new_line_flag]. split; [discriminate|].
           intros (_ & _ & Hle). exfalso. apply (Qlt_not_le _ _ E3 Hle).
      * apply geb_false in E2. cbn [new_line_flag]. split; [discriminate|].
        intros (_ & Hle & _). exfalso. apply (Qlt_not_le _ _ E2 Hle).
  - intro Hspan. rewrite Hfl in Hspan.
    pose proof (normal_span_joins self st i ts th Htoc Hspan) as Hpara.
    rewrite <- Hfl in Hpara.
    rewrite (flush_nothing self fl st (or_introl Hpara)).
    split; [reflexivity|]. eexists. reflexivity.
Qed.

Lemma span_on_same_line_witness :
  exists st',
    seg_body keep_text page_with_caption
      (mkSeg 100 100 180 112 100 10 false false 1%nat []
         [Text (100, 100, 180, 112) "heading"] empty_style)
      (word 260 100 300 112 "2024") = Ok st' /\
    is_text (last (paragraph_objects st') (Text (0, 0, 0, 0) "")) = false.
Proof.
  set (s0 := mkSeg 100 100 180 112 100 10 false false 1%nat []
               [Text (100, 100, 180, 112) "heading"] empty_style).
  set (w := word 260 100 300 112 "2024").
  destruct (seg_body keep_text page_with_caption s0 w) as [st'|e] eqn:Hb;
    [|vm_compute in Hb; discriminate].
  exists st'. split; [reflexivity|].
  assert (Hex : excluded page_with_caption w = false)
    by (vm_compute; reflexivity).
  apply (span_on_same_line keep_text page_with_caption s0 st' w
           eq_refl Hex Hb).
  split; [|split].
  - vm_compute. reflexivity.
  - vm_compute. discriminate.
  - vm_compute. discriminate.
Defined.

(** *** The content frame, once more *)

Lemma max_list_upper (l : list Q) : forall x,
  x <= Num.max_list x l /\ forall y, In y l -> y <= Num.max_list x l.
Proof.
  unfold Num.max_list. induction l as [|a l IH]; intro x; simpl.
  - split; [apply Qle_refl|]. intros y [].
  - destruct (IH (Num.max x a)) as [H1 H2]. split.
    + eapply Qle_trans; [apply max_ge_l|exact H1].
    + intros y [<-|Hy]; [|apply H2, Hy].
      eapply Qle_trans; [apply max_ge_r|exact H1].
Qed.

Lemma min_le_l (a b : Q) : Num.min a b <= a.
Proof.
  unfold Num.min. destruct (b <? a) eqn:E.
  - apply ltb_true in E. apply Qlt_le_weak, E.
  - apply Qle_refl.
Qed.

Lemma min_le_r (a b : Q) : Num.min a b <= b.
Proof.
  unfold Num.min. destruct (b <? a) eqn:E.
  - apply Qle_refl.
  - apply ltb_false in E. exact E.
Qed.

Lemma min_list_lower (l : list Q) : forall x,
  Num.min_list x l <= x /\ forall y, In y l -> Num.min_list x l <= y.
Proof.
  unfold Num.min_list. induction l as [|a l IH]; intro x; simpl.
  - split; [apply Qle_refl|]. intros y [].
  - destruct (IH (Num.min x a)) as [H1 H2]. split.
    + eapply Qle_trans; [exact H1|apply min_le_l].
    + intros y [<-|Hy]; [|apply H2, Hy].
      eapply Qle_trans; [exact H1|apply min_le_r].
Qed.

Lemma filter_r_complete {A : Type} (test : A -> result bool) (l : list A) :
  forall l', filter_r test l = Ok l' ->
  forall x, In x l -> test x = Ok true -> In x l'.
Proof.
  induction l as [|a l IH]; intros l' H x Hx Ht; [inversion Hx|].
  simpl in H.
  destruct (test a) as [b|e] eqn:Ha; cbn [bind] in H; [|discriminate].
  destruct (filter_r test l) as [rest|e]; cbn [bind] in H; [|discriminate].
  injection H as <-. destruct Hx as [->|Hx].
  - rewrite Ht in Ha. injection Ha as <-. left. reflexivity.
  - specialize (IH rest eq_refl x Hx Ht). destruct b; [right|]; exact IH.
Qed.

Lemma filter_r_none {A : Type} (test : A -> result bool) (l : list A) :
  (forall x, In x l -> test x = Ok false) -> filter_r test l = Ok [].
Proof.
  induction l as [|a l IH]; intro H; [reflexivity|].
  simpl. rewrite (H a (or_introl eq_refl)). cbn [bind].
  rewrite IH; [reflexivity|]. intros x Hx. apply H. right. exact Hx.
Qed.

(** X10.  After [analyze_main_frame], [frame_top] lies at or below every
    head zone of the page's orientation, margin included, and
    [frame_bottom] at or above the top of every such tail zone; without a
    matching head zone [frame_top] is 0 and without a matching tail zone
    [frame_bottom] is the page height. *)
Theorem frame_clears_zones (self self' : DePage) :
  analyze_main_frame self = Ok self' ->
  (forall h, In h (same self) -> zone_matches self "head" h = Ok true ->
             bottom h + frame_margin self <= frame_top self') /\
  (forall t, In t (same self) -> zone_matches self "tail" t = Ok true ->
             frame_bottom self' <= top t) /\
  ((forall z, In z (same self) -> zone_matches self "head" z = Ok false) ->
   frame_top self' = 0) /\
  ((forall z, In z (same self) -> zone_matches self "tail" z = Ok false) ->
   frame_bottom self' = height self).
Proof.
  intro H. unfold analyze_main_frame in H. fold (frame_margin self) in H.
  destruct (filter_r (zone_matches self "head") (same self)) as [heads|e]
    eqn:Hh; cbn [bind] in H; [|discriminate].
  destruct (filter_r (zone_matches self "tail") (same self)) as [tails|e]
    eqn:Ht; cbn [bind] in H; [|discriminate].
  injection H as <-.
  cbn [frame_top frame_bottom set_frame_top set_frame_bottom].
  set (m := frame_margin self).
  split; [|split; [|split]].
  - intros h Hin Hm.
    pose proof (filter_r_complete _ _ _ Hh h Hin Hm) as Hin'.
    destruct heads as [|h0 heads]; [inversion Hin'|]. cbn [map].
    destruct (max_list_upper (map (fun i => bottom i + m) heads)
                (bottom h0 + m)) as [H1 H2].
    destruct Hin' as [->|Hin']; [exact H1|].
    apply H2. apply in_map_iff. exists h. auto.
  - intros t Hin Hm.
    pose proof (filter_r_complete _ _ _ Ht t Hin Hm) as Hin'.
    destruct tails as [|t0 tails]; [inversion Hin'|]. cbn [map].
    destruct (min_list_lower (map top tails) (top t0)) as [H1 H2].
    destruct Hin' as [->|Hin']; [exact H1|].
    apply H2. apply in_map_iff. exists t. auto.
  - intro Hnone. rewrite (filter_r_none _ _ Hnone) in Hh.
    injection Hh as <-. reflexivity.
  - intro Hnone. rewrite (filter_r_none _ _ Hnone) in Ht.
    injection Ht as <-. reflexivity.
Qed.

Lemma frame_clears_zones_witness :
  exists self',
    analyze_main_frame
      (frame_page [head_zone 20 60; head_zone 30 45; tail_zone 750 780])
      = Ok self' /\
    60 + frame_margin
           (frame_page [head_zone 20 60; head_zone 30 45; tail_zone 750 780])
      <= frame_top self' /\
    frame_bottom self' <= 750.
Proof.
  set (page := frame_page [head_zone 20 60; head_zone 30 45;
                           tail_zone 750 780]).
  destruct (analyze_main_frame page) as [self'|e] eqn:Hf;
    [|vm_compute in Hf; discriminate].
  exists self'. split; [reflexivity|].
  destruct (frame_clears_zones page self' Hf) as (Hhead & Htail & _).
  split.
  - apply (Hhead (head_zone 20 60)); [left; reflexivity|reflexivity].
  - apply (Htail (tail_zone 750 780)); [|reflexivity].
    right. right. left. reflexivity.
Defined.







(** *** Phrase extraction, once more *)

Lemma Qsum_positive (l : list Q) : forall acc,
  Forall (fun x => 0 < x) l ->
  acc <= fold_left Qplus l acc /\ (l <> [] -> acc < fold_left Qplus l acc).
Proof.
  induction l as [|x l IH]; intros acc Hall; simpl.
  - split; [apply Qle_refl|congruence].
  - inversion Hall as [|? ? Hx Hl]; subst.
    destruct (IH (acc + x) Hl) as [H1 _].
    split; [lra|]. intros _. lra.
Qed.

Lemma mean_positive (l : list Q) (m : Q) :
  Forall (fun x => 0 < x) l -> mean l = Ok m -> 0 < m.
Proof.
  intros Hall H. unfold mean in H. destruct l as [|x l]; [discriminate|].
  injection H as <-.
  apply Qlt_shift_div_l.
  - unfold Num.of_nat, Qlt. simpl. lia.
  - rewrite Qmult_0_l. unfold Qsum.
    apply (Qsum_positive (x :: l) 0 Hall). discriminate.
Qed.

(** X12.  The average line height [extract_phrases] stores is strictly
    positive whenever [ave_cs] is: it is the mean of the positive gaps
    between successive phrases, or half of [ave_cs] when no gap is
    positive. *)
Theorem ave_lh_positive
    (analyze_page_num_word : list Phrase -> Q -> Q -> Q -> Q -> Q -> list bool)
    (self : DePage) :
  0 < ave_cs self ->
  0 < ave_lh (extract_phrases analyze_page_num_word self).
Proof.
  intro Hpos. unfold extract_phrases.
  cbn [ave_lh set_pagination_phrases set_ave_lh set_phrases].
  match goal with
  | |- 0 < match mean ?l with _ => _ end =>
      destruct (mean l) as [m|e] eqn:Hm;
      [apply (mean_positive l m); [|exact Hm]|]
  end.
  - apply Forall_forall. intros x Hx. apply filter_In in Hx.
    destruct Hx as [_ Hx]. apply gtb_true in Hx. exact Hx.
  - apply Qlt_shift_div_l; [reflexivity|]. rewrite Qmult_0_l. exact Hpos.
Qed.

Lemma ave_lh_positive_witness :
  0 < ave_lh (extract_phrases no_page_numbers
                (set_page text_page (frame_page []))).
Proof.
  apply (ave_lh_positive no_page_numbers (set_page text_page (frame_page []))).
  reflexivity.
Defined.

Lemma median_in_range (l : list Q) (m : Q) :
  median l = Ok m ->
  exists x y, In x l /\ In y l /\ x <= m /\ m <= y.
Proof.
  intro H. destruct (median_splits l m H)
    as (lo & mid & hi & Hperm & Hlen & Hlo & Hhi & Hmid).
  assert (Hin : forall z, In z (lo ++ mid ++ hi) -> In z l).
  { intros z Hz. eapply Permutation_in; [apply Permutation_sym, Hperm|exact Hz]. }
  destruct lo as [|a lo]; destruct hi as [|b hi]; try discriminate.
  - destruct Hmid as [-> | ->].
    + exfalso. simpl in Hperm. apply Permutation_sym, Permutation_nil in Hperm.
      subst l. discriminate.
    + exists m, m. repeat split; try apply Qle_refl; apply Hin; simpl; auto.
  - inversion Hlo; inversion Hhi; subst.
    exists a, b. repeat split; try assumption; apply Hin.
    + left. reflexivity.
    + apply in_or_app. right. apply in_or_app. right. left. reflexivity.
Qed.

(** X13.  When the crop of a phrase yields glyphs, the top written back
    lies between the tops of two of those glyphs and the bottom between the
    bottoms of two of them: normalisation never moves an edge of a phrase
    beyond the glyphs it is computed from. *)
Theorem normalized_within_glyphs (page : Page) (w : Phrase)
    (chars : list Glyph) :
  page_crop page (phrase_bbox w) = Ok chars ->
  chars <> [] ->
  (exists g1 g2, In g1 chars /\ In g2 chars /\
     g_top g1 <= top (normalize_phrase page w) /\
     top (normalize_phrase page w) <= g_top g2) /\
  (exists g1 g2, In g1 chars /\ In g2 chars /\
     g_bottom g1 <= bottom (normalize_phrase page w) /\
     bottom (normalize_phrase page w) <= g_bottom g2).
Proof.
  intros Hcrop Hne. unfold normalize_phrase.
  change (x0 w, top w, x1 w, bottom w) with (phrase_bbox w).
  rewrite Hcrop. cbn [bind].
  destruct (median_total (map g_top chars)) as [t Ht].
  { destruct chars; [congruence|discriminate]. }
  destruct (median_total (map g_bottom chars)) as [b Hb].
  { destruct chars; [congruence|discriminate]. }
  rewrite Ht, Hb. cbn [bind try_pass top bottom].
  split.
  - destruct (median_in_range _ _ Ht) as (x & y & Hx & Hy & Hxm & Hmy).
    apply in_map_iff in Hx. destruct Hx as (g1 & <- & Hg1).
    apply in_map_iff in Hy. destruct Hy as (g2 & <- & Hg2).
    exists g1, g2. auto.
  - destruct (median_in_range _ _ Hb) as (x & y & Hx & Hy & Hxm & Hmy).
    apply in_map_iff in Hx. destruct Hx as (g1 & <- & Hg1).
    apply in_map_iff in Hy. destruct Hy as (g2 & <- & Hg2).
    exists g1, g2. auto.
Qed.

Lemma normalized_within_glyphs_witness :
  exists g1 g2, In g1 three_glyphs /\ In g2 three_glyphs /\
    g_top g1 <= top (normalize_phrase glyph_page tall_word) /\
    top (normalize_phrase glyph_page tall_word) <= g_top g2.
Proof.
  apply (normalized_within_glyphs glyph_page tall_word three_glyphs).
  - vm_compute. reflexivity.
  - discriminate.
Defined.

(** *** Tolerances and construction, once more *)

(** X15.  Without a configured [y_tolerance] the vertical tolerance is
    never below 3 and never below a third of [ave_cs]. *)
Theorem y_tolerance_floor
    (analyze_char_size : list Glyph -> Q -> Q -> Q -> Q * Q)
    (analyze_page_orientation : Page -> string) (self : DePage) :
  cfg_y_tolerance (_config self) = None ->
  let self' := analyze_page_attributes analyze_char_size
                 analyze_page_orientation self in
  3 <= y_tolerance self' /\ ave_cs self' / 3 <= y_tolerance self'.
Proof.
  intros Hcfg self'. unfold self', analyze_page_attributes.
  set (cs := analyze_char_size _ _ _ _).
  cbn [y_tolerance x_tolerance ave_cs set_x_tolerance set_y_tolerance
       set_orientation set_min_cs set_ave_cs].
  rewrite Hcfg.
  destruct (fst cs / 3 <=? 3) eqn:E.
  - apply leb_true in E. split; [apply Qle_refl|exact E].
  - apply leb_false in E. split; qlra.
Qed.

Lemma y_tolerance_floor_witness :
  3 <= y_tolerance (analyze_page_attributes char_size_12 always_portrait
                      (frame_page [])).
Proof.
  apply (y_tolerance_floor char_size_12 always_portrait (frame_page [])).
  reflexivity.
Defined.

(** X17.  On a constructed page a descriptor that carries the key [level]
    never equals a word of the PDF layer, which has no such key: [same_tmp]
    drops [mode] only, so the test [i in self.same_tmp] of the paragraph
    stage excludes no word on account of such a descriptor. *)
Theorem leveled_zones_match_no_word (default_prefix : string) (p : Page)
    (pid : Z) (zones : list Phrase) (logo : option (list BBox)) (c : Config)
    (self : DePage) (w : Phrase) :
  init default_prefix (Instance p) pid (Some zones) logo (Instance c)
    = Ok self ->
  Forall (fun z => level z <> None) zones ->
  level w = None ->
  py_in w (same_tmp self) = false.
Proof.
  intros H Hall Hw. unfold init in H.
  cbn [check_page_type check_config_type bind] in H. injection H as <-.
  assert (Hsame : forall s, same_tmp (set_global s) = same_tmp s).
  { intro s. unfold set_global.
    destruct (negb _); destruct (negb _); reflexivity. }
  rewrite Hsame. cbn [same_tmp].
  unfold py_in. apply not_true_is_false. intro C.
  apply existsb_exists in C. destruct C as (z' & Hz & Heq).
  apply in_map_iff in Hz. destruct Hz as (z & <- & Hz).
  rewrite Forall_forall in Hall. specialize (Hall z Hz).
  unfold phrase_eqb in Heq. cbn [level without_mode] in Heq.
  rewrite Hw in Heq. destruct (level z); [|congruence].
  cbn [opt_string_eqb] in Heq. rewrite andb_false_r in Heq. discriminate.
Qed.

Lemma leveled_zones_match_no_word_witness :
  exists self,
    init "doc" (Instance text_page) 1
      (Some [mkPhrase 50 100 200 112 fifteen (Some "portrait"%string)
               (Some "head"%string)])
      None (Instance plain_config) = Ok self /\
    py_in (line_A fifteen) (same_tmp self) = false.
Proof.
  eexists. split; [reflexivity|].
  apply (leveled_zones_match_no_word "doc" text_page 1
           [mkPhrase 50 100 200 112 fifteen (Some "portrait"%string)
              (Some "head"%string)] None plain_config).
  - reflexivity.
  - constructor; [discriminate|constructor].
  - reflexivity.
Defined.

(** *** Tables, images and the object list *)

Lemma somes_length {A : Type} (l : list (option A)) :
  (List.length (somes l) <= List.length l)%nat.
Proof.
  induction l as [|[a|] l IH]; simpl; lia.
Qed.

Lemma enumerate_from_length {A : Type} (l : list A) : forall n,
  List.length (enumerate_from n l) = List.length l.
Proof.
  induction l as [|a l IH]; intro n; simpl; [reflexivity|]. now rewrite IH.
Qed.

(** X18.  What [extract_tables] stores when it returns.  A failure of
    [find_tables] is caught: the page then has no raw table and no table.
    Otherwise the raw tables are the tables found, each once, ordered by top
    edge.  In both cases there are at most as many tables as raw tables. *)
Theorem tables_sorted_or_empty
    (convert_plumber_table :
       Page -> RawTable -> Z -> nat -> Config -> Q -> Q -> option Table)
    (self : DePage) :
  let self' := extract_tables convert_plumber_table self in
  (forall ts, page_find_tables (_page self) (table_settings self) = Ok ts ->
     Permutation ts (_tables_raw self') /\
     StronglySorted (key_le (fun t => bbox_top (raw_bbox t)))
       (_tables_raw self')) /\
  (forall e, page_find_tables (_page self) (table_settings self) = Raise e ->
     _tables_raw self' = [] /\ _tables self' = []) /\
  (List.length (_tables self') <= List.length (_tables_raw self'))%nat.
Proof.
  intro self'. unfold self', extract_tables. fold (table_settings self).
  cbn [_tables_raw _tables set_tables set_tables_raw].
  split; [|split].
  - intros ts Hts. rewrite Hts. cbn [bind try_pass]. split.
    + apply sorted_by_perm.
    + apply sorted_by_sorted.
  - intros e Hts. rewrite Hts. cbn [bind try_pass]. split; reflexivity.
  - eapply Nat.le_trans; [apply somes_length|].
    rewrite length_map, enumerate_from_length. apply Nat.le_refl.
Qed.

Lemma tables_sorted_or_empty_witness :
  map raw_bbox
    (_tables_raw (extract_tables numbered_table
                    (set_page figure_layer_page (frame_page [])))) =
    [(50, 200, 300, 300); (50, 400, 300, 500)] /\
  StronglySorted (key_le (fun t => bbox_top (raw_bbox t)))
    (_tables_raw (extract_tables numbered_table
                    (set_page figure_layer_page (frame_page [])))).
Proof.
  split; [vm_compute; reflexivity|].
  pose proof (tables_sorted_or_empty numbered_table
                (set_page figure_layer_page (frame_page []))) as (H & _).
  apply (H [mkRawTable (50, 400, 300, 500) [];
            mkRawTable (50, 200, 300, 300) []]).
  reflexivity.
Defined.

Lemma div_value (a b r : Q) : Num.div a b = Ok r -> r = a / b.
Proof.
  unfold Num.div. destruct (Qeq_bool b 0); [discriminate|]. congruence.
Qed.

Lemma images_loop (self : DePage) (fs : list Figure) : forall n acc imgs,
  for_each (image_body self) (enumerate_from n fs) acc = Ok imgs ->
  imgs = acc ++
         map (figure_image self)
           (filter (fun nf => large_figure self (snd nf)) (enumerate_from n fs)).
Proof.
  induction fs as [|f fs IH]; intros n acc imgs H;
    cbn [for_each enumerate_from] in H.
  - injection H as <-. simpl. now rewrite app_nil_r.
  - destruct (image_body self acc (n, f)) as [acc1|e] eqn:Hb; [|discriminate].
    rewrite (IH _ _ _ H). cbn [enumerate_from filter snd].
    unfold image_body in Hb. unfold large_figure at 2.
    destruct ((f_height f <=? min_image_size (_config self)) ||
              (f_width f <=? min_image_size (_config self))).
    + injection Hb as <-. reflexivity.
    + destruct (page_within_bbox _ _); cbn [bind] in Hb; [|discriminate].
      destruct (Num.div (f_width f * f_height f) (width self)) as [r1|]
        eqn:H1; cbn [bind] in Hb; [|discriminate].
      destruct (Num.div r1 (height self)) as [r2|] eqn:H2; cbn [bind] in Hb;
        [|discriminate].
      injection Hb as <-.
      apply div_value in H1. apply div_value in H2. subst r1 r2.
      cbn [negb map figure_image]. rewrite <- app_assoc. reflexivity.
Qed.

Lemma words_loop (self : DePage) (fs : list Figure) : forall acc,
  fold_left
    (fun words image =>
       try_pass
         (area <- page_within_bbox (_page self) (f_bbox image) ;;
          Ok (words ++ region_words area (ave_cs self * 3 / 2)))
         words)
    fs acc =
  acc ++ List.concat (map (figure_words self) fs).
Proof.
  induction fs as [|f fs IH]; intro acc; simpl.
  - now rewrite app_nil_r.
  - rewrite IH. unfold figure_words at 2.
    destruct (page_within_bbox (_page self) (f_bbox f)); cbn [bind try_pass].
    + now rewrite app_assoc.
    + reflexivity.
Qed.

(** X19.  When [extract_images] returns, the images are made, in order,
    from exactly the figures whose height and width both exceed
    [min_image_size], numbered by their position among all merged figures
    (from 1), with [scan] set when the figure covers at least 0.7 of the
    page area.  The words claimed by images are collected from every merged
    figure whose region can be looked up, the small ones included, and a
    figure whose lookup fails contributes none. *)
Theorem images_from_large_figures
    (merge_page_figures : Page -> list RawTable -> list BBox -> Z -> list Figure)
    (self self' : DePage) :
  extract_images merge_page_figures self = Ok self' ->
  let figs := merge_page_figures (_page self) (_tables_raw self) (logo self)
                (_pid self) in
  _images_raw self' = figs /\
  _images self' =
    map (figure_image self)
      (filter (fun nf => large_figure self (snd nf)) (enumerate_from 0 figs)) /\
  _image_phrases self' = List.concat (map (figure_words self) figs).
Proof.
  intros H figs. unfold extract_images in H. fold figs in H.
  destruct (for_each _ _ _) as [imgs|e] eqn:Hl; cbn [bind] in H;
    [|discriminate].
  injection H as <-.
  cbn [_images_raw _images _image_phrases set_image_phrases set_images
       set_images_raw].
  split; [reflexivity|]. split.
  - apply images_loop in Hl. exact Hl.
  - exact (words_loop (set_images imgs (set_images_raw figs self)) figs []).
Qed.

Lemma images_from_large_figures_witness :
  exists self',
    extract_images two_figures (set_page figure_layer_page (frame_page []))
      = Ok self' /\
    map img_idx (_images self') = [2%nat] /\
    map scan (_images self') = [true] /\
    _image_phrases self' = [caption; caption].
Proof.
  destruct (extract_images two_figures
              (set_page figure_layer_page (frame_page []))) as [self'|e] eqn:H;
    [|vm_compute in H; discriminate].
  exists self'.
  destruct (images_from_large_figures two_figures _ self' H)
    as (_ & Himg & Hwords).
  split; [reflexivity|]. rewrite Himg, Hwords.
  repeat split; vm_compute; reflexivity.
Defined.

Lemma image_body_returns_iff (self : DePage) (acc : list Image) (n : nat)
    (f : Figure) :
  (exists acc', image_body self acc (n, f) = Ok acc') <->
  (large_figure self f = true ->
   is_ok (page_within_bbox (_page self)
            (f_x0 f, f_top f, f_x1 f, f_bottom f)) = true /\
   ~ width self == 0 /\ ~ height self == 0).
Proof.
  unfold image_body, large_figure.
  destruct ((f_height f <=? min_image_size (_config self)) ||
            (f_width f <=? min_image_size (_config self))); cbn [negb].
  - split; [discriminate|eauto].
  - destruct (page_within_bbox (_page self) _) as [r|e]; cbn [bind is_ok].
    + unfold Num.div.
      destruct (Qeq_bool (width self) 0) eqn:Ew; cbn [bind].
      * split; [intros [acc' H]; discriminate|].
        intro H. destruct (H eq_refl) as (_ & Hw & _).
        apply Qeq_bool_iff in Ew. contradiction.
      * destruct (Qeq_bool (height self) 0) eqn:Eh; cbn [bind].
        -- split; [intros [acc' H]; discriminate|].
           intro H. destruct (H eq_refl) as (_ & _ & Hh).
           apply Qeq_bool_iff in Eh. contradiction.
        -- split; [|eauto]. intros _ _. split; [reflexivity|].
           split; intro C; apply Qeq_bool_iff in C; congruence.
    + split; [intros [acc' H]; discriminate|].
      intro H. destruct (H eq_refl) as (C & _). discriminate.
Qed.

(** X20.  [extract_images] returns only if, for every merged figure that
    is large enough to become an image, the region lookup succeeds and
    neither the page width nor the page height is zero.  The lookup of the
    image loop is not guarded: its failure is raised to the caller, while
    the same failure in the word loop is skipped; figures that are too small
    never make it fail. *)
Theorem extract_images_returns_only_if
    (merge_page_figures : Page -> list RawTable -> list BBox -> Z -> list Figure)
    (self self' : DePage) :
  extract_images merge_page_figures self = Ok self' ->
  Forall (fun f =>
            large_figure self f = true ->
            is_ok (page_within_bbox (_page self)
                     (f_x0 f, f_top f, f_x1 f, f_bottom f)) = true /\
            ~ width self == 0 /\ ~ height self == 0)
    (merge_page_figures (_page self) (_tables_raw self) (logo self)
       (_pid self)).
Proof.
  unfold extract_images.
  set (figs := merge_page_figures (_page self) (_tables_raw self) (logo self)
                 (_pid self)).
  set (s := set_images_raw figs self).
  assert (Hloop : forall fs n acc imgs,
            for_each (image_body s) (enumerate_from n fs) acc = Ok imgs ->
            Forall (fun f =>
                      large_figure self f = true ->
                      is_ok (page_within_bbox (_page self)
                               (f_x0 f, f_top f, f_x1 f, f_bottom f)) = true /\
                      ~ width self == 0 /\ ~ height self == 0) fs).
  { induction fs as [|f fs IH]; intros n acc imgs;
      cbn [for_each enumerate_from]; [constructor|].
    pose proof (image_body_returns_iff s acc n f) as Hb.
    destruct (image_body s acc (n, f)) as [acc1|e]; [|discriminate].
    intro H. constructor; [|exact (IH _ _ _ H)]. apply Hb. eauto. }
  destruct (for_each (image_body s) (enumerate_from 0 figs) [])
    as [imgs|e] eqn:Hl; cbn [bind]; [|discriminate].
  intros _. exact (Hloop figs 0%nat [] imgs Hl).
Qed.

Lemma extract_images_returns_only_if_witness :
  Forall (fun f =>
            large_figure (set_page figure_layer_page (frame_page [])) f = true ->
            is_ok (page_within_bbox figure_layer_page
                     (f_x0 f, f_top f, f_x1 f, f_bottom f)) = true)
    [small_figure; big_figure].
Proof.
  destruct (extract_images two_figures
              (set_page figure_layer_page (frame_page []))) as [self'|e] eqn:H;
    [|vm_compute in H; discriminate].
  pose proof (extract_images_returns_only_if two_figures _ self' H) as Hall.
  eapply Forall_impl; [|exact Hall].
  intros f Hf Hl. destruct (Hf Hl) as [Hok _]. exact Hok.
Defined.

Lemma paragraphs_of_perm (l l' : list PageObject) :
  Permutation l l' -> Permutation (paragraphs_of l) (paragraphs_of l').
Proof.
  intro H. induction H as [|x l l' H IH|x y l|l l' l'' H1 IH1 H2 IH2].
  - constructor.
  - destruct x; simpl; [exact IH|constructor; exact IH|exact IH].
  - destruct x; destruct y; simpl; try apply Permutation_refl.
    apply perm_swap.
  - eapply perm_trans; eauto.
Qed.

Lemma tables_of_perm (l l' : list PageObject) :
  Permutation l l' -> Permutation (tables_of l) (tables_of l').
Proof.
  intro H. induction H as [|x l l' H IH|x y l|l l' l'' H1 IH1 H2 IH2].
  - constructor.
  - destruct x; simpl; [constructor; exact IH|exact IH|exact IH].
  - destruct x; destruct y; simpl; try apply Permutation_refl.
    apply perm_swap.
  - eapply perm_trans; eauto.
Qed.

Lemma paragraphs_of_objects (ts : list Table) (ps : list Paragraph)
    (ims : list Image) :
  paragraphs_of (map OTable ts ++ map OParagraph ps ++ map OImage ims) = ps.
Proof.
  induction ts as [|t ts IH]; simpl; [|exact IH].
  induction ps as [|p ps IHp]; simpl; [|now rewrite IHp].
  induction ims as [|i ims IHi]; simpl; [reflexivity|exact IHi].
Qed.

Lemma tables_of_objects (ts : list Table) (ps : list Paragraph)
    (ims : list Image) :
  tables_of (map OTable ts ++ map OParagraph ps ++ map OImage ims) = ts.
Proof.
  induction ts as [|t ts IH]; simpl; [|now rewrite IH].
  induction ps as [|p ps IHp]; simpl; [|exact IHp].
  induction ims as [|i ims IHi]; simpl; [reflexivity|exact IHi].
Qed.

Lemma sorted_objects (paragraph_bbox : Paragraph -> BBox) (ts : list Table)
    (ps : list Paragraph) (ims : list Image) (objs : list PageObject) :
  sorted_by (fun o => bbox_top (object_bbox paragraph_bbox o))
    (map OTable ts ++ map OParagraph ps ++ map OImage ims) = objs ->
  StronglySorted
    (key_le (fun o => bbox_top (object_bbox paragraph_bbox o))) objs /\
  Permutation (map OTable ts ++ map OParagraph ps ++ map OImage ims) objs /\
  Permutation (paragraphs_of objs) ps /\
  Permutation (tables_of objs) ts.
Proof.
  intros <-.
  pose proof (sorted_by_perm
                (fun o => bbox_top (object_bbox paragraph_bbox o))
                (map OTable ts ++ map OParagraph ps ++ map OImage ims))
    as Hperm.
  split; [apply sorted_by_sorted|]. split; [exact Hperm|]. split.
  - rewrite <- (paragraphs_of_objects ts ps ims) at 2.
    apply paragraphs_of_perm, Permutation_sym, Hperm.
  - rewrite <- (tables_of_objects ts ps ims) at 2.
    apply tables_of_perm, Permutation_sym, Hperm.
Qed.

(** X21.  The object list [process_page] returns holds every table,
    paragraph and image of the page exactly once, ordered by top edge.  The
    properties [paragraphs] and [tables], which filter that list by class,
    therefore return the paragraphs and the tables of the page, each
    once. *)
Theorem objects_sorted_and_complete
    (format_text : string -> string)
    (remove_duplicate_chars : Page -> Q -> Page)
    (analyze_char_size : list Glyph -> Q -> Q -> Q -> Q * Q)
    (analyze_page_orientation : Page -> string)
    (analyze_page_num_word : list Phrase -> Q -> Q -> Q -> Q -> Q -> list bool)
    (edges_to_lines : list Line -> list Line * list Line)
    (remove_single_lines : list Line -> Q -> Q -> Q -> bool -> list Line)
    (curve_to_lines : list Curve -> list Line * list Line)
    (convert_plumber_table :
       Page -> RawTable -> Z -> nat -> Config -> Q -> Q -> option Table)
    (merge_page_figures : Page -> list RawTable -> list BBox -> Z -> list Figure)
    (calculate_paragraph_border : DePage -> BBox)
    (paragraph_bbox : Paragraph -> BBox)
    (self self' : DePage) (objs : list PageObject) :
  process_page format_text remove_duplicate_chars analyze_char_size
    analyze_page_orientation analyze_page_num_word edges_to_lines
    remove_single_lines curve_to_lines convert_plumber_table
    merge_page_figures calculate_paragraph_border paragraph_bbox self
    = Ok (self', objs) ->
  StronglySorted
    (key_le (fun o => bbox_top (object_bbox paragraph_bbox o))) objs /\
  Permutation
    (map OTable (_tables self') ++ map OParagraph (_paragraphs self') ++
     map OImage (_images self'))
    objs /\
  Permutation (paragraphs_of objs) (_paragraphs self') /\
  Permutation (tables_of objs) (_tables self').
Proof.
  unfold process_page.
  destruct (stages_before_paragraphs _ _ _ _ _ _ _ _ _ self) as [s1|];
    cbn [bind]; [|discriminate].
  destruct (paragraph_flag (_config s1)).
  - destruct (extract_paragraph _ _) as [s2|]; cbn [bind]; [|discriminate].
    intro H. injection H as Hs Ho. subst s2.
    apply (sorted_objects paragraph_bbox _ _ _ objs Ho).
  - cbn [bind]. intro H. injection H as Hs Ho. subst s1.
    apply (sorted_objects paragraph_bbox _ _ _ objs Ho).
Qed.

Lemma objects_sorted_and_complete_witness :
  exists self' objs,
    process_page keep_text keep_chars char_size_12 always_portrait
      no_page_numbers no_lines keep_lines no_curve_lines numbered_table
      two_figures body_border first_entry_bbox
      (set_page figure_layer_page (frame_page [])) = Ok (self', objs) /\
    map (fun o => bbox_top (object_bbox first_entry_bbox o)) objs =
      [0; 100; 200; 400] /\
    Permutation (paragraphs_of objs) (_paragraphs self').
Proof.
  destruct (process_page keep_text keep_chars char_size_12 always_portrait
              no_page_numbers no_lines keep_lines no_curve_lines
              numbered_table two_figures body_border first_entry_bbox
              (set_page figure_layer_page (frame_page [])))
    as [[self' objs]|e] eqn:H; [|vm_compute in H; discriminate].
  exists self', objs. split; [reflexivity|]. split.
  - vm_compute in H. injection H as <- <-. vm_compute. reflexivity.
  - apply (objects_sorted_and_complete keep_text keep_chars char_size_12
             always_portrait no_page_numbers no_lines keep_lines
             no_curve_lines numbered_table two_figures body_border
             first_entry_bbox _ self' objs H).
Defined.

(** *** Order statistics *)

Lemma count_le_perm (x : Q) (l l' : list Q) :
  Permutation l l' -> count_le x l = count_le x l'.
Proof.
  unfold count_le.
  induction 1 as [|a l l' _ IH|a b l|l l' l'' _ IH1 _ IH2]; simpl.
  - reflexivity.
  - destruct (a <=? x); simpl; congruence.
  - destruct (a <=? x), (b <=? x); reflexivity.
  - congruence.
Qed.

Lemma count_le_none (x : Q) (l : list Q) :
  Forall (fun z => x < z) l -> count_le x l = 0%nat.
Proof.
  unfold count_le. induction 1 as [|z l Hz _ IH]; simpl; [reflexivity|].
  apply leb_false in Hz. rewrite Hz. exact IH.
Qed.

(** In sorted data the entry at position [k] has more than [k] data not
    above it. *)
Lemma sorted_nth_count (s : list Q) :
  StronglySorted (key_le (fun x => x)) s ->
  forall k, (k < List.length s)%nat -> (k < count_le (nth k s 0%Q) s)%nat.
Proof.
  induction 1 as [|y ys Hs IH Hy]; intros k Hk; [simpl in Hk; lia|].
  destruct k as [|k]; cbn [nth]; unfold count_le; cbn [filter].
  - assert (E : (y <=? y) = true) by (apply leb_true, Qle_refl).
    rewrite E. simpl. lia.
  - simpl in Hk. assert (Hk' : (k < List.length ys)%nat) by lia.
    assert (E : (y <=? nth k ys 0) = true).
    { apply leb_true. rewrite Forall_forall in Hy.
      apply (Hy (nth k ys 0)). apply nth_In, Hk'. }
    rewrite E. cbn [List.length]. specialize (IH k Hk').
    unfold count_le in IH. lia.
Qed.

(** In sorted data, when more than [k] data are not above [x], the entry at
    position [k] is not above [x]. *)
Lemma count_nth_sorted (x : Q) (s : list Q) :
  StronglySorted (key_le (fun x => x)) s ->
  forall k, (k < count_le x s)%nat -> nth k s 0 <= x.
Proof.
  induction 1 as [|y ys Hs IH Hy]; intros k Hk;
    [unfold count_le in Hk; simpl in Hk; lia|].
  destruct (y <=? x) eqn:E.
  - destruct k as [|k]; cbn [nth]; [apply leb_true, E|].
    apply IH. unfold count_le in *. cbn [filter] in Hk. rewrite E in Hk.
    simpl in Hk. lia.
  - exfalso. apply leb_false in E.
    assert (H0 : count_le x (y :: ys) = 0%nat).
    { apply count_le_none. constructor; [exact E|].
      eapply Forall_impl; [|exact Hy]. intros z Hz. unfold key_le in Hz.
      eapply Qlt_le_trans; [exact E|exact Hz]. }
    lia.
Qed.

(** Data that are pointwise smaller have the smaller order statistics. *)
Lemma order_statistic_mono (a b : list Q) (k : nat) :
  (forall x, (count_le x b <= count_le x a)%nat) ->
  (k < List.length b)%nat ->
  nth k (sorted_by (fun x => x) a) 0 <= nth k (sorted_by (fun x => x) b) 0.
Proof.
  intros Hcount Hk.
  set (x := nth k (sorted_by (fun x => x) b) 0).
  apply count_nth_sorted; [apply sorted_by_sorted|].
  rewrite <- (count_le_perm x a _ (sorted_by_perm (fun x => x) a)).
  eapply Nat.lt_le_trans; [|apply Hcount].
  rewrite (count_le_perm x b _ (sorted_by_perm (fun x => x) b)).
  apply sorted_nth_count; [apply sorted_by_sorted|].
  rewrite sorted_by_length. exact Hk.
Qed.

Lemma count_le_pointwise {A : Type} (f g : A -> Q) (x : Q) (l : list A) :
  (forall c, In c l -> f c <= g c) ->
  (count_le x (map g l) <= count_le x (map f l))%nat.
Proof.
  unfold count_le. induction l as [|c l IH]; intro H; simpl; [lia|].
  assert (IH' := IH (fun c' Hc' => H c' (or_intror Hc'))).
  destruct (g c <=? x) eqn:Eg.
  - assert (Ef : (f c <=? x) = true).
    { apply leb_true. apply leb_true in Eg.
      eapply Qle_trans; [apply H; left; reflexivity|exact Eg]. }
    rewrite Ef. simpl. lia.
  - destruct (f c <=? x); simpl; lia.
Qed.

(** [median] is monotone: data that are pointwise smaller have the smaller
    median. *)
Lemma median_mono (a b : list Q) (ma mb : Q) :
  (forall x, (count_le x b <= count_le x a)%nat) ->
  List.length a = List.length b ->
  median a = Ok ma -> median b = Ok mb -> ma <= mb.
Proof.
  intros Hcount Hlen. unfold median. rewrite !sorted_by_length, Hlen.
  set (n := List.length b).
  destruct (n =? 0)%nat eqn:Hn0; [discriminate|].
  apply Nat.eqb_neq in Hn0.
  assert (Hhalf : (n / 2 < n)%nat) by (apply Nat.div_lt; lia).
  pose proof (order_statistic_mono a b (n / 2) Hcount Hhalf) as Hmid.
  destruct (n mod 2 =? 1)%nat.
  - intros Ha Hb.
    assert (Ea : nth (n / 2) (sorted_by (fun x => x) a) 0 = ma) by congruence.
    assert (Eb : nth (n / 2) (sorted_by (fun x => x) b) 0 = mb) by congruence.
    rewrite <- Ea, <- Eb. exact Hmid.
  - cbv zeta. intros Ha Hb.
    assert (Hlow : (n / 2 - 1 < n)%nat) by lia.
    pose proof (order_statistic_mono a b (n / 2 - 1) Hcount Hlow) as Hlo.
    set (a1 := nth (n / 2 - 1) (sorted_by (fun x => x) a) 0) in *.
    set (a2 := nth (n / 2) (sorted_by (fun x => x) a) 0) in *.
    set (b1 := nth (n / 2 - 1) (sorted_by (fun x => x) b) 0) in *.
    set (b2 := nth (n / 2) (sorted_by (fun x => x) b) 0) in *.
    assert (Ea : (a1 + a2) / 2 = ma) by congruence.
    assert (Eb : (b1 + b2) / 2 = mb) by congruence.
    rewrite <- Ea, <- Eb. clear Ea Eb Ha Hb. qlra.
Qed.

(** X23.  Normalisation keeps a phrase upright: when the phrase has its top
    not below its bottom and so has every glyph the crop of its box yields,
    the phrase written back still has its top not below its bottom, whether
    the crop fails, yields nothing or yields glyphs (the medians of the tops
    and of the bottoms are then in the same order). *)
Theorem normalized_phrase_upright (page : Page) (w : Phrase) :
  top w <= bottom w ->
  (forall chars c, page_crop page (phrase_bbox w) = Ok chars ->
                   In c chars -> g_top c <= g_bottom c) ->
  top (normalize_phrase page w) <= bottom (normalize_phrase page w).
Proof.
  intros Hw Hg. unfold normalize_phrase.
  change (x0 w, top w, x1 w, bottom w) with (phrase_bbox w).
  destruct (page_crop page (phrase_bbox w)) as [chars|] eqn:Hcrop;
    cbn [bind try_pass]; [|exact Hw].
  destruct (median (map g_top chars)) as [t|] eqn:Ht;
    cbn [bind try_pass]; [|exact Hw].
  destruct (median (map g_bottom chars)) as [b|] eqn:Hb;
    cbn [bind try_pass top bottom]; [|exact Hw].
  apply (median_mono (map g_top chars) (map g_bottom chars) t b).
  - intro x. apply count_le_pointwise. intros c Hc.
    apply (Hg chars c eq_refl Hc).
  - now rewrite !length_map.
  - exact Ht.
  - exact Hb.
Qed.

Lemma normalized_phrase_upright_witness :
  top (normalize_phrase glyph_page tall_word)
  <= bottom (normalize_phrase glyph_page tall_word).
Proof.
  apply (normalized_phrase_upright glyph_page tall_word).
  - vm_compute. discriminate.
  - intros chars c Hc Hin.
    assert (E : Ok three_glyphs = Ok chars) by exact Hc.
    injection E as <-.
    destruct Hin as [<-|[<-|[<-|[]]]]; vm_compute; discriminate.
Defined.
